(** * Question-sheet store (src/store/useStore.js): a shallow embedding

    The store keeps a tree sheet -> topic -> subtopic -> question, mutated
    through named actions, and a few pure selectors.  The embedding follows
    the JavaScript function by function:

    - untyped values that reach the code from outside (the sheet.json
      document, the [questionData] object of the question form, a persisted
      difficulty) are [JsVal]s, with JavaScript truthiness and property
      lookup written out;
    - the tree itself is made of records, one per object shape the store
      builds;
    - the zustand state is a record and every action is a function on it
      ([set] merges the fields it is given, so an action rebuilds the record
      with the other fields copied);
    - what the host supplies (String.prototype.trim and toLowerCase, the URL
      constructor, the text of a TypeError) is the interface [Host]; uuidv4
      is an explicit argument. *)

From Stdlib Require Import ZArith String Ascii List Lia Permutation.
From stdpp Require Import base option list gmap strings fin_maps pretty.

Open Scope string_scope.
Open Scope Z_scope.
Open Scope nat_scope.
Open Scope list_scope.

(** ** JavaScript values *)

(** JSON values plus [undefined].  A number is kept as an integer: the code
    only tests numbers for truthiness and for their type tag, and otherwise
    passes them on.  An object is the association list of its own
    properties; a key is read at its first binding. *)
#[warnings="-register-all"]
Inductive JsVal : Type :=
  | JUndefined
  | JNull
  | JBool (b : bool)
  | JNum (n : Z)
  | JStr (s : string)
  | JArr (items : list JsVal)
  | JObj (fields : list (string * JsVal)).

(** ToBoolean. *)
Definition truthy (v : JsVal) : bool :=
  match v with
  | JUndefined | JNull => false
  | JBool b => b
  | JNum n => negb (n =? 0)%Z
  | JStr s => negb (String.eqb s "")
  | JArr _ | JObj _ => true
  end.

(** [a || b] on values. *)
Definition js_or (a b : JsVal) : JsVal := if truthy a then a else b.

Fixpoint assoc {V : Type} (k : string) (fields : list (string * V)) : option V :=
  match fields with
  | [] => None
  | (k', v) :: rest => if String.eqb k k' then Some v else assoc k rest
  end.

(** The value of [v.k] when [v] is neither [null] nor [undefined].  None of
    the keys the store reads is a property of a string, number, boolean or
    array that holds a string ([String.prototype.link] is a function, which
    [validateUrl] treats like [undefined]). *)
Definition own (v : JsVal) (k : string) : JsVal :=
  match v with
  | JObj fields => default JUndefined (assoc k fields)
  | _ => JUndefined
  end.

Definition nullish (v : JsVal) : bool :=
  match v with
  | JUndefined | JNull => true
  | _ => false
  end.

(** [v?.k]: never throws. *)
Definition opt_get (v : JsVal) (k : string) : JsVal :=
  if nullish v then JUndefined else own v k.

(** Exceptions.  [exn_message] is what [error.message] reads. *)
Record Exn : Type := mkExn { exn_message : string }.

Definition Result (A : Type) : Type := Exn + A.

Definition ret {A : Type} (x : A) : Result A := inr x.
Definition throw {A : Type} (e : Exn) : Result A := inl e.
Definition bind {A B : Type} (m : Result A) (k : A -> Result B) : Result B :=
  match m with
  | inl e => inl e
  | inr x => k x
  end.

Notation "'try' x <- m 'in' k" := (bind m (fun x => k))
  (at level 10, x name, m at level 100, k at level 200).

(** ** Host interface *)

Class Host : Type := {
  (** String.prototype.trim *)
  trim : string -> string;
  (** String.prototype.toLowerCase *)
  toLowerCase : string -> string;
  (** whether [new URL(s)] returns rather than throws *)
  url_parses : string -> bool;
  (** the message of the TypeError raised by the named operation *)
  type_error_message : string -> string
}.

(** ** Constants *)

Definition STORAGE_KEY : string := "question-sheet-storage".

Module DIFFICULTY_LEVELS.
Definition EASY : string := "Easy".
Definition MEDIUM : string := "Medium".
Definition HARD : string := "Hard".
Definition BASIC : string := "Basic".
(** Object.values(DIFFICULTY_LEVELS) *)
Definition values : list string := [EASY; MEDIUM; HARD; BASIC].
End DIFFICULTY_LEVELS.

Definition FILTER_ALL : string := "all".
Definition FILTER_SOLVED : string := "solved".
Definition FILTER_UNSOLVED : string := "unsolved".

Definition THEME_DARK : string := "dark".
Definition THEME_LIGHT : string := "light".

(** ** Utility functions *)

(** [includes] on an array of strings: is [x] one of [l]. *)
Definition str_in (x : string) (l : list string) : bool :=
  existsb (String.eqb x) l.

(** `${prefix}-${uuidv4()}`, the uuid being supplied. *)
Definition generateId (prefix uuid : string) : string :=
  prefix +:+ "-" +:+ uuid.

Section WithHost.
Context `{Host}.

Definition TypeError (what : string) : Exn := mkExn (type_error_message what).

(** [v.k] with the TypeError of a property read on null or undefined. *)
Definition get (v : JsVal) (k : string) : Result JsVal :=
  if nullish v then throw (TypeError k) else ret (own v k).

Definition sanitizeString (value : JsVal) (fallback : string) : string :=
  match value with
  | JStr s => let t := trim s in if String.eqb t "" then fallback else t
  | _ => fallback
  end.

Definition validateDifficulty (difficulty : JsVal) : string :=
  match difficulty with
  | JStr s =>
      if str_in s DIFFICULTY_LEVELS.values then s else DIFFICULTY_LEVELS.MEDIUM
  | _ => DIFFICULTY_LEVELS.MEDIUM
  end.

Definition validateUrl (url : JsVal) : string :=
  match url with
  | JStr s =>
      if String.eqb s "" then ""
      else
        let trimmed := trim s in
        if String.eqb trimmed "" then ""
        else if url_parses trimmed then trimmed
        else if String.prefix "http" trimmed then trimmed
        else ""
  | _ => ""
  end.

End WithHost.

(** ** The tree *)

(** A question as [transformSheetData] and [addQuestion] build it.  The id is
    whatever truthy value the source record carried under [_id], or a
    generated string.  [topic], [subtopic], [resource] and [tags] are only set
    at ingest.  The difficulty is kept as a value: the statistics must cope
    with a missing or foreign one. *)
Record Question : Type := mkQuestion {
  q_id : JsVal;
  q_title : string;
  q_topic : option string;
  q_subtopic : option string;
  q_difficulty : JsVal;
  q_url : string;
  q_resource : option string;
  q_tags : option (list JsVal);
  q_isSolved : bool;
  q_order : nat;
  q_notes : string
}.

Record Subtopic : Type := mkSubtopic {
  s_id : string;
  s_name : string;
  s_order : nat;
  s_questions : list Question
}.

Record Topic : Type := mkTopic {
  t_id : string;
  t_name : string;
  t_order : nat;
  t_subtopics : list Subtopic
}.

Record Sheet : Type := mkSheet {
  sh_id : JsVal;
  sh_name : string;
  sh_description : string;
  sh_author : string;
  sh_followers : Z;
  sh_banner : string;
  sh_link : string;
  sh_tags : list string
}.

(** Spread-and-override, one per field the store overrides. *)
Definition q_with_title (x : string) (q : Question) : Question :=
  mkQuestion (q_id q) x (q_topic q) (q_subtopic q) (q_difficulty q) (q_url q)
    (q_resource q) (q_tags q) (q_isSolved q) (q_order q) (q_notes q).
Definition q_with_difficulty (x : JsVal) (q : Question) : Question :=
  mkQuestion (q_id q) (q_title q) (q_topic q) (q_subtopic q) x (q_url q)
    (q_resource q) (q_tags q) (q_isSolved q) (q_order q) (q_notes q).
Definition q_with_url (x : string) (q : Question) : Question :=
  mkQuestion (q_id q) (q_title q) (q_topic q) (q_subtopic q) (q_difficulty q) x
    (q_resource q) (q_tags q) (q_isSolved q) (q_order q) (q_notes q).
Definition q_with_isSolved (x : bool) (q : Question) : Question :=
  mkQuestion (q_id q) (q_title q) (q_topic q) (q_subtopic q) (q_difficulty q)
    (q_url q) (q_resource q) (q_tags q) x (q_order q) (q_notes q).
Definition q_with_order (x : nat) (q : Question) : Question :=
  mkQuestion (q_id q) (q_title q) (q_topic q) (q_subtopic q) (q_difficulty q)
    (q_url q) (q_resource q) (q_tags q) (q_isSolved q) x (q_notes q).
Definition q_with_notes (x : string) (q : Question) : Question :=
  mkQuestion (q_id q) (q_title q) (q_topic q) (q_subtopic q) (q_difficulty q)
    (q_url q) (q_resource q) (q_tags q) (q_isSolved q) (q_order q) x.

Definition s_with_name (x : string) (s : Subtopic) : Subtopic :=
  mkSubtopic (s_id s) x (s_order s) (s_questions s).
Definition s_with_order (x : nat) (s : Subtopic) : Subtopic :=
  mkSubtopic (s_id s) (s_name s) x (s_questions s).
Definition s_with_questions (x : list Question) (s : Subtopic) : Subtopic :=
  mkSubtopic (s_id s) (s_name s) (s_order s) x.

Definition t_with_name (x : string) (t : Topic) : Topic :=
  mkTopic (t_id t) x (t_order t) (t_subtopics t).
Definition t_with_order (x : nat) (t : Topic) : Topic :=
  mkTopic (t_id t) (t_name t) x (t_subtopics t).
Definition t_with_subtopics (x : list Subtopic) (t : Topic) : Topic :=
  mkTopic (t_id t) (t_name t) (t_order t) x.

(** [x === id] for a string [id]: strict equality with a string holds only
    for that same string. *)
Definition is_str (x : JsVal) (id : string) : bool :=
  match x with
  | JStr s => String.eqb s id
  | _ => false
  end.

(** ** Reordering *)

(** Items that carry an [order] field: [with_order i x] is
    [{ ...x, order: i }]. *)
Class Ordered (A : Type) : Type := {
  order_of : A -> nat;
  with_order : nat -> A -> A
}.

#[export] Instance Question_Ordered : Ordered Question :=
  {| order_of := q_order; with_order := q_with_order |}.
#[export] Instance Subtopic_Ordered : Ordered Subtopic :=
  {| order_of := s_order; with_order := s_with_order |}.
#[export] Instance Topic_Ordered : Ordered Topic :=
  {| order_of := t_order; with_order := t_with_order |}.

(** Array.prototype.findIndex: the first index whose element satisfies [p],
    or -1. *)
Fixpoint findIndex {A : Type} (p : A -> bool) (l : list A) : Z :=
  match l with
  | [] => (-1)%Z
  | x :: rest =>
      if p x then 0%Z
      else let i := findIndex p rest in
           if (i =? -1)%Z then (-1)%Z else (i + 1)%Z
  end.

(** The start position [splice] works with: a negative [start] counts from
    the end, and the result is clamped to [0, len]. *)
Definition splice_start (len : nat) (start : Z) : nat :=
  if (start <? 0)%Z then Z.to_nat (Z.max (Z.of_nat len + start) 0)
  else Z.to_nat (Z.min start (Z.of_nat len)).

(** [const [removed] = result.splice(start, 1)]: the removed element, if
    there is one at the start position, and the array afterwards. *)
Definition splice_out {A : Type} (result : list A) (start : Z)
  : option A * list A :=
  let i := splice_start (length result) start in
  (result !! i, delete i result).

(** [result.splice(start, 0, x)] *)
Definition splice_in {A : Type} (result : list A) (start : Z) (x : A) : list A :=
  let i := splice_start (length result) start in
  take i result ++ x :: drop i result.

(** [result.map((item, index) => ({ ...item, order: index }))] *)
Definition renumber {A : Type} `{Ordered A} (result : list A) : list A :=
  imap with_order result.

(** [reorderArray].  When [oldIndex] is at or past the end, [splice] removes
    nothing, [removed] is [undefined] and the JavaScript result holds the
    object [{ order: i }] made from it, which is not an item of the tree:
    that one outcome is [None] here.  The three callers pass results of
    [findIndex] other than -1, for which it does not arise
    (see [reorderArray_in_range]). *)
Definition reorderArray {A : Type} `{Ordered A}
    (array : list A) (oldIndex newIndex : Z) : option (list A) :=
  if bool_decide (oldIndex = (-1)%Z) || bool_decide (newIndex = (-1)%Z)
     || bool_decide (oldIndex = newIndex)
  then Some array
  else
    let '(removed, result) := splice_out array oldIndex in
    match removed with
    | Some removed => Some (renumber (splice_in result newIndex removed))
    | None => None
    end.

(** ** Data transformation *)

(** A JavaScript [Map] with string keys is the list of its bindings in
    insertion order: [assoc] is [get] ([None] when [has] is false), and
    [map_set] on a key already there keeps its position. *)
Fixpoint map_set {V : Type} (k : string) (v : V) (m : list (string * V))
  : list (string * V) :=
  match m with
  | [] => [(k, v)]
  | (k', v') :: rest =>
      if String.eqb k k' then (k, v) :: rest else (k', v') :: map_set k v rest
  end.

(** [Array.from(m.values())] *)
Definition map_values {V : Type} (m : list (string * V)) : list V := m.*2.

(** The topic object while [topicsMap] is being filled: its subtopics are
    still a [Map].  The subtopic objects are already the final ones. *)
Record TopicB : Type := mkTopicB {
  tb_id : string;
  tb_name : string;
  tb_order : nat;
  tb_subtopics : list (string * Subtopic)
}.

(** [xs.forEach(f)] with a body that may throw. *)
Fixpoint forEach {S A : Type} (f : S -> A -> Result S) (xs : list A) (s : S)
  : Result S :=
  match xs with
  | [] => ret s
  | x :: rest => try s' <- f s x in forEach f rest s'
  end.

Section Transform.
Context `{Host}.
(** [uuid k] is what the k-th call of uuidv4 returns. *)
Variable uuid : nat -> string.

(** The object pushed for the source record [q]. *)
Definition new_question (q : JsVal) (topicName subtopicName : string)
    (id : JsVal) (order : nat) : Question :=
  {| q_id := id;
     q_title := sanitizeString (own q "title") "Untitled Question";
     q_topic := Some topicName;
     q_subtopic := Some subtopicName;
     q_difficulty :=
       JStr (validateDifficulty (opt_get (own q "questionId") "difficulty"));
     q_url := validateUrl (opt_get (own q "questionId") "problemUrl");
     q_resource := Some (sanitizeString (own q "resource") "");
     q_tags :=
       Some match opt_get (own q "questionId") "topics" with
            | JArr l => l
            | _ => []
            end;
     q_isSolved := truthy (own q "isSolved");
     q_order := order;
     q_notes := "" |}.

(** The body of [questions.forEach].  The state is [topicsMap] and the number
    of uuids drawn so far.  [q.topic] throws on a null record; the later reads
    of [q] then cannot.  The JavaScript inserts a missing topic or subtopic
    and then mutates the object it gets back from the map; here the object is
    fetched or made, updated, and stored back under its key, which leaves it
    at the same position. *)
Definition ingest_one (acc : list (string * TopicB) * nat) (q : JsVal)
  : Result (list (string * TopicB) * nat) :=
  let '(topicsMap, drawn) := acc in
  try rawTopic <- get q "topic" in
  let topicName := sanitizeString rawTopic "General" in
  let subtopicName := sanitizeString (own q "subTopic") "General" in
  let topic :=
    default
      (mkTopicB ("topic-" +:+ pretty (length topicsMap)) topicName
         (length topicsMap) [])
      (assoc topicName topicsMap) in
  let subtopic :=
    default
      (mkSubtopic
         ("subtopic-" +:+ tb_id topic +:+ "-"
            +:+ pretty (length (tb_subtopics topic)))
         subtopicName (length (tb_subtopics topic)) [])
      (assoc subtopicName (tb_subtopics topic)) in
  let '(id, drawn) :=
    if truthy (own q "_id") then (own q "_id", drawn)
    else (JStr (generateId "question" (uuid drawn)), S drawn) in
  let pushed :=
    s_with_questions
      (s_questions subtopic
         ++ [new_question q topicName subtopicName id
               (length (s_questions subtopic))])
      subtopic in
  let topic :=
    mkTopicB (tb_id topic) (tb_name topic) (tb_order topic)
      (map_set subtopicName pushed (tb_subtopics topic)) in
  ret (map_set topicName topic topicsMap, drawn).

(** [{ ...topic, subtopics: Array.from(topic.subtopics.values()) }] *)
Definition finish_topic (topic : TopicB) : Topic :=
  mkTopic (tb_id topic) (tb_name topic) (tb_order topic)
    (map_values (tb_subtopics topic)).

Definition new_sheet (sheet : JsVal) (drawn : nat) : Sheet :=
  {| sh_id := js_or (own sheet "_id") (JStr (generateId "sheet" (uuid drawn)));
     sh_name := sanitizeString (own sheet "name") "Question Sheet";
     sh_description := sanitizeString (own sheet "description") "";
     sh_author := sanitizeString (own sheet "author") "";
     sh_followers :=
       match own sheet "followers" with
       | JNum n => n
       | _ => 0%Z
       end;
     sh_banner := sanitizeString (own sheet "banner") "";
     sh_link := validateUrl (own sheet "link");
     sh_tags :=
       match own sheet "tag" with
       | JArr l => omap (fun t => match t with JStr s => Some s | _ => None end) l
       | _ => []
       end |}.

(** [rawData?.data?.sheet] and [rawData?.data?.questions] *)
Definition data_sheet (rawData : JsVal) : JsVal :=
  opt_get (opt_get rawData "data") "sheet".
Definition data_questions (rawData : JsVal) : JsVal :=
  opt_get (opt_get rawData "data") "questions".

Definition transformSheetData (rawData : JsVal) : Result (Sheet * list Topic) :=
  if negb (truthy (data_sheet rawData)) || negb (truthy (data_questions rawData))
  then throw (mkExn "Invalid sheet data format")
  else
    let sheet := data_sheet rawData in
    let questions := data_questions rawData in
    try items <-
      match questions with
      | JArr items => ret items
      | _ => throw (TypeError "forEach")
      end in
    try acc <- forEach ingest_one items ([], 0) in
    let '(topicsMap, drawn) := acc in
    let topics := finish_topic <$> map_values topicsMap in
    ret (new_sheet sheet drawn, topics).

End Transform.

(** The last two arguments of [updateTopicsNested]: a [questionId] with an
    updater of questions, or [undefined] with an updater of subtopics. *)
Inductive NestedUpdate : Type :=
  | AtQuestion (questionId : string) (updater : Question -> Question)
  | AtSubtopic (updater : Subtopic -> Subtopic).

(** [updateTopicsNested].  A falsy [topicId] or [subtopicId] matches every
    topic or subtopic. *)
Definition updateTopicsNested (topics : list Topic) (topicId subtopicId : string)
    (upd : NestedUpdate) : list Topic :=
  (fun topic =>
     if negb (String.eqb topicId "") && negb (String.eqb (t_id topic) topicId)
     then topic
     else
       t_with_subtopics
         ((fun subtopic =>
             if negb (String.eqb subtopicId "")
                && negb (String.eqb (s_id subtopic) subtopicId)
             then subtopic
             else
               match upd with
               | AtQuestion questionId updater =>
                   s_with_questions
                     ((fun q =>
                         if is_str (q_id q) questionId then updater q else q)
                        <$> s_questions subtopic)
                     subtopic
               | AtSubtopic updater => updater subtopic
               end) <$> t_subtopics topic)
         topic) <$> topics.

(** ** The store *)

Record State : Type := mkState {
  sheet : option Sheet;
  topics : list Topic;
  expandedTopics : gmap string bool;
  expandedSubtopics : gmap string bool;
  loading : bool;
  error : option string;
  searchQuery : string;
  filterDifficulty : string;
  filterStatus : string;
  theme : string;
  showStats : bool
}.

Definition initial_state : State :=
  {| sheet := None; topics := []; expandedTopics := ∅; expandedSubtopics := ∅;
     loading := true; error := None; searchQuery := "";
     filterDifficulty := FILTER_ALL; filterStatus := FILTER_ALL;
     theme := THEME_DARK; showStats := false |}.

(** [set({ field: x })], one per field. *)
Definition set_sheet (x : option Sheet) (st : State) : State :=
  mkState x (topics st) (expandedTopics st) (expandedSubtopics st) (loading st)
    (error st) (searchQuery st) (filterDifficulty st) (filterStatus st)
    (theme st) (showStats st).
Definition set_topics (x : list Topic) (st : State) : State :=
  mkState (sheet st) x (expandedTopics st) (expandedSubtopics st) (loading st)
    (error st) (searchQuery st) (filterDifficulty st) (filterStatus st)
    (theme st) (showStats st).
Definition set_expandedTopics (x : gmap string bool) (st : State) : State :=
  mkState (sheet st) (topics st) x (expandedSubtopics st) (loading st)
    (error st) (searchQuery st) (filterDifficulty st) (filterStatus st)
    (theme st) (showStats st).
Definition set_expandedSubtopics (x : gmap string bool) (st : State) : State :=
  mkState (sheet st) (topics st) (expandedTopics st) x (loading st)
    (error st) (searchQuery st) (filterDifficulty st) (filterStatus st)
    (theme st) (showStats st).
Definition set_loading (x : bool) (st : State) : State :=
  mkState (sheet st) (topics st) (expandedTopics st) (expandedSubtopics st) x
    (error st) (searchQuery st) (filterDifficulty st) (filterStatus st)
    (theme st) (showStats st).
Definition set_error (x : option string) (st : State) : State :=
  mkState (sheet st) (topics st) (expandedTopics st) (expandedSubtopics st)
    (loading st) x (searchQuery st) (filterDifficulty st) (filterStatus st)
    (theme st) (showStats st).
Definition set_searchQuery (x : string) (st : State) : State :=
  mkState (sheet st) (topics st) (expandedTopics st) (expandedSubtopics st)
    (loading st) (error st) x (filterDifficulty st) (filterStatus st)
    (theme st) (showStats st).
Definition set_filterDifficulty (x : string) (st : State) : State :=
  mkState (sheet st) (topics st) (expandedTopics st) (expandedSubtopics st)
    (loading st) (error st) (searchQuery st) x (filterStatus st)
    (theme st) (showStats st).
Definition set_filterStatus (x : string) (st : State) : State :=
  mkState (sheet st) (topics st) (expandedTopics st) (expandedSubtopics st)
    (loading st) (error st) (searchQuery st) (filterDifficulty st) x
    (theme st) (showStats st).
Definition set_theme (x : string) (st : State) : State :=
  mkState (sheet st) (topics st) (expandedTopics st) (expandedSubtopics st)
    (loading st) (error st) (searchQuery st) (filterDifficulty st)
    (filterStatus st) x (showStats st).
Definition set_showStats (x : bool) (st : State) : State :=
  mkState (sheet st) (topics st) (expandedTopics st) (expandedSubtopics st)
    (loading st) (error st) (searchQuery st) (filterDifficulty st)
    (filterStatus st) (theme st) x.

(** [!id] for an id argument. *)
Definition missing (id : string) : bool := String.eqb id "".

Section Store.
Context `{Host}.

(** *** Data loading *)

(** [fetchSheetData], with the imported [sheetData] and the uuid source as
    arguments.  Whatever [transformSheetData] throws is an [Error], so the
    [catch] block always stores its message. *)
Definition fetchSheetData (uuid : nat -> string) (sheetData : JsVal)
    (state : State) : State :=
  if (0 <? length (topics state)) && negb (loading state) then state
  else
    let st := set_error None (set_loading true state) in
    match transformSheetData uuid sheetData with
    | inr (sheet, topics) =>
        set_loading false (set_topics topics (set_sheet (Some sheet) st))
    | inl error => set_loading false (set_error (Some (exn_message error)) st)
    end.

(** [resetProgress], up to the end of the call: the storage key is removed
    (storage is outside the state) and the re-fetch is only scheduled; it
    runs later as a [fetchSheetData] of its own. *)
Definition resetProgress (st : State) : State :=
  set_error None (set_loading true (set_sheet None (set_topics [] st))).

(** *** UI state actions *)

Definition toggleTopicExpansion (topicId : string) (st : State) : State :=
  if missing topicId then st
  else
    set_expandedTopics
      (<[topicId := negb (default false (expandedTopics st !! topicId))]>
         (expandedTopics st)) st.

Definition toggleSubtopicExpansion (subtopicId : string) (st : State) : State :=
  if missing subtopicId then st
  else
    set_expandedSubtopics
      (<[subtopicId := negb (default false (expandedSubtopics st !! subtopicId))]>
         (expandedSubtopics st)) st.

Definition expandAllTopics (st : State) : State :=
  set_expandedTopics
    (foldl (fun m t => <[t_id t := true]> m) ∅ (topics st)) st.

Definition collapseAllTopics (st : State) : State := set_expandedTopics ∅ st.

Definition setSearchQuery (query : JsVal) (st : State) : State :=
  set_searchQuery match query with JStr s => s | _ => "" end st.

Definition setFilterDifficulty (difficulty : string) (st : State) : State :=
  set_filterDifficulty
    (if String.eqb difficulty "" then FILTER_ALL else difficulty) st.

Definition setFilterStatus (status : string) (st : State) : State :=
  set_filterStatus (if String.eqb status "" then FILTER_ALL else status) st.

Definition toggleTheme (st : State) : State :=
  set_theme (if String.eqb (theme st) THEME_DARK then THEME_LIGHT else THEME_DARK)
    st.

Definition toggleStats (st : State) : State :=
  set_showStats (negb (showStats st)) st.

(** *** Question actions *)

Definition toggleQuestionSolved (questionId : string) (st : State) : State :=
  if missing questionId then st
  else
    let newTopics :=
      (fun topic =>
         t_with_subtopics
           ((fun subtopic =>
               s_with_questions
                 ((fun q =>
                     if is_str (q_id q) questionId
                     then q_with_isSolved (negb (q_isSolved q)) q
                     else q) <$> s_questions subtopic)
                 subtopic) <$> t_subtopics topic)
           topic) <$> topics st in
    set_topics newTopics st.

Definition toggleAllInSubtopic (topicId subtopicId : string) (solved : JsVal)
    (st : State) : State :=
  if missing topicId || missing subtopicId then st
  else
    let newTopics :=
      updateTopicsNested (topics st) topicId subtopicId
        (AtSubtopic
           (fun subtopic =>
              s_with_questions
                (q_with_isSolved (truthy solved) <$> s_questions subtopic)
                subtopic)) in
    set_topics newTopics st.

Definition updateQuestionNotes (questionId : string) (notes : JsVal)
    (st : State) : State :=
  if missing questionId then st
  else
    let newTopics :=
      (fun topic =>
         t_with_subtopics
           ((fun subtopic =>
               s_with_questions
                 ((fun q =>
                     if is_str (q_id q) questionId
                     then q_with_notes (sanitizeString notes "") q
                     else q) <$> s_questions subtopic)
                 subtopic) <$> t_subtopics topic)
           topic) <$> topics st in
    set_topics newTopics st.

(** *** Topic CRUD *)

Definition addTopic (uuid : string) (name : JsVal) (st : State) : State :=
  let sanitizedName := sanitizeString name "" in
  if String.eqb sanitizedName "" then st
  else
    let newTopic :=
      mkTopic (generateId "topic" uuid) sanitizedName (length (topics st)) [] in
    set_topics (topics st ++ [newTopic]) st.

Definition updateTopic (topicId : string) (name : JsVal) (st : State) : State :=
  let sanitizedName := sanitizeString name "" in
  if missing topicId || String.eqb sanitizedName "" then st
  else
    set_topics
      ((fun t => if String.eqb (t_id t) topicId
                 then t_with_name sanitizedName t else t) <$> topics st) st.

Definition deleteTopic (topicId : string) (st : State) : State :=
  if missing topicId then st
  else
    let newExpanded := delete topicId (expandedTopics st) in
    set_expandedTopics newExpanded
      (set_topics
         (List.filter (fun t => negb (String.eqb (t_id t) topicId)) (topics st))
         st).

(** *** Subtopic CRUD *)

Definition addSubtopic (uuid : string) (topicId : string) (name : JsVal)
    (st : State) : State :=
  let sanitizedName := sanitizeString name "" in
  if missing topicId || String.eqb sanitizedName "" then st
  else
    set_topics
      ((fun t =>
          if negb (String.eqb (t_id t) topicId) then t
          else
            t_with_subtopics
              (t_subtopics t
                 ++ [mkSubtopic (generateId "subtopic" uuid) sanitizedName
                       (length (t_subtopics t)) []])
              t) <$> topics st) st.

Definition updateSubtopic (topicId subtopicId : string) (name : JsVal)
    (st : State) : State :=
  let sanitizedName := sanitizeString name "" in
  if missing topicId || missing subtopicId || String.eqb sanitizedName "" then st
  else
    set_topics
      ((fun t =>
          if negb (String.eqb (t_id t) topicId) then t
          else
            t_with_subtopics
              ((fun s => if String.eqb (s_id s) subtopicId
                         then s_with_name sanitizedName s else s)
                 <$> t_subtopics t)
              t) <$> topics st) st.

Definition deleteSubtopic (topicId subtopicId : string) (st : State) : State :=
  if missing topicId || missing subtopicId then st
  else
    let newExpanded := delete subtopicId (expandedSubtopics st) in
    set_expandedSubtopics newExpanded
      (set_topics
         ((fun t =>
             if negb (String.eqb (t_id t) topicId) then t
             else
               t_with_subtopics
                 (List.filter (fun s => negb (String.eqb (s_id s) subtopicId))
                    (t_subtopics t))
                 t) <$> topics st) st).

(** *** Question CRUD *)

Definition addQuestion (uuid : string) (topicId subtopicId : string)
    (questionData : JsVal) (st : State) : State :=
  if missing topicId || missing subtopicId || negb (truthy questionData) then st
  else
    let title := sanitizeString (own questionData "title") "" in
    if String.eqb title "" then st
    else
      set_topics
        ((fun t =>
            if negb (String.eqb (t_id t) topicId) then t
            else
              t_with_subtopics
                ((fun s =>
                    if negb (String.eqb (s_id s) subtopicId) then s
                    else
                      s_with_questions
                        (s_questions s
                           ++ [{| q_id := JStr (generateId "question" uuid);
                                  q_title := title;
                                  q_topic := None;
                                  q_subtopic := None;
                                  q_difficulty :=
                                    JStr (validateDifficulty
                                            (own questionData "difficulty"));
                                  q_url := validateUrl (own questionData "url");
                                  q_resource := None;
                                  q_tags := None;
                                  q_isSolved := false;
                                  q_order := length (s_questions s);
                                  q_notes := "" |}])
                        s) <$> t_subtopics t)
                t) <$> topics st) st.

(** The object [updateQuestion] returns for the question it addresses: three
    conditional spreads over [...q]. *)
Definition merge_question (questionData : JsVal) (q : Question) : Question :=
  let q1 :=
    if truthy (own questionData "title")
    then q_with_title (sanitizeString (own questionData "title") "") q
    else q in
  let q2 :=
    if truthy (own questionData "difficulty")
    then q_with_difficulty
           (JStr (validateDifficulty (own questionData "difficulty"))) q1
    else q1 in
  match own questionData "url" with
  | JUndefined => q2
  | url => q_with_url (validateUrl url) q2
  end.

Definition updateQuestion (topicId subtopicId questionId : string)
    (questionData : JsVal) (st : State) : State :=
  if missing topicId || missing subtopicId || missing questionId
     || negb (truthy questionData)
  then st
  else
    set_topics
      ((fun t =>
          if negb (String.eqb (t_id t) topicId) then t
          else
            t_with_subtopics
              ((fun s =>
                  if negb (String.eqb (s_id s) subtopicId) then s
                  else
                    s_with_questions
                      ((fun q =>
                          if negb (is_str (q_id q) questionId) then q
                          else merge_question questionData q)
                         <$> s_questions s)
                      s) <$> t_subtopics t)
              t) <$> topics st) st.

Definition deleteQuestion (topicId subtopicId questionId : string)
    (st : State) : State :=
  if missing topicId || missing subtopicId || missing questionId then st
  else
    set_topics
      ((fun t =>
          if negb (String.eqb (t_id t) topicId) then t
          else
            t_with_subtopics
              ((fun s =>
                  if negb (String.eqb (s_id s) subtopicId) then s
                  else
                    s_with_questions
                      (List.filter
                         (fun q => negb (is_str (q_id q) questionId))
                         (s_questions s))
                      s) <$> t_subtopics t)
              t) <$> topics st) st.

(** *** Reorder actions *)

(** In the three actions the indices handed to [reorderArray] are results of
    [findIndex] other than -1, so its [None] does not arise
    ([reorderArray_found]). *)
Definition reorderTopics (activeId overId : string) (st : State) : State :=
  if missing activeId || missing overId || String.eqb activeId overId then st
  else
    let oldIndex := findIndex (fun t => String.eqb (t_id t) activeId) (topics st) in
    let newIndex := findIndex (fun t => String.eqb (t_id t) overId) (topics st) in
    if negb (oldIndex =? -1)%Z && negb (newIndex =? -1)%Z then
      match reorderArray (topics st) oldIndex newIndex with
      | Some reordered => set_topics reordered st
      | None => st
      end
    else st.

Definition reorderSubtopics (topicId activeId overId : string) (st : State)
  : State :=
  if missing topicId || missing activeId || missing overId
     || String.eqb activeId overId
  then st
  else
    set_topics
      ((fun t =>
          if negb (String.eqb (t_id t) topicId) then t
          else
            let oldIndex :=
              findIndex (fun s => String.eqb (s_id s) activeId) (t_subtopics t) in
            let newIndex :=
              findIndex (fun s => String.eqb (s_id s) overId) (t_subtopics t) in
            if (oldIndex =? -1)%Z || (newIndex =? -1)%Z then t
            else
              match reorderArray (t_subtopics t) oldIndex newIndex with
              | Some reordered => t_with_subtopics reordered t
              | None => t
              end) <$> topics st) st.

Definition reorderQuestions (topicId subtopicId activeId overId : string)
    (st : State) : State :=
  if missing topicId || missing subtopicId || missing activeId || missing overId
     || String.eqb activeId overId
  then st
  else
    set_topics
      ((fun t =>
          if negb (String.eqb (t_id t) topicId) then t
          else
            t_with_subtopics
              ((fun s =>
                  if negb (String.eqb (s_id s) subtopicId) then s
                  else
                    let oldIndex :=
                      findIndex (fun q => is_str (q_id q) activeId)
                        (s_questions s) in
                    let newIndex :=
                      findIndex (fun q => is_str (q_id q) overId)
                        (s_questions s) in
                    if (oldIndex =? -1)%Z || (newIndex =? -1)%Z then s
                    else
                      match reorderArray (s_questions s) oldIndex newIndex with
                      | Some reordered => s_with_questions reordered s
                      | None => s
                      end) <$> t_subtopics t)
              t) <$> topics st) st.

End Store.

(** *** The actions as one transition function *)

Inductive Action : Type :=
  | FetchSheetData (uuid : nat -> string) (sheetData : JsVal)
  | ResetProgress
  | ToggleTopicExpansion (topicId : string)
  | ToggleSubtopicExpansion (subtopicId : string)
  | ExpandAllTopics
  | CollapseAllTopics
  | SetSearchQuery (query : JsVal)
  | SetFilterDifficulty (difficulty : string)
  | SetFilterStatus (status : string)
  | ToggleTheme
  | ToggleStats
  | ToggleQuestionSolved (questionId : string)
  | ToggleAllInSubtopic (topicId subtopicId : string) (solved : JsVal)
  | UpdateQuestionNotes (questionId : string) (notes : JsVal)
  | AddTopic (uuid : string) (name : JsVal)
  | UpdateTopic (topicId : string) (name : JsVal)
  | DeleteTopic (topicId : string)
  | AddSubtopic (uuid : string) (topicId : string) (name : JsVal)
  | UpdateSubtopic (topicId subtopicId : string) (name : JsVal)
  | DeleteSubtopic (topicId subtopicId : string)
  | AddQuestion (uuid : string) (topicId subtopicId : string) (questionData : JsVal)
  | UpdateQuestion (topicId subtopicId questionId : string) (questionData : JsVal)
  | DeleteQuestion (topicId subtopicId questionId : string)
  | ReorderTopics (activeId overId : string)
  | ReorderSubtopics (topicId activeId overId : string)
  | ReorderQuestions (topicId subtopicId activeId overId : string).

Definition step `{Host} (a : Action) (st : State) : State :=
  match a with
  | FetchSheetData uuid sheetData => fetchSheetData uuid sheetData st
  | ResetProgress => resetProgress st
  | ToggleTopicExpansion topicId => toggleTopicExpansion topicId st
  | ToggleSubtopicExpansion subtopicId => toggleSubtopicExpansion subtopicId st
  | ExpandAllTopics => expandAllTopics st
  | CollapseAllTopics => collapseAllTopics st
  | SetSearchQuery query => setSearchQuery query st
  | SetFilterDifficulty difficulty => setFilterDifficulty difficulty st
  | SetFilterStatus status => setFilterStatus status st
  | ToggleTheme => toggleTheme st
  | ToggleStats => toggleStats st
  | ToggleQuestionSolved questionId => toggleQuestionSolved questionId st
  | ToggleAllInSubtopic topicId subtopicId solved =>
      toggleAllInSubtopic topicId subtopicId solved st
  | UpdateQuestionNotes questionId notes => updateQuestionNotes questionId notes st
  | AddTopic uuid name => addTopic uuid name st
  | UpdateTopic topicId name => updateTopic topicId name st
  | DeleteTopic topicId => deleteTopic topicId st
  | AddSubtopic uuid topicId name => addSubtopic uuid topicId name st
  | UpdateSubtopic topicId subtopicId name =>
      updateSubtopic topicId subtopicId name st
  | DeleteSubtopic topicId subtopicId => deleteSubtopic topicId subtopicId st
  | AddQuestion uuid topicId subtopicId questionData =>
      addQuestion uuid topicId subtopicId questionData st
  | UpdateQuestion topicId subtopicId questionId questionData =>
      updateQuestion topicId subtopicId questionId questionData st
  | DeleteQuestion topicId subtopicId questionId =>
      deleteQuestion topicId subtopicId questionId st
  | ReorderTopics activeId overId => reorderTopics activeId overId st
  | ReorderSubtopics topicId activeId overId =>
      reorderSubtopics topicId activeId overId st
  | ReorderQuestions topicId subtopicId activeId overId =>
      reorderQuestions topicId subtopicId activeId overId st
  end.

(** The tree mutators: every action that rebuilds [topics] from the current
    tree. *)
Definition tree_mutator (a : Action) : bool :=
  match a with
  | AddTopic _ _ | UpdateTopic _ _ | DeleteTopic _
  | AddSubtopic _ _ _ | UpdateSubtopic _ _ _ | DeleteSubtopic _ _
  | AddQuestion _ _ _ _ | UpdateQuestion _ _ _ _ | DeleteQuestion _ _ _
  | ToggleQuestionSolved _ | ToggleAllInSubtopic _ _ _ | UpdateQuestionNotes _ _
  | ReorderTopics _ _ | ReorderSubtopics _ _ _ | ReorderQuestions _ _ _ _ => true
  | _ => false
  end.

Definition replaces_sheet (a : Action) : bool :=
  match a with
  | FetchSheetData _ _ | ResetProgress => true
  | _ => false
  end.

(** ** Selectors *)

Record Bucket : Type := mkBucket { b_total : nat; b_solved : nat }.

Record TopicStats : Type := mkTopicStats {
  ts_name : string;
  ts_total : nat;
  ts_solved : nat
}.

Record Stats : Type := mkStats {
  stats_total : nat;
  stats_solved : nat;
  byDifficulty : gmap string Bucket;
  byTopic : list TopicStats
}.

Definition empty_stats : Stats :=
  {| stats_total := 0;
     stats_solved := 0;
     byDifficulty :=
       <[DIFFICULTY_LEVELS.EASY := mkBucket 0 0]>
         (<[DIFFICULTY_LEVELS.MEDIUM := mkBucket 0 0]>
            (<[DIFFICULTY_LEVELS.HARD := mkBucket 0 0]>
               (<[DIFFICULTY_LEVELS.BASIC := mkBucket 0 0]> ∅)));
     byTopic := [] |}.

(** [if (m[d]) m[d].total++] and the same for [solved]. *)
Definition bump_total (d : string) (m : gmap string Bucket) : gmap string Bucket :=
  match m !! d with
  | Some b => <[d := mkBucket (S (b_total b)) (b_solved b)]> m
  | None => m
  end.
Definition bump_solved (d : string) (m : gmap string Bucket) : gmap string Bucket :=
  match m !! d with
  | Some b => <[d := mkBucket (b_total b) (S (b_solved b))]> m
  | None => m
  end.

Section Selectors.
Context `{Host}.

(** The body of the innermost loop of [calculateDetailedStats]. *)
Definition count_question (acc : Stats * TopicStats) (q : Question)
  : Stats * TopicStats :=
  let '(stats, topicStats) := acc in
  let difficulty := validateDifficulty (q_difficulty q) in
  let stats :=
    mkStats (S (stats_total stats)) (stats_solved stats)
      (bump_total difficulty (byDifficulty stats)) (byTopic stats) in
  let topicStats :=
    mkTopicStats (ts_name topicStats) (S (ts_total topicStats))
      (ts_solved topicStats) in
  if q_isSolved q then
    (mkStats (stats_total stats) (S (stats_solved stats))
       (bump_solved difficulty (byDifficulty stats)) (byTopic stats),
     mkTopicStats (ts_name topicStats) (ts_total topicStats)
       (S (ts_solved topicStats)))
  else (stats, topicStats).

Definition count_subtopic (acc : Stats * TopicStats) (subtopic : Subtopic)
  : Stats * TopicStats :=
  foldl count_question acc (s_questions subtopic).

Definition count_topic (stats : Stats) (topic : Topic) : Stats :=
  let '(stats, topicStats) :=
    foldl count_subtopic (stats, mkTopicStats (t_name topic) 0 0)
      (t_subtopics topic) in
  mkStats (stats_total stats) (stats_solved stats) (byDifficulty stats)
    (byTopic stats ++ [topicStats]).

(** [calculateDetailedStats] on an array of topics.  In a tree of records
    every [subtopics] and [questions] is an array, so the two [continue]
    guards never fire. *)
Definition calculateDetailedStats (topics : list Topic) : Stats :=
  foldl count_topic empty_stats topics.

(** [s.includes(sub)] *)
Fixpoint includes (s sub : string) : bool :=
  String.prefix sub s
  || match s with
     | EmptyString => false
     | String _ rest => includes rest sub
     end.

(** The callback [filterQuestions] hands to [questions.filter]. *)
Definition kept (searchQuery filterDifficulty filterStatus : string)
    (q : Question) : bool :=
  let normalizedSearch := trim (toLowerCase searchQuery) in
  if negb (String.eqb normalizedSearch "")
     && negb (includes (toLowerCase (q_title q)) normalizedSearch)
  then false
  else if negb (String.eqb filterDifficulty "")
          && negb (String.eqb filterDifficulty FILTER_ALL)
          && negb (is_str (q_difficulty q) filterDifficulty)
  then false
  else if String.eqb filterStatus FILTER_SOLVED && negb (q_isSolved q)
  then false
  else if String.eqb filterStatus FILTER_UNSOLVED && q_isSolved q
  then false
  else true.

(** [filterQuestions] on an array of questions, with string arguments (for a
    string, [searchQuery || ''] is the string itself). *)
Definition filterQuestions (questions : list Question)
    (searchQuery filterDifficulty filterStatus : string) : list Question :=
  List.filter (kept searchQuery filterDifficulty filterStatus) questions.

End Selectors.

(** *** Progress selectors *)

Record Progress : Type := mkProgress { p_total : nat; p_solved : nat }.

(** [calculateSubtopicProgress] on a subtopic record (its [questions] is an
    array, so the guard does not fire). *)
Definition calculateSubtopicProgress (subtopic : Subtopic) : Progress :=
  let total := length (s_questions subtopic) in
  let solved := length (List.filter q_isSolved (s_questions subtopic)) in
  mkProgress total solved.

(** [calculateTopicProgress]: the loop over the subtopics, with [total] and
    [solved] as its state. *)
Definition calculateTopicProgress (topic : Topic) : Progress :=
  foldl
    (fun acc subtopic =>
       mkProgress
         (p_total acc + length (s_questions subtopic))
         (p_solved acc + length (List.filter q_isSolved (s_questions subtopic))))
    (mkProgress 0 0) (t_subtopics topic).

(** [Math.round((solved / total) * 100)], computed on doubles by the host. *)
Class Rounding : Type := { round_percent : nat -> nat -> nat }.

Record TotalProgress : Type := mkTotalProgress {
  tp_total : nat;
  tp_solved : nat;
  tp_percentage : nat
}.

(** [calculateTotalProgress]: two nested loops with [total] and [solved] as
    their state, then the percentage, which is 0 without a division when
    there is no question. *)
Definition calculateTotalProgress `{Rounding} (topics : list Topic)
  : TotalProgress :=
  let '(total, solved) :=
    foldl
      (fun acc topic =>
         foldl
           (fun acc subtopic =>
              (acc.1 + length (s_questions subtopic),
               acc.2 + length (List.filter q_isSolved (s_questions subtopic))))
           acc (t_subtopics topic))
      (0, 0) topics in
  mkTotalProgress total solved
    (if 0 <? total then round_percent solved total else 0).

(** ** A host for running examples

    ASCII only: the whitespace of [trim] is space, tab, line feed, vertical
    tab, form feed and carriage return, [toLowerCase] maps A-Z, and a string
    parses as a URL when it begins with a scheme followed by a colon.  The
    properties below are proved for every host; this one only serves to
    evaluate the embedding on concrete inputs. *)
Module AsciiHost.

Definition is_space (c : ascii) : bool :=
  let n := nat_of_ascii c in
  (n =? 32) || ((9 <=? n) && (n <=? 13)).

Fixpoint trim_start (s : string) : string :=
  match s with
  | String c rest => if is_space c then trim_start rest else s
  | EmptyString => EmptyString
  end.

Fixpoint trim_end (s : string) : string :=
  match s with
  | String c rest =>
      match trim_end rest with
      | EmptyString => if is_space c then EmptyString else String c EmptyString
      | t => String c t
      end
  | EmptyString => EmptyString
  end.

Definition lower (c : ascii) : ascii :=
  let n := nat_of_ascii c in
  if (65 <=? n) && (n <=? 90) then ascii_of_nat (n + 32) else c.

Fixpoint map_chars (f : ascii -> ascii) (s : string) : string :=
  match s with
  | String c rest => String (f c) (map_chars f rest)
  | EmptyString => EmptyString
  end.

Definition is_alpha (c : ascii) : bool :=
  let n := nat_of_ascii (lower c) in (97 <=? n) && (n <=? 122).

Fixpoint scheme_rest (s : string) : bool :=
  match s with
  | String c rest => if is_alpha c then scheme_rest rest else (nat_of_ascii c =? 58)
  | EmptyString => false
  end.

Definition has_scheme (s : string) : bool :=
  match s with
  | String c rest => is_alpha c && scheme_rest rest
  | EmptyString => false
  end.

#[export] Instance host : Host :=
  {| trim := fun s => trim_end (trim_start s);
     toLowerCase := map_chars lower;
     url_parses := has_scheme;
     type_error_message := fun what => "Cannot read properties (" +:+ what +:+ ")" |}.

End AsciiHost.

(** ** Specification-side definitions *)

(** The single-element move in the words of the specification: take the item
    at position [i] out, then put it in at position [j] of what is left. *)
Definition move_item {A : Type} (l : list A) (i j : nat) : list A :=
  match l !! i with
  | Some x => let rest := delete i l in take j rest ++ x :: drop j rest
  | None => l
  end.

(** [i] is the position of the first element of [keys] equal to [k]. *)
Definition first_at {K : Type} (keys : list K) (k : K) (i : nat) : Prop :=
  keys !! i = Some k /\ k ∉ take i keys.

(** What [with_order] must satisfy to be the update of one field. *)
Class OrderedLaws (A : Type) `{Ordered A} : Prop := {
  order_of_with_order : forall i x, order_of (with_order i x) = i;
  with_order_with_order : forall i j x, with_order i (with_order j x) = with_order i x;
  with_order_order_of : forall x, with_order (order_of x) x = x
}.

(** An item with its [order] field blanked out. *)
Definition forget_order {A : Type} `{Ordered A} (x : A) : A := with_order 0 x.

(** [after] is [before] with the item at [i] moved to [j] and every item
    then numbered by its position. *)
Definition moved_and_renumbered {A : Type} `{Ordered A}
    (before after : list A) (i j : nat) : Prop :=
  length after = length before
  /\ (forall k x, move_item before i j !! k = Some x ->
                  after !! k = Some (with_order k x))
  /\ order_of <$> after = seq 0 (length before).

(** The questions of the subtopic at position [m] of the topic at position
    [n]. *)
Definition questions_at (topics : list Topic) (n m : nat) : option (list Question) :=
  t ← topics !! n; s ← t_subtopics t !! m; Some (s_questions s).

Definition subtopics_at (topics : list Topic) (n : nat) : option (list Subtopic) :=
  t_subtopics <$> topics !! n.

(** The question at position [k] of the subtopic at [m] of the topic at
    [n]. *)
Definition question_at (topics : list Topic) (n m k : nat) : option Question :=
  qs ← questions_at topics n m; qs !! k.

(** The fields of a question that [updateQuestion] never writes. *)
Definition other_fields (q : Question) :=
  (q_id q, q_topic q, q_subtopic q, q_resource q, q_tags q, q_isSolved q,
   q_order q, q_notes q).

(** The tree without the contents of its questions: ids, names, orders, and
    how many questions each subtopic has. *)
Definition outline (topics : list Topic) :=
  (fun t =>
     (t_id t, t_name t, t_order t,
      (fun s => (s_id s, s_name s, s_order s, length (s_questions s)))
        <$> t_subtopics t)) <$> topics.

(** A field counts as present in the partial object when reading it does not
    give [undefined]. *)
Definition present (partial : JsVal) (k : string) : bool :=
  match own partial k with
  | JUndefined => false
  | _ => true
  end.

(** The merge as the specification words it: each of title, difficulty and
    url that is present in the partial object is replaced by its validated
    value. *)
Definition merge_present_fields `{Host} (partial : JsVal) (q : Question)
  : Question :=
  let q1 :=
    if present partial "title"
    then q_with_title (sanitizeString (own partial "title") "") q else q in
  let q2 :=
    if present partial "difficulty"
    then q_with_difficulty (JStr (validateDifficulty (own partial "difficulty"))) q1
    else q1 in
  if present partial "url"
  then q_with_url (validateUrl (own partial "url")) q2 else q2.

(** The bucket of difficulty [d], and the sums over the four canonical
    difficulties. *)
Definition bucket_of (m : gmap string Bucket) (d : string) : Bucket :=
  default (mkBucket 0 0) (m !! d).

Definition sum_bucket_totals (m : gmap string Bucket) : nat :=
  sum_list ((fun d => b_total (bucket_of m d)) <$> DIFFICULTY_LEVELS.values).

Definition sum_bucket_solved (m : gmap string Bucket) : nat :=
  sum_list ((fun d => b_solved (bucket_of m d)) <$> DIFFICULTY_LEVELS.values).

(** The three predicates of the filter, in the words of the specification. *)
Definition is_substring (sub s : string) : Prop :=
  exists pre post : string, s = pre +:+ sub +:+ post.

Definition search_matches `{Host} (searchQuery : string) (q : Question) : Prop :=
  is_substring (trim (toLowerCase searchQuery)) (toLowerCase (q_title q)).

Definition difficulty_matches (filterDifficulty : string) (q : Question) : Prop :=
  filterDifficulty = FILTER_ALL \/ q_difficulty q = JStr filterDifficulty.

Definition status_matches (filterStatus : string) (q : Question) : Prop :=
  filterStatus = FILTER_ALL
  \/ (filterStatus = FILTER_SOLVED /\ q_isSolved q = true)
  \/ (filterStatus = FILTER_UNSOLVED /\ q_isSolved q = false).

Definition status_filters : list string :=
  [FILTER_ALL; FILTER_SOLVED; FILTER_UNSOLVED].

(** The buckets are well formed when each canonical difficulty has one. *)
Definition buckets_ok (m : gmap string Bucket) : Prop :=
  dom m = list_to_set DIFFICULTY_LEVELS.values.

(** What the loops of [calculateDetailedStats] maintain: the buckets add up
    to the overall counts, and so do the finished topics together with the
    topic being counted. *)
Record counts_agree (stats : Stats) (topicStats : TopicStats) : Prop := {
  ca_buckets : buckets_ok (byDifficulty stats);
  ca_bucket_totals : sum_bucket_totals (byDifficulty stats) = stats_total stats;
  ca_bucket_solved : sum_bucket_solved (byDifficulty stats) = stats_solved stats;
  ca_topic_totals :
    sum_list (ts_total <$> byTopic stats) + ts_total topicStats = stats_total stats;
  ca_topic_solved :
    sum_list (ts_solved <$> byTopic stats) + ts_solved topicStats
    = stats_solved stats
}.

(** *** Ingest, in the words of the specification *)

(** The distinct values of a list in the order of their first occurrence. *)
Fixpoint first_seen (l : list string) : list string :=
  match l with
  | [] => []
  | x :: rest => x :: List.filter (fun y => negb (String.eqb y x)) (first_seen rest)
  end.

Section Grouping.
Context `{Host}.
Variable uuid : nat -> string.

Definition topicName_of (q : JsVal) : string :=
  sanitizeString (own q "topic") "General".
Definition subtopicName_of (q : JsVal) : string :=
  sanitizeString (own q "subTopic") "General".

(** Each record with its id: the one it carries, or else the next generated
    one. *)
Fixpoint assign_ids (drawn : nat) (records : list JsVal) : list (JsVal * JsVal) :=
  match records with
  | [] => []
  | q :: rest =>
      if truthy (own q "_id") then (q, own q "_id") :: assign_ids drawn rest
      else (q, JStr (generateId "question" (uuid drawn)))
             :: assign_ids (S drawn) rest
  end.

(** How many records carry no id. *)
Definition count_fresh (records : list JsVal) : nat :=
  length (List.filter (fun q => negb (truthy (own q "_id"))) records).

Definition in_topic (T : string) (e : JsVal * JsVal) : bool :=
  String.eqb (topicName_of e.1) T.
Definition in_subtopic (S : string) (e : JsVal * JsVal) : bool :=
  String.eqb (subtopicName_of e.1) S.

(** The tree of the records grouped by topic name and, within a topic, by
    subtopic name: topics and subtopics in first-seen order and numbered by
    it, the questions of a group in the order of their records and numbered
    by it. *)
Definition grouped (records : list JsVal) : list Topic :=
  let es := assign_ids 0 records in
  imap
    (fun i T =>
       let es_T := List.filter (in_topic T) es in
       mkTopic ("topic-" +:+ pretty i) T i
         (imap
            (fun j S =>
               mkSubtopic
                 ("subtopic-" +:+ ("topic-" +:+ pretty i) +:+ "-" +:+ pretty j)
                 S j
                 (imap (fun k e => new_question e.1 T S e.2 k)
                    (List.filter (in_subtopic S) es_T)))
            (first_seen ((fun e => subtopicName_of e.1) <$> es_T))))
    (first_seen ((fun e => topicName_of e.1) <$> es)).

End Grouping.

(** *** Keyed accumulation

    Both levels of the ingest loop have one shape: look the key up, start
    from a fresh value when it is not there, apply the event, store the
    value back under the key. *)
Section Keyed.
Context {E V : Type}.
Variable key : E -> string.
Variable init : nat -> string -> V.
Variable act : E -> V -> V.

Definition upd (m : list (string * V)) (e : E) : list (string * V) :=
  map_set (key e)
    (act e (default (init (length m) (key e)) (assoc (key e) m))) m.

Definition value_of (es : list E) (i : nat) (k : string) : V :=
  foldl (fun v e => act e v) (init i k)
    (List.filter (fun e => String.eqb (key e) k) es).

Definition grouped_by (es : list E) : list (string * V) :=
  imap (fun i k => (k, value_of es i k)) (first_seen (key <$> es)).

End Keyed.

(** The ingest loop as a keyed accumulation of the records with their ids:
    over topic names, and inside a topic over subtopic names. *)
Section IngestKeyed.
Context `{Host}.

Definition key_T (e : JsVal * JsVal) : string := topicName_of e.1.
Definition key_S (e : JsVal * JsVal) : string := subtopicName_of e.1.

Definition init_T (n : nat) (T : string) : TopicB :=
  mkTopicB ("topic-" +:+ pretty n) T n [].

Definition init_S (topicId : string) (j : nat) (S : string) : Subtopic :=
  mkSubtopic ("subtopic-" +:+ topicId +:+ "-" +:+ pretty j) S j [].

Definition act_S (e : JsVal * JsVal) (s : Subtopic) : Subtopic :=
  s_with_questions
    (s_questions s
       ++ [new_question e.1 (key_T e) (key_S e) e.2 (length (s_questions s))])
    s.

Definition act_T (e : JsVal * JsVal) (topic : TopicB) : TopicB :=
  mkTopicB (tb_id topic) (tb_name topic) (tb_order topic)
    (upd key_S (init_S (tb_id topic)) act_S (tb_subtopics topic) e).

End IngestKeyed.

(** What makes a document acceptable to [transformSheetData]. *)
Definition is_record (v : JsVal) : Prop := exists fields, v = JObj fields.

(** Every sibling sequence of the tree is numbered 0, 1, 2, ... *)
Definition densely_ordered (topics : list Topic) : Prop :=
  t_order <$> topics = seq 0 (length topics)
  /\ Forall
       (fun t =>
          s_order <$> t_subtopics t = seq 0 (length (t_subtopics t))
          /\ Forall
               (fun s => q_order <$> s_questions s = seq 0 (length (s_questions s)))
               (t_subtopics t))
       topics.

(** No two topics share a name, and no two subtopics of a topic do. *)
Definition names_distinct (topics : list Topic) : Prop :=
  NoDup (t_name <$> topics)
  /\ Forall (fun t => NoDup (s_name <$> t_subtopics t)) topics.

(** *** Ids in the tree

    Every id the store puts into the tree is truthy: a topic or subtopic id
    is a generated, non-empty string, and a question id is the truthy [_id]
    of its record or a generated string. *)
Definition question_id_ok (q : Question) : Prop := truthy (q_id q) = true.
Definition subtopic_ids_ok (s : Subtopic) : Prop :=
  s_id s <> "" /\ Forall question_id_ok (s_questions s).
Definition topic_ids_ok (t : Topic) : Prop :=
  t_id t <> "" /\ Forall subtopic_ids_ok (t_subtopics t).
Definition ids_truthy (topics : list Topic) : Prop := Forall topic_ids_ok topics.

(** The states the store can be in: the initial one and those the actions
    lead to. *)
Inductive reachable `{Host} : State -> Prop :=
  | reachable_initial : reachable initial_state
  | reachable_step (a : Action) (st : State) :
      reachable st -> reachable (step a st).

(** *** Counting questions *)

(** The questions of a topic and of a tree, in tree order. *)
Definition topic_questions (t : Topic) : list Question :=
  concat (s_questions <$> t_subtopics t).
Definition all_questions (topics : list Topic) : list Question :=
  concat (topic_questions <$> topics).

Definition solved_count (qs : list Question) : nat :=
  length (List.filter q_isSolved qs).

(** The questions counted in the bucket of difficulty [d]. *)
Definition in_bucket (d : string) (q : Question) : bool :=
  String.eqb (validateDifficulty (q_difficulty q)) d.

(** The subtopic at position [m] of the topic at position [n]. *)
Definition subtopic_at (topics : list Topic) (n m : nat) : option Subtopic :=
  t ← topics !! n; t_subtopics t !! m.

(** The actions that take entities out of the tree. *)
Definition is_delete (a : Action) : bool :=
  match a with
  | DeleteTopic _ | DeleteSubtopic _ _ | DeleteQuestion _ _ _ => true
  | _ => false
  end.

(** The property names every plain object inherits from [Object.prototype]:
    [obj[id]] reads the inherited value, not [undefined], when [id] is one
    of them and [obj] has no key of its own by that name. *)
Definition Object_prototype_keys : list string :=
  ["constructor"; "__defineGetter__"; "__defineSetter__"; "hasOwnProperty";
   "__lookupGetter__"; "__lookupSetter__"; "isPrototypeOf";
   "propertyIsEnumerable"; "toString"; "valueOf"; "__proto__";
   "toLocaleString"].

(** The flag an expansion map holds for an id that is not an inherited
    property name: a missing key reads as [undefined], which is falsy. *)
Definition expanded (m : gmap string bool) (id : string) : bool :=
  default false (m !! id).

(** A rounding for running examples: the exact quotient, rounded half up. *)
#[export] Instance exact_rounding : Rounding :=
  {| round_percent := fun solved total => (200 * solved + total) / (2 * total) |}.

(** The parts of [densely_ordered] for one subtopic and for one topic. *)
Definition questions_dense (s : Subtopic) : Prop :=
  q_order <$> s_questions s = seq 0 (length (s_questions s)).
Definition subtopics_dense (t : Topic) : Prop :=
  s_order <$> t_subtopics t = seq 0 (length (t_subtopics t))
  /\ Forall questions_dense (t_subtopics t).

(** What counting the questions [qs] adds to the running statistics. *)
Definition counted (before after : Stats * TopicStats) (qs : list Question)
  : Prop :=
  buckets_ok (byDifficulty after.1)
  /\ stats_total after.1 = stats_total before.1 + length qs
  /\ stats_solved after.1 = stats_solved before.1 + solved_count qs
  /\ byTopic after.1 = byTopic before.1
  /\ after.2
     = mkTopicStats (ts_name before.2) (ts_total before.2 + length qs)
         (ts_solved before.2 + solved_count qs)
  /\ forall d,
       bucket_of (byDifficulty after.1) d
       = mkBucket
           (b_total (bucket_of (byDifficulty before.1) d)
            + length (List.filter (in_bucket d) qs))
           (b_solved (bucket_of (byDifficulty before.1) d)
            + solved_count (List.filter (in_bucket d) qs)).

(** The row of [byTopic] for one topic. *)
Definition topic_row (t : Topic) : TopicStats :=
  mkTopicStats (t_name t) (length (topic_questions t))
    (solved_count (topic_questions t)).

(** What counting the topics [ts] adds to the statistics. *)
Definition tallied (before after : Stats) (ts : list Topic) : Prop :=
  buckets_ok (byDifficulty after)
  /\ stats_total after = stats_total before + length (all_questions ts)
  /\ stats_solved after = stats_solved before + solved_count (all_questions ts)
  /\ byTopic after = byTopic before ++ (topic_row <$> ts)
  /\ forall d,
       bucket_of (byDifficulty after) d
       = mkBucket
           (b_total (bucket_of (byDifficulty before) d)
            + length (List.filter (in_bucket d) (all_questions ts)))
           (b_solved (bucket_of (byDifficulty before) d)
            + solved_count (List.filter (in_bucket d) (all_questions ts))).

(** No topic of the tree is without subtopics, and no subtopic without
    questions. *)
Definition no_empty_groups (topics : list Topic) : Prop :=
  Forall
    (fun t =>
       t_subtopics t <> []
       /\ Forall (fun s => s_questions s <> []) (t_subtopics t))
    topics.

(** Every question is filed under names it carries itself. *)
Definition filed_under_own_names (topics : list Topic) : Prop :=
  Forall
    (fun t =>
       t_name t <> ""
       /\ Forall
            (fun s =>
               s_name s <> ""
               /\ Forall
                    (fun q =>
                       q_topic q = Some (t_name t)
                       /\ q_subtopic q = Some (s_name s))
                    (s_questions s))
            (t_subtopics t))
    topics.

(** Topic ids differ from each other, and so do the subtopic ids of a
    topic. *)
Definition ids_distinct (topics : list Topic) : Prop :=
  NoDup (t_id <$> topics)
  /\ Forall (fun t => NoDup (s_id <$> t_subtopics t)) topics.

(** Names are never empty and stored difficulties are always one of the
    four levels. *)
Definition question_level_ok (q : Question) : Prop :=
  exists d, d ∈ DIFFICULTY_LEVELS.values /\ q_difficulty q = JStr d.
Definition subtopic_named (s : Subtopic) : Prop :=
  s_name s <> "" /\ Forall question_level_ok (s_questions s).
Definition topic_named (t : Topic) : Prop :=
  t_name t <> "" /\ Forall subtopic_named (t_subtopics t).
Definition named_and_levelled (topics : list Topic) : Prop :=
  Forall topic_named topics.

(** What holds of every state the store can be in. *)
Definition well_formed (st : State) : Prop :=
  ids_truthy (topics st)
  /\ named_and_levelled (topics st)
  /\ filterDifficulty st <> "" /\ filterStatus st <> ""
  /\ (theme st = THEME_DARK \/ theme st = THEME_LIGHT).

(** The solved flags of the tree, in tree order. *)
Definition flags (topics : list Topic) : list bool :=
  q_isSolved <$> all_questions topics.

(** The actions that neither load, nor reset, nor add, nor delete, nor
    toggle a solved flag. *)
Definition progress_neutral (a : Action) : bool :=
  match a with
  | FetchSheetData _ _ | ResetProgress
  | ToggleQuestionSolved _ | ToggleAllInSubtopic _ _ _
  | AddTopic _ _ | AddSubtopic _ _ _ | AddQuestion _ _ _ _
  | DeleteTopic _ | DeleteSubtopic _ _ | DeleteQuestion _ _ _ => false
  | _ => true
  end.

(** ** Example data *)

Module Demo.

Definition question (id title difficulty : string) (solved : bool) (order : nat)
  : Question :=
  {| q_id := JStr id; q_title := title; q_topic := None; q_subtopic := None;
     q_difficulty := JStr difficulty; q_url := ""; q_resource := None;
     q_tags := None; q_isSolved := solved; q_order := order; q_notes := "" |}.

Definition questions : list Question :=
  [ question "q1" "Two Sum" "Easy" false 0;
    question "q2" "Three Sum" "Medium" true 1;
    question "q3" "Trapping Rain Water" "Hard" false 2 ].

Definition subtopics : list Subtopic :=
  [ mkSubtopic "s1" "Basics" 0 questions;
    mkSubtopic "s2" "Two Pointers" 1 [];
    mkSubtopic "s3" "Sliding Window" 2 [] ].

Definition four_topics : list Topic :=
  [ mkTopic "A" "Arrays" 0 subtopics;
    mkTopic "B" "Strings" 1 [];
    mkTopic "C" "Graphs" 2 [];
    mkTopic "D" "Trees" 3 [] ].

Definition state : State :=
  set_expandedSubtopics {[ "s1" := true ]}
    (set_expandedTopics {[ "A" := true ]}
       (set_loading false (set_topics four_topics initial_state))).

(** A partial question whose title and difficulty are the empty string. *)
Definition blank_fields : JsVal :=
  JObj [("title", JStr ""); ("difficulty", JStr "")].

(** A partial question whose url is the empty string. *)
Definition blank_url : JsVal := JObj [("url", JStr "")].

(** A partial question with a title only, padded with spaces. *)
Definition new_title : JsVal := JObj [("title", JStr " 3Sum ")].

(** Four questions: one that matches "two sum" / Easy / unsolved, and three
    that miss by the title, by the difficulty and by the status. *)
Definition filter_fixture : list Question :=
  [ question "f1" "Two Sum" "Easy" false 0;
    question "f2" "Three Sum" "Easy" false 1;
    question "f3" "Two Sum II" "Medium" false 2;
    question "f4" "Two Sum III" "Easy" true 3 ].

(** A document without a questions collection, and one with two records of
    the same topic and subtopic. *)
Definition no_questions : JsVal :=
  JObj [("data", JObj [("sheet", JObj [("name", JStr "DSA Sheet")])])].

Definition record (id title : string) : JsVal :=
  JObj [("_id", JStr id); ("title", JStr title); ("topic", JStr "Arrays");
        ("subTopic", JStr "Basics");
        ("questionId", JObj [("difficulty", JStr "Easy")])].

Definition two_records : JsVal :=
  JObj [("data",
         JObj [("sheet", JObj [("_id", JStr "sheet-1"); ("name", JStr "DSA Sheet")]);
               ("questions", JArr [record "r1" "Two Sum"; record "r2" "3Sum"])])].

End Demo.

(** * Properties *)

#[export] Instance Question_OrderedLaws : OrderedLaws Question.
Proof. split; [done | done | by intros []]. Qed.
#[export] Instance Subtopic_OrderedLaws : OrderedLaws Subtopic.
Proof. split; [done | done | by intros []]. Qed.
#[export] Instance Topic_OrderedLaws : OrderedLaws Topic.
Proof. split; [done | done | by intros []]. Qed.

(** ** The embedding on small inputs *)

Example sanitizeString_trims :
  sanitizeString (H := AsciiHost.host) (JStr "  Arrays ") "General" = "Arrays"
  /\ sanitizeString (H := AsciiHost.host) (JStr "   ") "General" = "General"
  /\ sanitizeString (H := AsciiHost.host) (JNum 7) "General" = "General".
Proof. repeat split. Qed.

Example validateDifficulty_coerces :
  validateDifficulty (JStr "Hard") = "Hard"
  /\ validateDifficulty (JStr "hard") = "Medium"
  /\ validateDifficulty JUndefined = "Medium".
Proof. repeat split. Qed.

Example validateUrl_cases :
  validateUrl (H := AsciiHost.host) (JStr " https://leetcode.com/x ")
  = "https://leetcode.com/x"
  /\ validateUrl (H := AsciiHost.host) (JStr "httpx") = "httpx"
  /\ validateUrl (H := AsciiHost.host) (JStr "two sum") = ""
  /\ validateUrl (H := AsciiHost.host) JNull = "".
Proof. repeat split. Qed.

Example reorderArray_moves_first_to_third :
  reorderArray Demo.four_topics 0%Z 2%Z
  = Some [ mkTopic "B" "Strings" 0 [];
           mkTopic "C" "Graphs" 1 [];
           mkTopic "A" "Arrays" 2 Demo.subtopics;
           mkTopic "D" "Trees" 3 [] ].
Proof. reflexivity. Qed.

Example reorderArray_moves_last_to_first :
  t_id <$> default [] (reorderArray Demo.four_topics 3%Z 0%Z) = ["D"; "A"; "B"; "C"].
Proof. reflexivity. Qed.

Example reorderArray_past_the_end :
  reorderArray Demo.four_topics 4%Z 0%Z = None.
Proof. reflexivity. Qed.

Example calculateDetailedStats_demo :
  let stats :=
    calculateDetailedStats
      [mkTopic "A" "Arrays" 0
         [mkSubtopic "s1" "Basics" 0
            (q_with_difficulty JUndefined
               (Demo.question "q0" "Untitled" "" true 0) :: Demo.questions)];
       mkTopic "B" "Strings" 1 []] in
  stats_total stats = 4 /\ stats_solved stats = 2
  /\ byDifficulty stats !! "Easy" = Some (mkBucket 1 0)
  /\ byDifficulty stats !! "Medium" = Some (mkBucket 2 2)
  /\ byDifficulty stats !! "Hard" = Some (mkBucket 1 0)
  /\ byDifficulty stats !! "Basic" = Some (mkBucket 0 0)
  /\ byTopic stats = [mkTopicStats "Arrays" 4 2; mkTopicStats "Strings" 0 0].
Proof. repeat split. Qed.

(** ** Reordering *)

Section Reorder.
Context {A : Type} `{OrderedLaws A}.

Lemma splice_start_in_range (len : nat) (i : nat) :
  i <= len -> splice_start len (Z.of_nat i) = i.
Proof.
  intros Hi. unfold splice_start.
  destruct (Z.ltb_spec (Z.of_nat i) 0); lia.
Qed.

Lemma move_item_Permutation (l : list A) (i j : nat) : move_item l i j ≡ₚ l.
Proof.
  unfold move_item. destruct (l !! i) as [x|] eqn:Hx; [|done].
  cbn zeta. rewrite <- Permutation_middle, take_drop.
  symmetry. by apply delete_Permutation.
Qed.

Lemma length_move_item (l : list A) (i j : nat) :
  length (move_item l i j) = length l.
Proof. apply Permutation_length, move_item_Permutation. Qed.

Lemma length_renumber (l : list A) : length (renumber l) = length l.
Proof. apply length_imap. Qed.

Lemma order_of_renumber (l : list A) :
  order_of <$> renumber l = seq 0 (length l).
Proof.
  unfold renumber. rewrite fmap_imap.
  rewrite (imap_ext _ (fun n _ => n)).
  - rewrite imap_seq_0. apply list_fmap_id.
  - intros i x _. apply order_of_with_order.
Qed.

Lemma forget_order_renumber (l : list A) :
  forget_order <$> renumber l = forget_order <$> l.
Proof.
  unfold renumber. rewrite fmap_imap, <- imap_const.
  apply imap_ext. intros i x _. apply with_order_with_order.
Qed.

(** Inside the array [reorderArray] is the move followed by the
    renumbering. *)
Lemma reorderArray_in_range (array : list A) (i j : nat) :
  i < length array -> j < length array -> i <> j ->
  reorderArray array (Z.of_nat i) (Z.of_nat j)
  = Some (renumber (move_item array i j)).
Proof.
  intros Hi Hj Hij. unfold reorderArray.
  rewrite !bool_decide_eq_false_2 by lia. cbn [orb].
  unfold splice_out. rewrite splice_start_in_range by lia.
  destruct (lookup_lt_is_Some_2 array i Hi) as [x Hx].
  rewrite Hx. unfold splice_in, move_item. rewrite Hx. cbn zeta.
  rewrite splice_start_in_range; [done|].
  rewrite length_delete by eauto. lia.
Qed.

Lemma reorderArray_same (array : list A) (i : Z) :
  reorderArray array i i = Some array.
Proof.
  unfold reorderArray.
  rewrite (bool_decide_eq_true_2 (i = i)) by done.
  by rewrite !orb_true_r.
Qed.

Lemma reorderArray_absent (array : list A) (i j : Z) :
  i = (-1)%Z \/ j = (-1)%Z -> reorderArray array i j = Some array.
Proof.
  intros [-> | ->]; unfold reorderArray.
  - done.
  - rewrite (bool_decide_eq_true_2 ((-1)%Z = (-1)%Z)) by done.
    by rewrite orb_true_r.
Qed.

End Reorder.

(** [findIndex] against the position of the first match. *)
Lemma findIndex_first {A K : Type} (p : A -> bool) (key : A -> K) (k : K)
    (l : list A) (i : nat) :
  (forall x, p x = true <-> key x = k) ->
  first_at (key <$> l) k i -> findIndex p l = Z.of_nat i.
Proof.
  intros Hp. revert i. induction l as [|x l IH]; intros i [Hi Hn].
  - done.
  - cbn [findIndex]. destruct i as [|i]; cbn in Hi.
    + destruct (p x) eqn:Hpx; [done|].
      assert (p x = true) by (apply Hp; congruence). congruence.
    + destruct (p x) eqn:Hpx.
      * exfalso. apply Hn. cbn. apply elem_of_cons. left. symmetry. by apply Hp.
      * rewrite (IH i).
        -- destruct (Z.eqb_spec (Z.of_nat i) (-1)); lia.
        -- split; [done|]. intros Hin. apply Hn. cbn. apply elem_of_cons. by right.
Qed.

Lemma findIndex_absent {A K : Type} (p : A -> bool) (key : A -> K) (k : K)
    (l : list A) :
  (forall x, p x = true <-> key x = k) ->
  k ∉ key <$> l -> findIndex p l = (-1)%Z.
Proof.
  intros Hp. induction l as [|x l IH]; intros Hn; [done|].
  cbn [findIndex]. destruct (p x) eqn:Hpx.
  - exfalso. apply Hn. cbn. apply elem_of_cons. left. symmetry. by apply Hp.
  - rewrite IH; [done|]. intros Hin. apply Hn. cbn. apply elem_of_cons. by right.
Qed.

Lemma findIndex_range {A : Type} (p : A -> bool) (l : list A) :
  findIndex p l = (-1)%Z
  \/ exists i, findIndex p l = Z.of_nat i /\ i < length l.
Proof.
  induction l as [|x l IH]; [by left|].
  cbn [findIndex]. destruct (p x).
  - right. exists 0. cbn. split; [done|lia].
  - destruct IH as [-> | (i & -> & Hi)]; [by left|].
    right. exists (S i). destruct (Z.eqb_spec (Z.of_nat i) (-1)); cbn; split; lia.
Qed.

Lemma first_at_lt {K : Type} (keys : list K) (k : K) (i : nat) :
  first_at keys k i -> i < length keys.
Proof. intros [Hi _]. by eapply lookup_lt_Some. Qed.

Lemma first_at_ne {K : Type} (keys : list K) (k k' : K) (i j : nat) :
  first_at keys k i -> first_at keys k' j -> k <> k' -> i <> j.
Proof. intros [Hi _] [Hj _] Hk ->. congruence. Qed.

Lemma eqb_key (a b : string) : String.eqb a b = true <-> a = b.
Proof. apply String.eqb_eq. Qed.

Lemma is_str_key (v : JsVal) (a : string) : is_str v a = true <-> v = JStr a.
Proof.
  destruct v; cbn; try (split; [discriminate | intros [=]]).
  rewrite String.eqb_eq. split; [by intros -> | by intros [= ->]].
Qed.

(** [reorderArray] on the indices the three actions compute. *)
Lemma reorderArray_found {A K : Type} `{OrderedLaws A}
    (p p' : A -> bool) (key : A -> K) (k k' : K) (l : list A) (i j : nat) :
  (forall x, p x = true <-> key x = k) ->
  (forall x, p' x = true <-> key x = k') ->
  first_at (key <$> l) k i -> first_at (key <$> l) k' j -> k <> k' ->
  findIndex p l = Z.of_nat i /\ findIndex p' l = Z.of_nat j
  /\ reorderArray l (findIndex p l) (findIndex p' l)
     = Some (renumber (move_item l i j)).
Proof.
  intros Hp Hp' Hi Hj Hk.
  rewrite (findIndex_first p key k l i), (findIndex_first p' key k' l j) by done.
  split; [done|]. split; [done|].
  apply reorderArray_in_range.
  - apply first_at_lt in Hi. by rewrite length_fmap in Hi.
  - apply first_at_lt in Hj. by rewrite length_fmap in Hj.
  - by eapply first_at_ne.
Qed.

Lemma renumber_moved {A : Type} `{OrderedLaws A} (l : list A) (i j : nat) :
  moved_and_renumbered l (renumber (move_item l i j)) i j.
Proof.
  split; [|split].
  - by rewrite length_renumber, length_move_item.
  - intros k x Hk. unfold renumber. by rewrite list_lookup_imap, Hk.
  - by rewrite order_of_renumber, length_move_item.
Qed.

Lemma missing_false (id : string) : id <> "" -> missing id = false.
Proof. intros Hid. unfold missing. by apply String.eqb_neq. Qed.

Lemma reorderTopics_found (st : State) (activeId overId : string) (i j : nat) :
  activeId <> "" -> overId <> "" -> activeId <> overId ->
  first_at (t_id <$> topics st) activeId i ->
  first_at (t_id <$> topics st) overId j ->
  topics (reorderTopics activeId overId st)
  = renumber (move_item (topics st) i j).
Proof.
  intros Ha Ho Hne Hi Hj. unfold reorderTopics.
  rewrite !missing_false by done. apply String.eqb_neq in Hne as Hne'.
  rewrite Hne'. cbn [orb].
  destruct (reorderArray_found
              (fun t => String.eqb (t_id t) activeId)
              (fun t => String.eqb (t_id t) overId)
              t_id activeId overId (topics st) i j) as (-> & -> & ->);
    try done; try (intros x; apply eqb_key).
  destruct (Z.eqb_spec (Z.of_nat i) (-1)); [lia|].
  destruct (Z.eqb_spec (Z.of_nat j) (-1)); [lia|]. done.
Qed.

Lemma reorderSubtopics_group (t : Topic) (activeId overId : string) (i j : nat) :
  activeId <> overId ->
  first_at (s_id <$> t_subtopics t) activeId i ->
  first_at (s_id <$> t_subtopics t) overId j ->
  (let oldIndex :=
     findIndex (fun s => String.eqb (s_id s) activeId) (t_subtopics t) in
   let newIndex :=
     findIndex (fun s => String.eqb (s_id s) overId) (t_subtopics t) in
   if (oldIndex =? -1)%Z || (newIndex =? -1)%Z then t
   else
     match reorderArray (t_subtopics t) oldIndex newIndex with
     | Some reordered => t_with_subtopics reordered t
     | None => t
     end)
  = t_with_subtopics (renumber (move_item (t_subtopics t) i j)) t.
Proof.
  intros Hne Hi Hj. cbn zeta.
  destruct (reorderArray_found
              (fun s => String.eqb (s_id s) activeId)
              (fun s => String.eqb (s_id s) overId)
              s_id activeId overId (t_subtopics t) i j) as (-> & -> & ->);
    try done; try (intros x; apply eqb_key).
  destruct (Z.eqb_spec (Z.of_nat i) (-1)); [lia|].
  destruct (Z.eqb_spec (Z.of_nat j) (-1)); [lia|]. done.
Qed.

Lemma reorderSubtopics_found (st : State) (topicId activeId overId : string)
    (n : nat) (t : Topic) (i j : nat) :
  topicId <> "" -> activeId <> "" -> overId <> "" -> activeId <> overId ->
  topics st !! n = Some t -> t_id t = topicId ->
  first_at (s_id <$> t_subtopics t) activeId i ->
  first_at (s_id <$> t_subtopics t) overId j ->
  subtopics_at (topics (reorderSubtopics topicId activeId overId st)) n
  = Some (renumber (move_item (t_subtopics t) i j)).
Proof.
  intros Ht Ha Ho Hne Hn Hid Hi Hj. unfold reorderSubtopics, subtopics_at.
  rewrite !missing_false by done. apply String.eqb_neq in Hne as Hne'.
  rewrite Hne'. cbn [orb topics set_topics].
  rewrite list_lookup_fmap, Hn. cbn [fmap option_fmap option_map].
  rewrite (proj2 (String.eqb_eq _ _) Hid). cbn [negb].
  pose proof (reorderSubtopics_group t activeId overId i j Hne Hi Hj) as E.
  cbn zeta in E. subst topicId. by rewrite E.
Qed.

Lemma reorderQuestions_group (s : Subtopic) (activeId overId : string) (i j : nat) :
  activeId <> overId ->
  first_at (q_id <$> s_questions s) (JStr activeId) i ->
  first_at (q_id <$> s_questions s) (JStr overId) j ->
  (let oldIndex :=
     findIndex (fun q => is_str (q_id q) activeId) (s_questions s) in
   let newIndex :=
     findIndex (fun q => is_str (q_id q) overId) (s_questions s) in
   if (oldIndex =? -1)%Z || (newIndex =? -1)%Z then s
   else
     match reorderArray (s_questions s) oldIndex newIndex with
     | Some reordered => s_with_questions reordered s
     | None => s
     end)
  = s_with_questions (renumber (move_item (s_questions s) i j)) s.
Proof.
  intros Hne Hi Hj. cbn zeta.
  destruct (reorderArray_found
              (fun q => is_str (q_id q) activeId)
              (fun q => is_str (q_id q) overId)
              q_id (JStr activeId) (JStr overId) (s_questions s) i j)
    as (-> & -> & ->);
    try done; try (intros x; apply is_str_key); try congruence.
  destruct (Z.eqb_spec (Z.of_nat i) (-1)); [lia|].
  destruct (Z.eqb_spec (Z.of_nat j) (-1)); [lia|]. done.
Qed.

Lemma reorderQuestions_found (st : State)
    (topicId subtopicId activeId overId : string)
    (n m : nat) (t : Topic) (s : Subtopic) (i j : nat) :
  topicId <> "" -> subtopicId <> "" -> activeId <> "" -> overId <> "" ->
  activeId <> overId ->
  topics st !! n = Some t -> t_id t = topicId ->
  t_subtopics t !! m = Some s -> s_id s = subtopicId ->
  first_at (q_id <$> s_questions s) (JStr activeId) i ->
  first_at (q_id <$> s_questions s) (JStr overId) j ->
  questions_at (topics (reorderQuestions topicId subtopicId activeId overId st)) n m
  = Some (renumber (move_item (s_questions s) i j)).
Proof.
  intros Ht Hs Ha Ho Hne Hn Hid Hm Hsid Hi Hj.
  unfold reorderQuestions, questions_at.
  rewrite !missing_false by done. apply String.eqb_neq in Hne as Hne'.
  rewrite Hne'. cbn [orb topics set_topics].
  rewrite list_lookup_fmap, Hn. cbn [fmap option_fmap option_map mbind option_bind].
  rewrite (proj2 (String.eqb_eq _ _) Hid). cbn [negb t_with_subtopics t_subtopics].
  rewrite list_lookup_fmap, Hm. cbn [fmap option_fmap option_map mbind option_bind].
  rewrite (proj2 (String.eqb_eq _ _) Hsid). cbn [negb].
  pose proof (reorderQuestions_group s activeId overId i j Hne Hi Hj) as E.
  cbn zeta in E. subst topicId subtopicId. by rewrite E.
Qed.

Lemma first_at_elem {K : Type} (keys : list K) (k : K) (i : nat) :
  first_at keys k i -> k ∈ keys.
Proof. intros [Hi _]. by eapply list_elem_of_lookup_2. Qed.

Lemma topic_id_present_nonempty (ts : list Topic) (a : string) :
  ids_truthy ts -> a ∈ t_id <$> ts -> a <> "".
Proof.
  intros Hts Ha. apply list_elem_of_fmap in Ha as (t & -> & Ht).
  unfold ids_truthy in Hts. rewrite Forall_forall in Hts. by apply Hts.
Qed.

Lemma subtopic_id_present_nonempty (t : Topic) (a : string) :
  topic_ids_ok t -> a ∈ s_id <$> t_subtopics t -> a <> "".
Proof.
  intros [_ Hss] Ha. apply list_elem_of_fmap in Ha as (s & -> & Hs).
  rewrite Forall_forall in Hss. by apply Hss.
Qed.

Lemma question_id_present_nonempty (s : Subtopic) (a : string) :
  subtopic_ids_ok s -> JStr a ∈ q_id <$> s_questions s -> a <> "".
Proof.
  intros [_ Hqs] Ha. apply list_elem_of_fmap in Ha as (q & E & Hq).
  rewrite Forall_forall in Hqs. specialize (Hqs q Hq).
  unfold question_id_ok in Hqs. rewrite <- E in Hqs. by intros ->.
Qed.

Lemma topic_in_tree (ts : list Topic) (n : nat) (t : Topic) :
  ids_truthy ts -> ts !! n = Some t -> topic_ids_ok t.
Proof. intros Hts Hn. by eapply Forall_lookup_1. Qed.

Lemma subtopic_in_tree (t : Topic) (m : nat) (s : Subtopic) :
  topic_ids_ok t -> t_subtopics t !! m = Some s -> subtopic_ids_ok s.
Proof. intros [_ Hss] Hm. by eapply Forall_lookup_1. Qed.

(** C1. In a tree of the store (every id in it truthy, as in every
    reachable state, see [reachable_ids_truthy]), with two distinct ids
    present in a sibling sequence (the topics, the subtopics of the addressed
    topic, the questions of the addressed subtopic), [reorderTopics],
    [reorderSubtopics] and [reorderQuestions] take the item at the position
    of the first id out, put it back in at the position of the second id, and
    give every item of the result its position as [order], so that the
    orders are 0..n-1.  On four topics A, B, C, D moving A to the place of C
    gives B, C, A, D with orders 0, 1, 2, 3. *)
Theorem reorder_moves_one_item_and_renumbers (st : State) :
  ids_truthy (topics st) ->
  (forall (activeId overId : string) (i j : nat),
      activeId <> overId ->
      first_at (t_id <$> topics st) activeId i ->
      first_at (t_id <$> topics st) overId j ->
      moved_and_renumbered (topics st)
        (topics (reorderTopics activeId overId st)) i j)
  /\ (forall (activeId overId : string) (n : nat) (t : Topic) (i j : nat),
         activeId <> overId ->
         topics st !! n = Some t ->
         first_at (s_id <$> t_subtopics t) activeId i ->
         first_at (s_id <$> t_subtopics t) overId j ->
         exists after,
           subtopics_at (topics (reorderSubtopics (t_id t) activeId overId st)) n
           = Some after
           /\ moved_and_renumbered (t_subtopics t) after i j)
  /\ (forall (activeId overId : string)
             (n m : nat) (t : Topic) (s : Subtopic) (i j : nat),
         activeId <> overId ->
         topics st !! n = Some t -> t_subtopics t !! m = Some s ->
         first_at (q_id <$> s_questions s) (JStr activeId) i ->
         first_at (q_id <$> s_questions s) (JStr overId) j ->
         exists after,
           questions_at
             (topics (reorderQuestions (t_id t) (s_id s) activeId overId st)) n m
           = Some after
           /\ moved_and_renumbered (s_questions s) after i j)
  /\ (forall tA tB tC tD : Topic,
         topics st = [tA; tB; tC; tD] ->
         NoDup [t_id tA; t_id tB; t_id tC; t_id tD] ->
         topics (reorderTopics (t_id tA) (t_id tC) st)
         = [with_order 0 tB; with_order 1 tC; with_order 2 tA; with_order 3 tD]).
Proof.
  intros Hst. split; [|split; [|split]].
  - intros a o i j Hne Hi Hj.
    rewrite (reorderTopics_found st a o i j); try done.
    + apply renumber_moved.
    + eapply topic_id_present_nonempty; [done|]. by eapply first_at_elem.
    + eapply topic_id_present_nonempty; [done|]. by eapply first_at_elem.
  - intros a o n t i j Hne Hn Hi Hj.
    pose proof (topic_in_tree _ _ _ Hst Hn) as Ht.
    eexists. split; [|apply renumber_moved].
    eapply reorderSubtopics_found; try done.
    + apply Ht.
    + eapply subtopic_id_present_nonempty; [done|]. by eapply first_at_elem.
    + eapply subtopic_id_present_nonempty; [done|]. by eapply first_at_elem.
  - intros a o n m t s i j Hne Hn Hm Hi Hj.
    pose proof (topic_in_tree _ _ _ Hst Hn) as Ht.
    pose proof (subtopic_in_tree _ _ _ Ht Hm) as Hs.
    eexists. split; [|apply renumber_moved].
    eapply reorderQuestions_found; try done.
    + apply Ht.
    + apply Hs.
    + eapply question_id_present_nonempty; [done|]. by eapply first_at_elem.
    + eapply question_id_present_nonempty; [done|]. by eapply first_at_elem.
  - intros tA tB tC tD Hts Hnd.
    assert (t_id tA <> "" /\ t_id tC <> "") as [Ha Hc].
    { unfold ids_truthy in Hst. rewrite Hts in Hst.
      apply Forall_cons in Hst as [[Ha _] Hst].
      apply Forall_cons in Hst as [_ Hst].
      by apply Forall_cons in Hst as [[Hc _] _]. }
    rewrite (reorderTopics_found st (t_id tA) (t_id tC) 0 2); try done.
    + by rewrite Hts.
    + intros E. rewrite E in Hnd. apply NoDup_cons in Hnd as [Hin _].
      apply Hin. rewrite !elem_of_cons. tauto.
    + rewrite Hts. split; [done|]. cbn. apply not_elem_of_nil.
    + rewrite Hts. split; [done|]. cbn. intros Hin.
      apply NoDup_cons in Hnd as [Ha' Hnd]. apply NoDup_cons in Hnd as [Hb' _].
      rewrite !elem_of_cons in Hin, Ha', Hb'.
      rewrite elem_of_nil in Hin. destruct Hin as [E|[E|[]]]; intuition congruence.
Qed.

Lemma reorder_moves_one_item_and_renumbers_witness :
  topics (reorderTopics "A" "C" Demo.state)
  = [ mkTopic "B" "Strings" 0 [];
      mkTopic "C" "Graphs" 1 [];
      mkTopic "A" "Arrays" 2 Demo.subtopics;
      mkTopic "D" "Trees" 3 [] ].
Proof.
  apply (proj2 (proj2 (proj2
           (reorder_moves_one_item_and_renumbers Demo.state
              ltac:(repeat constructor; discriminate))))
           (mkTopic "A" "Arrays" 0 Demo.subtopics) (mkTopic "B" "Strings" 1 [])
           (mkTopic "C" "Graphs" 2 []) (mkTopic "D" "Trees" 3 [])).
  - reflexivity.
  - apply (bool_decide_unpack _). vm_compute. exact I.
Defined.

(** *** No-op cases *)

Lemma reorderTopics_noop (st : State) (activeId overId : string) :
  activeId = overId \/ activeId ∉ t_id <$> topics st
  \/ overId ∉ t_id <$> topics st ->
  reorderTopics activeId overId st = st.
Proof.
  intros Hc. unfold reorderTopics.
  destruct (missing activeId); [done|]. destruct (missing overId); [done|].
  destruct (String.eqb_spec activeId overId) as [|Hne]; [done|]. cbn [orb].
  destruct Hc as [Hc | [Hc | Hc]]; [done | |].
  - rewrite (findIndex_absent _ t_id activeId); [done | intros x; apply eqb_key | done].
  - rewrite (findIndex_absent (fun t => String.eqb (t_id t) overId) t_id overId
              (topics st));
      [by rewrite Z.eqb_refl; cbn [negb]; rewrite andb_false_r | intros x; apply eqb_key | done].
Qed.

Lemma reorderSubtopics_noop (st : State) (topicId activeId overId : string)
    (n : nat) (t : Topic) :
  topics st !! n = Some t ->
  activeId = overId \/ activeId ∉ s_id <$> t_subtopics t
  \/ overId ∉ s_id <$> t_subtopics t ->
  topics (reorderSubtopics topicId activeId overId st) !! n = Some t.
Proof.
  intros Hn Hc. unfold reorderSubtopics.
  destruct (missing topicId); [done|]. destruct (missing activeId); [done|].
  destruct (missing overId); [done|].
  destruct (String.eqb_spec activeId overId) as [|Hne]; [done|].
  cbn [orb topics set_topics]. rewrite list_lookup_fmap, Hn. cbn. f_equal.
  destruct (String.eqb (t_id t) topicId); [|done]. cbn [negb].
  destruct Hc as [Hc | [Hc | Hc]]; [done | |].
  - by rewrite (findIndex_absent _ s_id activeId); [| intros x; apply eqb_key | done].
  - rewrite (findIndex_absent (fun s => String.eqb (s_id s) overId) s_id overId
              (t_subtopics t));
      [by rewrite Z.eqb_refl, orb_true_r | intros x; apply eqb_key | done].
Qed.

Lemma reorderQuestions_noop (st : State)
    (topicId subtopicId activeId overId : string)
    (n m : nat) (t : Topic) (s : Subtopic) :
  topics st !! n = Some t -> t_subtopics t !! m = Some s ->
  activeId = overId \/ JStr activeId ∉ q_id <$> s_questions s
  \/ JStr overId ∉ q_id <$> s_questions s ->
  (t' ← topics (reorderQuestions topicId subtopicId activeId overId st) !! n;
   t_subtopics t' !! m) = Some s.
Proof.
  intros Hn Hm Hc. unfold reorderQuestions.
  destruct (missing topicId); [by cbn; rewrite Hn|].
  destruct (missing subtopicId); [by cbn; rewrite Hn|].
  destruct (missing activeId); [by cbn; rewrite Hn|].
  destruct (missing overId); [by cbn; rewrite Hn|].
  destruct (String.eqb_spec activeId overId) as [|Hne]; [by cbn; rewrite Hn|].
  cbn [orb topics set_topics]. rewrite list_lookup_fmap, Hn.
  cbn [fmap option_fmap option_map mbind option_bind].
  destruct (String.eqb (t_id t) topicId); [|done].
  cbn [negb t_with_subtopics t_subtopics]. rewrite list_lookup_fmap, Hm.
  cbn [fmap option_fmap option_map]. f_equal.
  destruct (String.eqb (s_id s) subtopicId); [|done]. cbn [negb].
  destruct Hc as [Hc | [Hc | Hc]]; [done | |].
  - by rewrite (findIndex_absent _ q_id (JStr activeId));
      [| intros x; apply is_str_key | done].
  - rewrite (findIndex_absent (fun q => is_str (q_id q) overId) q_id (JStr overId)
              (s_questions s));
      [by rewrite Z.eqb_refl, orb_true_r | intros x; apply is_str_key | done].
Qed.

(** C7. A reorder is a no-op when the moved id is the target id or when
    either id is not in the sibling sequence: the sequence comes back as it
    was, [order] fields included.  For [reorderArray] itself this is the case
    of equal indices or of an index -1. *)
Theorem reorder_is_noop_on_equal_or_absent_ids :
  (forall (A : Type) (OA : Ordered A) (array : list A) (oldIndex newIndex : Z),
      oldIndex = newIndex \/ oldIndex = (-1)%Z \/ newIndex = (-1)%Z ->
      reorderArray array oldIndex newIndex = Some array)
  /\ (forall (st : State) (activeId overId : string),
         activeId = overId \/ activeId ∉ t_id <$> topics st
         \/ overId ∉ t_id <$> topics st ->
         reorderTopics activeId overId st = st)
  /\ (forall (st : State) (topicId activeId overId : string) (n : nat) (t : Topic),
         topics st !! n = Some t ->
         activeId = overId \/ activeId ∉ s_id <$> t_subtopics t
         \/ overId ∉ s_id <$> t_subtopics t ->
         topics (reorderSubtopics topicId activeId overId st) !! n = Some t)
  /\ (forall (st : State) (topicId subtopicId activeId overId : string)
             (n m : nat) (t : Topic) (s : Subtopic),
         topics st !! n = Some t -> t_subtopics t !! m = Some s ->
         activeId = overId \/ JStr activeId ∉ q_id <$> s_questions s
         \/ JStr overId ∉ q_id <$> s_questions s ->
         (t' ← topics (reorderQuestions topicId subtopicId activeId overId st) !! n;
          t_subtopics t' !! m) = Some s).
Proof.
  split; [|split; [|split]].
  - intros A OA array i j [-> | Hc].
    + unfold reorderArray. rewrite (bool_decide_eq_true_2 (j = j)) by done.
      by rewrite !orb_true_r.
    + unfold reorderArray. destruct Hc as [-> | ->]; [done|].
      rewrite (bool_decide_eq_true_2 ((-1)%Z = (-1)%Z)) by done.
      by rewrite orb_true_r.
  - apply reorderTopics_noop.
  - apply reorderSubtopics_noop.
  - apply reorderQuestions_noop.
Qed.

Lemma reorder_is_noop_witness :
  reorderTopics "B" "B" Demo.state = Demo.state
  /\ reorderTopics "B" "Z" Demo.state = Demo.state
  /\ topics (reorderSubtopics "A" "s9" "s1" Demo.state) !! 0
     = Some (mkTopic "A" "Arrays" 0 Demo.subtopics).
Proof.
  split; [|split].
  - apply (proj1 (proj2 reorder_is_noop_on_equal_or_absent_ids)). by left.
  - apply (proj1 (proj2 reorder_is_noop_on_equal_or_absent_ids)).
    right. right. apply (bool_decide_unpack _). vm_compute. exact I.
  - apply (proj1 (proj2 (proj2 reorder_is_noop_on_equal_or_absent_ids))).
    + reflexivity.
    + right. left. apply (bool_decide_unpack _). vm_compute. exact I.
Defined.

(** *** Reordering permutes *)

Lemma reorderArray_findIndex {A : Type} `{OrderedLaws A}
    (p p' : A -> bool) (l : list A) :
  exists i j,
    reorderArray l (findIndex p l) (findIndex p' l) = Some l
    \/ (reorderArray l (findIndex p l) (findIndex p' l)
        = Some (renumber (move_item l i j))).
Proof.
  destruct (findIndex_range p l) as [-> | (i & -> & Hi)].
  { exists 0, 0. left. apply reorderArray_absent. by left. }
  destruct (findIndex_range p' l) as [-> | (j & -> & Hj)].
  { exists 0, 0. left. apply reorderArray_absent. by right. }
  exists i, j. destruct (decide (i = j)) as [->|Hne].
  - left. apply reorderArray_same.
  - right. by apply reorderArray_in_range.
Qed.

Lemma forget_moved {A : Type} `{OrderedLaws A} (l : list A) (i j : nat) :
  forget_order <$> renumber (move_item l i j) ≡ₚ forget_order <$> l.
Proof. rewrite forget_order_renumber. apply fmap_Permutation, move_item_Permutation. Qed.

Lemma reorderTopics_Permutation (st : State) (activeId overId : string) :
  forget_order <$> topics (reorderTopics activeId overId st)
  ≡ₚ forget_order <$> topics st.
Proof.
  unfold reorderTopics.
  destruct (_ || _ || _); [done|].
  destruct (_ && _); [|done].
  destruct (reorderArray_findIndex
              (fun t => String.eqb (t_id t) activeId)
              (fun t => String.eqb (t_id t) overId) (topics st))
    as (i & j & [-> | ->]); [done|].
  apply forget_moved.
Qed.

Lemma reorderSubtopics_Permutation (st : State) (topicId activeId overId : string)
    (n : nat) :
  option_Forall2
    (fun after before => forget_order <$> after ≡ₚ forget_order <$> before)
    (subtopics_at (topics (reorderSubtopics topicId activeId overId st)) n)
    (subtopics_at (topics st) n).
Proof.
  assert (Hrefl : option_Forall2
    (fun after before : list Subtopic =>
       forget_order <$> after ≡ₚ forget_order <$> before)
    (subtopics_at (topics st) n) (subtopics_at (topics st) n)).
  { destruct (subtopics_at (topics st) n); by constructor. }
  unfold reorderSubtopics.
  destruct (_ || _ || _ || _); [done|]. clear Hrefl.
  unfold subtopics_at. cbn [topics set_topics]. rewrite list_lookup_fmap.
  destruct (topics st !! n) as [t|]; cbn; [|constructor]. constructor.
  destruct (negb _); [done|].
  destruct (_ || _); [done|].
  destruct (reorderArray_findIndex
              (fun s => String.eqb (s_id s) activeId)
              (fun s => String.eqb (s_id s) overId) (t_subtopics t))
    as (i & j & [-> | ->]); [done|].
  apply forget_moved.
Qed.

Lemma reorderQuestions_Permutation (st : State)
    (topicId subtopicId activeId overId : string) (n m : nat) :
  option_Forall2
    (fun after before => forget_order <$> after ≡ₚ forget_order <$> before)
    (questions_at (topics (reorderQuestions topicId subtopicId activeId overId st)) n m)
    (questions_at (topics st) n m).
Proof.
  assert (Hrefl : option_Forall2
    (fun after before : list Question =>
       forget_order <$> after ≡ₚ forget_order <$> before)
    (questions_at (topics st) n m) (questions_at (topics st) n m)).
  { destruct (questions_at (topics st) n m); by constructor. }
  unfold reorderQuestions.
  destruct (_ || _ || _ || _ || _); [done|]. clear Hrefl.
  unfold questions_at. cbn [topics set_topics]. rewrite list_lookup_fmap.
  destruct (topics st !! n) as [t|]; cbn; [|constructor].
  destruct (negb (String.eqb (t_id t) topicId)).
  { destruct (t_subtopics t !! m); cbn; by constructor. }
  cbn. rewrite list_lookup_fmap.
  destruct (t_subtopics t !! m) as [s|]; cbn; [|constructor]. constructor.
  destruct (negb _); [done|].
  destruct (_ || _); [done|].
  destruct (reorderArray_findIndex
              (fun q => is_str (q_id q) activeId)
              (fun q => is_str (q_id q) overId) (s_questions s))
    as (i & j & [-> | ->]); [done|].
  apply forget_moved.
Qed.

(** C10. For indices inside the array, [reorderArray] returns a list of the
    same length which, once the [order] fields are blanked out, is a
    permutation of the input: every item of the input occurs in it as often
    as before and differs at most in [order].  The same holds for the
    sibling sequences the three reorder actions leave behind, whatever their
    arguments. *)
Theorem reorderArray_is_a_permutation :
  (forall (A : Type) (OA : Ordered A) (LA : OrderedLaws A)
          (array : list A) (oldIndex newIndex : Z),
      (0 <= oldIndex < Z.of_nat (length array))%Z ->
      (0 <= newIndex < Z.of_nat (length array))%Z ->
      exists result moved,
        reorderArray array oldIndex newIndex = Some result
        /\ length result = length array
        /\ moved ≡ₚ array
        /\ Forall2 (fun r x => exists k, r = with_order k x) result moved
        /\ forget_order <$> result ≡ₚ forget_order <$> array)
  /\ (forall (st : State) (activeId overId : string),
         forget_order <$> topics (reorderTopics activeId overId st)
         ≡ₚ forget_order <$> topics st)
  /\ (forall (st : State) (topicId activeId overId : string) (n : nat),
         option_Forall2
           (fun after before => forget_order <$> after ≡ₚ forget_order <$> before)
           (subtopics_at (topics (reorderSubtopics topicId activeId overId st)) n)
           (subtopics_at (topics st) n))
  /\ (forall (st : State) (topicId subtopicId activeId overId : string) (n m : nat),
         option_Forall2
           (fun after before => forget_order <$> after ≡ₚ forget_order <$> before)
           (questions_at
              (topics (reorderQuestions topicId subtopicId activeId overId st)) n m)
           (questions_at (topics st) n m)).
Proof.
  split; [|split; [|split]].
  - intros A OA LA array o n Ho Hn.
    rewrite <- (Z2Nat.id o), <- (Z2Nat.id n) by lia.
    destruct (decide (Z.to_nat o = Z.to_nat n)) as [->|Hne].
    + exists array, array. rewrite reorderArray_same.
      repeat split; try done.
      apply Forall2_same_length_lookup. split; [done|].
      intros i x y Hx Hy. exists (order_of x).
      assert (y = x) as -> by congruence. by rewrite with_order_order_of.
    + exists (renumber (move_item array (Z.to_nat o) (Z.to_nat n))),
        (move_item array (Z.to_nat o) (Z.to_nat n)).
      rewrite reorderArray_in_range by lia.
      split; [done|]. split; [by rewrite length_renumber, length_move_item|].
      split; [apply move_item_Permutation|]. split; [|apply forget_moved].
      apply Forall2_same_length_lookup. split; [apply length_renumber|].
      intros i x y Hx Hy. exists i. unfold renumber in Hx.
      rewrite list_lookup_imap, Hy in Hx. cbn in Hx. congruence.
  - apply reorderTopics_Permutation.
  - apply reorderSubtopics_Permutation.
  - apply reorderQuestions_Permutation.
Qed.

Lemma reorderArray_is_a_permutation_witness :
  exists result moved,
    reorderArray Demo.questions 2%Z 0%Z = Some result
    /\ length result = 3
    /\ moved ≡ₚ Demo.questions
    /\ Forall2 (fun r x => exists k, r = with_order k x) result moved
    /\ forget_order <$> result ≡ₚ forget_order <$> Demo.questions.
Proof.
  apply (proj1 reorderArray_is_a_permutation Question _ _ Demo.questions 2%Z 0%Z).
  - cbn. lia.
  - cbn. lia.
Defined.


(** ** The sheet is only replaced by loading and resetting *)

Ltac split_guards :=
  repeat match goal with
         | |- context [if ?c then _ else _] => destruct c
         | |- context [match ?c with Some _ => _ | None => _ end] => destruct c
         end.

Lemma sheet_kept `{Host} (a : Action) (st : State) :
  replaces_sheet a = false -> sheet (step a st) = sheet st.
Proof.
  destruct a; cbn [replaces_sheet step]; intros Hr; try discriminate;
    unfold toggleTopicExpansion, toggleSubtopicExpansion, expandAllTopics,
      collapseAllTopics, setSearchQuery, setFilterDifficulty, setFilterStatus,
      toggleTheme, toggleStats, toggleQuestionSolved, toggleAllInSubtopic,
      updateQuestionNotes, addTopic, updateTopic, deleteTopic, addSubtopic,
      updateSubtopic, deleteSubtopic, addQuestion, updateQuestion,
      deleteQuestion, reorderTopics, reorderSubtopics, reorderQuestions;
    cbn zeta; split_guards; reflexivity.
Qed.

Lemma tree_mutator_keeps (a : Action) :
  tree_mutator a = true -> replaces_sheet a = false.
Proof. by destruct a. Qed.

(** The smallest document [transformSheetData] accepts. *)
Lemma transform_empty_document `{Host} (uuid : nat -> string) :
  transformSheetData uuid
    (JObj [("data", JObj [("sheet", JObj []); ("questions", JArr [])])])
  = inr (new_sheet uuid (JObj []) 0, []).
Proof. reflexivity. Qed.

(** C9. No tree mutator ([addTopic], [updateTopic], [deleteTopic],
    [addSubtopic], [updateSubtopic], [deleteSubtopic], [addQuestion],
    [updateQuestion], [deleteQuestion], [toggleQuestionSolved],
    [toggleAllInSubtopic], [updateQuestionNotes] and the three reorder
    actions) changes the [sheet] field of the state, nor does any other
    action except [fetchSheetData] and [resetProgress], which both can. *)
Theorem only_fetch_and_reset_replace_sheet `{Host} :
  (forall (a : Action) (st : State),
      tree_mutator a = true -> sheet (step a st) = sheet st)
  /\ (forall (a : Action) (st : State),
         replaces_sheet a = false -> sheet (step a st) = sheet st)
  /\ (forall a : Action,
         replaces_sheet a = true <->
         (exists uuid sheetData, a = FetchSheetData uuid sheetData)
         \/ a = ResetProgress)
  /\ (exists (uuid : nat -> string) (sheetData : JsVal) (st : State),
         sheet (step (FetchSheetData uuid sheetData) st) <> sheet st)
  /\ (exists st : State, sheet (step ResetProgress st) <> sheet st).
Proof.
  split; [|split; [|split; [|split]]].
  - intros a st Ha. by apply sheet_kept, tree_mutator_keeps.
  - apply sheet_kept.
  - intros a. split.
    + destruct a; cbn; intros Hr; try discriminate; [left; eauto | by right].
    + by intros [(uuid & sheetData & ->) | ->].
  - exists (fun _ => ""),
      (JObj [("data", JObj [("sheet", JObj []); ("questions", JArr [])])]),
      initial_state.
    cbn [step]. unfold fetchSheetData. rewrite transform_empty_document. done.
  - exists (set_sheet (Some (mkSheet JNull "" "" "" 0 "" "" [])) initial_state).
    done.
Qed.

Lemma only_fetch_and_reset_replace_sheet_witness :
  sheet (step (H := AsciiHost.host)
           (UpdateQuestion "A" "s1" "q1" (JObj [("title", JStr "3Sum")]))
           Demo.state)
  = sheet Demo.state.
Proof.
  apply (proj1 (only_fetch_and_reset_replace_sheet (H := AsciiHost.host))).
  reflexivity.
Defined.

(** ** Deleting and the expansion maps *)

Lemma deleteTopic_prunes_own_key (st : State) (topicId : string) :
  topicId <> "" ->
  expandedTopics (deleteTopic topicId st) !! topicId = None
  /\ topicId ∉ t_id <$> topics (deleteTopic topicId st).
Proof.
  intros Hid. unfold deleteTopic. rewrite missing_false by done.
  cbn [expandedTopics topics set_expandedTopics set_topics]. split.
  - apply lookup_delete_eq.
  - intros Hin. apply list_elem_of_fmap in Hin as (t & -> & Hin).
    apply list_elem_of_In, filter_In in Hin as [_ Hin].
    by rewrite String.eqb_refl in Hin.
Qed.

Lemma deleteSubtopic_prunes_own_key (st : State) (topicId subtopicId : string) :
  topicId <> "" -> subtopicId <> "" ->
  expandedSubtopics (deleteSubtopic topicId subtopicId st) !! subtopicId = None
  /\ forall t, t ∈ topics (deleteSubtopic topicId subtopicId st) ->
               t_id t = topicId -> subtopicId ∉ s_id <$> t_subtopics t.
Proof.
  intros Ht Hs. unfold deleteSubtopic. rewrite !missing_false by done.
  cbn [orb expandedSubtopics topics set_expandedSubtopics set_topics]. split.
  - apply lookup_delete_eq.
  - intros t' Hin Hid. apply list_elem_of_fmap in Hin as (t & -> & Hin).
    destruct (String.eqb_spec (t_id t) topicId) as [E|E]; cbn [negb] in *.
    + cbn. intros Hin'. apply list_elem_of_fmap in Hin' as (s & -> & Hin').
      apply list_elem_of_In, filter_In in Hin' as [_ Hin'].
      by rewrite String.eqb_refl in Hin'.
    + done.
Qed.

(** C8, at a state where it fails.  Topic A holds subtopic s1, which is
    expanded.  [deleteTopic] removes A, and s1 with it, and removes the key A
    from [expandedTopics]; the key s1 stays in [expandedSubtopics]. *)
Theorem deleteTopic_leaves_cascaded_subtopic_keys :
  let st := Demo.state in
  let st' := deleteTopic "A" st in
  (exists t, t ∈ topics st /\ t_id t = "A" /\ "s1" ∈ s_id <$> t_subtopics t)
  /\ expandedSubtopics st !! "s1" = Some true
  /\ ("A" ∉ (t_id <$> topics st'))
  /\ (forall t, t ∈ topics st' -> "s1" ∉ (s_id <$> t_subtopics t))
  /\ expandedTopics st' !! "A" = None
  /\ expandedSubtopics st' !! "s1" = Some true.
Proof.
  cbn zeta. split; [|split; [|split; [|split; [|split]]]].
  - exists (mkTopic "A" "Arrays" 0 Demo.subtopics).
    split; [apply list_elem_of_here|].
    split; [done|]. apply (bool_decide_unpack _). by vm_compute.
  - by vm_compute.
  - apply (bool_decide_unpack _). by vm_compute.
  - intros t Ht. change (topics (deleteTopic "A" Demo.state))
      with [mkTopic "B" "Strings" 1 []; mkTopic "C" "Graphs" 2 [];
            mkTopic "D" "Trees" 3 []] in Ht.
    rewrite !elem_of_cons, elem_of_nil in Ht.
    destruct Ht as [-> | [-> | [-> | []]]]; cbn; apply not_elem_of_nil.
  - by vm_compute.
  - by vm_compute.
Qed.


(** ** Updating a question *)

Lemma merge_question_fields `{Host} (questionData : JsVal) (q : Question) :
  q_title (merge_question questionData q)
  = (if truthy (own questionData "title")
     then sanitizeString (own questionData "title") "" else q_title q)
  /\ q_difficulty (merge_question questionData q)
     = (if truthy (own questionData "difficulty")
        then JStr (validateDifficulty (own questionData "difficulty"))
        else q_difficulty q)
  /\ q_url (merge_question questionData q)
     = (if present questionData "url"
        then validateUrl (own questionData "url") else q_url q)
  /\ other_fields (merge_question questionData q) = other_fields q.
Proof.
  unfold merge_question, present.
  destruct (truthy (own questionData "title")),
    (truthy (own questionData "difficulty")), (own questionData "url"); done.
Qed.

Lemma merge_question_falsy `{Host} (questionData : JsVal) (q : Question) :
  truthy questionData = false -> merge_question questionData q = q.
Proof. destruct questionData as [| |[]| | | |]; try done; by destruct q. Qed.

Lemma updateQuestion_at `{Host} (st : State)
    (topicId subtopicId questionId : string) (questionData : JsVal)
    (n m k : nat) (t : Topic) (s : Subtopic) (q : Question) :
  ids_truthy (topics st) ->
  topics st !! n = Some t -> t_subtopics t !! m = Some s ->
  s_questions s !! k = Some q ->
  question_at
    (topics (updateQuestion topicId subtopicId questionId questionData st)) n m k
  = Some (if String.eqb (t_id t) topicId && String.eqb (s_id s) subtopicId
             && is_str (q_id q) questionId
          then merge_question questionData q else q).
Proof.
  intros Hst Hn Hm Hk.
  pose proof (topic_in_tree _ _ _ Hst Hn) as Ht.
  pose proof (subtopic_in_tree _ _ _ Ht Hm) as Hs.
  assert (question_id_ok q) as Hq by (destruct Hs as [_ Hqs]; by eapply Forall_lookup_1).
  assert (question_at (topics st) n m k = Some q) as Hsame.
  { unfold question_at, questions_at. rewrite Hn. cbn. rewrite Hm. by cbn. }
  unfold updateQuestion, missing.
  destruct (String.eqb_spec topicId "") as [->|_].
  { rewrite (proj2 (String.eqb_neq (t_id t) "")) by apply Ht. exact Hsame. }
  destruct (String.eqb_spec subtopicId "") as [->|_].
  { rewrite (proj2 (String.eqb_neq (s_id s) "")) by apply Hs.
    by rewrite andb_false_r. }
  destruct (String.eqb_spec questionId "") as [->|_].
  { assert (is_str (q_id q) "" = false) as ->.
    { destruct (is_str (q_id q) "") eqn:E; [|done]. apply is_str_key in E.
      unfold question_id_ok in Hq. by rewrite E in Hq. }
    by rewrite andb_false_r. }
  cbn [orb]. unfold question_at, questions_at.
  destruct (truthy questionData) eqn:Hd; cbn [negb].
  - cbn [topics set_topics]. rewrite list_lookup_fmap, Hn. cbn.
    destruct (String.eqb (t_id t) topicId); cbn.
    + rewrite list_lookup_fmap, Hm. cbn.
      destruct (String.eqb (s_id s) subtopicId); cbn.
      * rewrite list_lookup_fmap, Hk. cbn. by destruct (is_str (q_id q) questionId).
      * done.
    + by rewrite Hm.
  - rewrite Hn. cbn. rewrite Hm. cbn. rewrite Hk.
    rewrite merge_question_falsy by done. by destruct (_ && _ && _).
Qed.

Lemma fmap_fixed {A : Type} (f : A -> A) (l : list A) :
  (forall i x, l !! i = Some x -> f x = x) -> f <$> l = l.
Proof.
  intros Hf. apply list_eq. intros i. rewrite list_lookup_fmap.
  destruct (l !! i) as [x|] eqn:Hx; [|done]. cbn. f_equal. eauto.
Qed.

Lemma updateQuestion_outline `{Host} (st : State)
    (topicId subtopicId questionId : string) (questionData : JsVal) :
  outline (topics (updateQuestion topicId subtopicId questionId questionData st))
  = outline (topics st).
Proof.
  unfold updateQuestion. destruct (_ || _ || _ || _); [done|].
  cbn [topics set_topics]. unfold outline. rewrite <- list_fmap_compose.
  apply list_fmap_ext. intros _ t _. cbn.
  destruct (negb (String.eqb (t_id t) topicId)); [done|]. cbn. f_equal.
  rewrite <- list_fmap_compose. apply list_fmap_ext. intros _ s _. cbn.
  destruct (negb (String.eqb (s_id s) subtopicId)); [done|]. cbn.
  by rewrite length_fmap.
Qed.

Lemma updateQuestion_not_found `{Host} (st : State)
    (topicId subtopicId questionId : string) (questionData : JsVal) :
  (forall n m k t s q,
      topics st !! n = Some t -> t_subtopics t !! m = Some s ->
      s_questions s !! k = Some q ->
      ~ (t_id t = topicId /\ s_id s = subtopicId /\ q_id q = JStr questionId)) ->
  updateQuestion topicId subtopicId questionId questionData st = st.
Proof.
  intros Hnot. unfold updateQuestion. destruct (_ || _ || _ || _); [done|].
  assert (forall x : State, topics x = topics st -> set_topics (topics x) st = st)
    as Hset by (intros x ->; by destruct st).
  etrans; [|apply (Hset st eq_refl)]. f_equal.
  apply fmap_fixed. intros n t Hn.
  destruct (String.eqb_spec (t_id t) topicId) as [Et|]; [|done]. cbn [negb].
  transitivity (t_with_subtopics (t_subtopics t) t); [|by destruct t]. f_equal.
  apply fmap_fixed. intros m s Hm.
  destruct (String.eqb_spec (s_id s) subtopicId) as [Es|]; [|done]. cbn [negb].
  transitivity (s_with_questions (s_questions s) s); [|by destruct s]. f_equal.
  apply fmap_fixed. intros k q Hk.
  destruct (is_str (q_id q) questionId) eqn:Eq; [|done]. exfalso.
  apply (Hnot n m k t s q Hn Hm Hk). by apply is_str_key in Eq.
Qed.

(** C4, as the code has it.  In a tree of the store (every id in it
    truthy), [updateQuestion] replaces, in every question it addresses, the
    title by its sanitized value when the given title is truthy, the
    difficulty by its canonical value when the given difficulty is truthy,
    and the url by its validated value when the given url is not
    [undefined]; every other field of such a question, every field not so
    replaced, every other question and the outline of the tree stay as they
    were, and so does the whole state when no question is addressed. *)
Theorem updateQuestion_merges_truthy_fields `{Host} (st : State)
    (topicId subtopicId questionId : string) (questionData : JsVal) :
  ids_truthy (topics st) ->
  let st' := updateQuestion topicId subtopicId questionId questionData st in
  (forall n m k t s q,
      topics st !! n = Some t -> t_subtopics t !! m = Some s ->
      s_questions s !! k = Some q ->
      exists q',
        question_at (topics st') n m k = Some q'
        /\ (t_id t = topicId /\ s_id s = subtopicId /\ q_id q = JStr questionId ->
            q_title q'
            = (if truthy (own questionData "title")
               then sanitizeString (own questionData "title") "" else q_title q)
            /\ q_difficulty q'
               = (if truthy (own questionData "difficulty")
                  then JStr (validateDifficulty (own questionData "difficulty"))
                  else q_difficulty q)
            /\ q_url q'
               = (if present questionData "url"
                  then validateUrl (own questionData "url") else q_url q)
            /\ other_fields q' = other_fields q)
        /\ (~ (t_id t = topicId /\ s_id s = subtopicId /\ q_id q = JStr questionId)
            -> q' = q))
  /\ outline (topics st') = outline (topics st)
  /\ st' = set_topics (topics st') st
  /\ ((forall n m k t s q,
          topics st !! n = Some t -> t_subtopics t !! m = Some s ->
          s_questions s !! k = Some q ->
          ~ (t_id t = topicId /\ s_id s = subtopicId /\ q_id q = JStr questionId))
      -> st' = st).
Proof.
  intros Hst. cbn zeta. split; [|split; [|split]].
  - intros n m k t s q Hn Hm Hk. eexists. split; [by apply updateQuestion_at|].
    split.
    + intros (Et & Es & Eq).
      rewrite (proj2 (String.eqb_eq _ _) Et), (proj2 (String.eqb_eq _ _) Es),
        (proj2 (is_str_key _ _) Eq). cbn [andb].
      apply merge_question_fields.
    + intros Hnot.
      destruct (String.eqb_spec (t_id t) topicId); [|done].
      destruct (String.eqb_spec (s_id s) subtopicId); [|done].
      destruct (is_str (q_id q) questionId) eqn:Eq; [|done].
      exfalso. apply Hnot. by apply is_str_key in Eq.
  - apply updateQuestion_outline.
  - unfold updateQuestion. destruct (_ || _ || _ || _); [by destruct st|done].
  - apply updateQuestion_not_found.
Qed.

Lemma updateQuestion_merges_truthy_fields_witness :
  question_at
    (topics (updateQuestion (H := AsciiHost.host) "A" "s1" "q1"
               Demo.new_title Demo.state)) 0 0 0
  = Some (Demo.question "q1" "3Sum" "Easy" false 0)
  /\ outline
       (topics (updateQuestion (H := AsciiHost.host) "A" "s1" "q1"
                  Demo.new_title Demo.state))
     = outline (topics Demo.state).
Proof.
  split; [reflexivity|].
  exact (proj1 (proj2
    (updateQuestion_merges_truthy_fields (H := AsciiHost.host)
       Demo.state "A" "s1" "q1" Demo.new_title
       ltac:(repeat constructor; discriminate)))).
Defined.

(** C4 as stated fails: a title and a difficulty that are present but empty
    are not merged.  The question keeps its title and its difficulty, where
    the merge of the present fields would blank the one and reset the
    other.  An empty url, falsy as well, is merged all the same: the three
    fields do not share one test. *)
Lemma updateQuestion_skips_empty_title_and_difficulty :
  present Demo.blank_fields "title" = true
  /\ present Demo.blank_fields "difficulty" = true
  /\ question_at (topics Demo.state) 0 0 0
     = Some (Demo.question "q1" "Two Sum" "Easy" false 0)
  /\ question_at
       (topics (updateQuestion (H := AsciiHost.host) "A" "s1" "q1"
                  Demo.blank_fields Demo.state)) 0 0 0
     = Some (Demo.question "q1" "Two Sum" "Easy" false 0)
  /\ merge_present_fields (H := AsciiHost.host) Demo.blank_fields
       (Demo.question "q1" "Two Sum" "Easy" false 0)
     = Demo.question "q1" "" "Medium" false 0
  /\ question_at
       (topics (updateQuestion (H := AsciiHost.host) "A" "s1" "q1"
                  Demo.blank_fields Demo.state)) 0 0 0
     <> merge_present_fields (H := AsciiHost.host) Demo.blank_fields
          <$> question_at (topics Demo.state) 0 0 0
  /\ truthy (own Demo.blank_url "url") = false
  /\ q_url (merge_question (H := AsciiHost.host) Demo.blank_url
              (q_with_url "https://leetcode.com/problems/two-sum"
                 (Demo.question "q1" "Two Sum" "Easy" false 0)))
     = "".
Proof. repeat split; try reflexivity. discriminate. Qed.

(** ** Statistics *)

Lemma validateDifficulty_canonical (v : JsVal) :
  validateDifficulty v ∈ DIFFICULTY_LEVELS.values.
Proof.
  unfold validateDifficulty. destruct v; try (apply (bool_decide_unpack _); by vm_compute).
  destruct (str_in s DIFFICULTY_LEVELS.values) eqn:Hs.
  - unfold str_in in Hs. apply existsb_exists in Hs as (d & Hd & E).
    apply String.eqb_eq in E as ->. by apply list_elem_of_In.
  - apply (bool_decide_unpack _). by vm_compute.
Qed.

Lemma buckets_ok_lookup (m : gmap string Bucket) (d : string) :
  buckets_ok m -> d ∈ DIFFICULTY_LEVELS.values -> is_Some (m !! d).
Proof.
  intros Hm Hd. apply elem_of_dom. rewrite Hm. by apply elem_of_list_to_set.
Qed.

Ltac four_cases Hd :=
  unfold DIFFICULTY_LEVELS.values in Hd;
  rewrite !elem_of_cons, elem_of_nil in Hd;
  destruct Hd as [-> | [-> | [-> | [-> | []]]]].

Lemma bump_total_sums (m : gmap string Bucket) (d : string) :
  buckets_ok m -> d ∈ DIFFICULTY_LEVELS.values ->
  buckets_ok (bump_total d m)
  /\ sum_bucket_totals (bump_total d m) = S (sum_bucket_totals m)
  /\ sum_bucket_solved (bump_total d m) = sum_bucket_solved m.
Proof.
  intros Hm Hd. destruct (buckets_ok_lookup m d Hm Hd) as [b Hb].
  unfold bump_total. rewrite Hb. split.
  - unfold buckets_ok in *. rewrite dom_insert_L, <- Hm.
    apply elem_of_dom_2 in Hb. apply subseteq_union_1_L.
    by apply singleton_subseteq_l.
  - unfold sum_bucket_totals, sum_bucket_solved, bucket_of,
      DIFFICULTY_LEVELS.values.
    cbn [fmap list_fmap sum_list sum_list_with].
    four_cases Hd;
      rewrite ?lookup_insert_eq, ?lookup_insert_ne by done;
      rewrite Hb; cbn; lia.
Qed.

Lemma bump_solved_sums (m : gmap string Bucket) (d : string) :
  buckets_ok m -> d ∈ DIFFICULTY_LEVELS.values ->
  buckets_ok (bump_solved d m)
  /\ sum_bucket_totals (bump_solved d m) = sum_bucket_totals m
  /\ sum_bucket_solved (bump_solved d m) = S (sum_bucket_solved m).
Proof.
  intros Hm Hd. destruct (buckets_ok_lookup m d Hm Hd) as [b Hb].
  unfold bump_solved. rewrite Hb. split.
  - unfold buckets_ok in *. rewrite dom_insert_L, <- Hm.
    apply elem_of_dom_2 in Hb. apply subseteq_union_1_L.
    by apply singleton_subseteq_l.
  - unfold sum_bucket_totals, sum_bucket_solved, bucket_of,
      DIFFICULTY_LEVELS.values.
    cbn [fmap list_fmap sum_list sum_list_with].
    four_cases Hd;
      rewrite ?lookup_insert_eq, ?lookup_insert_ne by done;
      rewrite Hb; cbn; lia.
Qed.

Lemma count_question_agree (stats : Stats) (topicStats : TopicStats) (q : Question) :
  counts_agree stats topicStats ->
  counts_agree (count_question (stats, topicStats) q).1
    (count_question (stats, topicStats) q).2.
Proof.
  intros [Hb Ht Hs Htt Hts]. unfold count_question.
  pose proof (validateDifficulty_canonical (q_difficulty q)) as Hd.
  destruct (bump_total_sums _ _ Hb Hd) as (Hb1 & Ht1 & Hs1).
  destruct (q_isSolved q).
  - destruct (bump_solved_sums _ _ Hb1 Hd) as (Hb2 & Ht2 & Hs2).
    split; cbn [fst snd stats_total stats_solved byDifficulty byTopic
                  ts_total ts_solved]; [done | lia | lia | lia | lia].
  - split; cbn [fst snd stats_total stats_solved byDifficulty byTopic
                  ts_total ts_solved]; [done | lia | lia | lia | lia].
Qed.

Lemma count_subtopic_agree (stats : Stats) (topicStats : TopicStats) (s : Subtopic) :
  counts_agree stats topicStats ->
  counts_agree (count_subtopic (stats, topicStats) s).1
    (count_subtopic (stats, topicStats) s).2.
Proof.
  unfold count_subtopic. generalize (s_questions s) as qs.
  intros qs. revert stats topicStats.
  induction qs as [|q qs IH]; intros stats topicStats Hc; [done|].
  cbn [foldl]. destruct (count_question (stats, topicStats) q) as [st1 ts1] eqn:E.
  apply IH. pose proof (count_question_agree stats topicStats q Hc) as Hq.
  by rewrite E in Hq.
Qed.

Lemma count_subtopics_agree (stats : Stats) (topicStats : TopicStats)
    (ss : list Subtopic) :
  counts_agree stats topicStats ->
  counts_agree (foldl count_subtopic (stats, topicStats) ss).1
    (foldl count_subtopic (stats, topicStats) ss).2.
Proof.
  revert stats topicStats.
  induction ss as [|s ss IH]; intros stats topicStats Hc; [done|].
  cbn [foldl]. destruct (count_subtopic (stats, topicStats) s) as [st1 ts1] eqn:E.
  apply IH. pose proof (count_subtopic_agree stats topicStats s Hc) as Hs.
  by rewrite E in Hs.
Qed.

Lemma count_topic_agree (stats : Stats) (t : Topic) :
  counts_agree stats (mkTopicStats "" 0 0) ->
  counts_agree (count_topic stats t) (mkTopicStats "" 0 0).
Proof.
  intros [Hb Ht Hs Htt Hts]. unfold count_topic.
  pose proof (count_subtopics_agree stats (mkTopicStats (t_name t) 0 0)
                (t_subtopics t)) as Hc.
  destruct (foldl count_subtopic _ _) as [st1 ts1].
  destruct Hc as [Hb1 Ht1 Hs1 Htt1 Hts1]; [by split|]. cbn in *.
  split; cbn; try done.
  - rewrite fmap_app, sum_list_with_app. cbn. lia.
  - rewrite fmap_app, sum_list_with_app. cbn. lia.
Qed.

Lemma calculateDetailedStats_agree (topics : list Topic) :
  counts_agree (calculateDetailedStats topics) (mkTopicStats "" 0 0).
Proof.
  unfold calculateDetailedStats.
  assert (counts_agree empty_stats (mkTopicStats "" 0 0)) as H0.
  { by split. }
  revert H0. generalize empty_stats as stats. induction topics as [|t ts IH];
    intros stats Hc; [done|].
  cbn [foldl]. by apply IH, count_topic_agree.
Qed.

(** C5. For every list of topics, whatever the difficulty values of its
    questions, the statistics of [calculateDetailedStats] have buckets for
    exactly the four canonical difficulties, the [total]s of these buckets
    add up to the overall [total], the [total]s of the [byTopic] entries add
    up to it too, and the same holds for [solved]. *)
Theorem calculateDetailedStats_sums_agree (topics : list Topic) :
  let stats := calculateDetailedStats topics in
  dom (byDifficulty stats) = list_to_set DIFFICULTY_LEVELS.values
  /\ sum_bucket_totals (byDifficulty stats) = stats_total stats
  /\ sum_list (ts_total <$> byTopic stats) = stats_total stats
  /\ sum_bucket_solved (byDifficulty stats) = stats_solved stats
  /\ sum_list (ts_solved <$> byTopic stats) = stats_solved stats.
Proof.
  cbn zeta. destruct (calculateDetailedStats_agree topics) as [Hb Ht Hs Htt Hts].
  cbn in Htt, Hts. repeat split; [done | done | lia | done | lia].
Qed.


(** ** Filtering *)

Lemma append_cons (c : ascii) (a b : string) :
  String c a +:+ b = String c (a +:+ b).
Proof. reflexivity. Qed.

Lemma prefix_spec (sub s : string) :
  String.prefix sub s = true <-> exists post, s = sub +:+ post.
Proof.
  revert s. induction sub as [|c sub IH]; intros [|c' s]; cbn.
  - split; [intros _; by exists "" | done].
  - split; [intros _; by exists (String c' s) | done].
  - split; [done | by intros (post & ?)].
  - destruct (Ascii.ascii_dec c c') as [->|Hne].
    + rewrite IH. split; intros (post & E); exists post.
      * by rewrite append_cons, E.
      * rewrite append_cons in E. congruence.
    + split; [done | intros (post & E)]. rewrite append_cons in E. congruence.
Qed.

Lemma includes_spec (s sub : string) :
  includes s sub = true <-> is_substring sub s.
Proof.
  unfold is_substring. induction s as [|c s IH]; cbn [includes].
  - rewrite orb_false_r, prefix_spec. split.
    + intros (post & E). by exists "", post.
    + intros (pre & post & E). destruct pre; [by exists post|].
      by rewrite append_cons in E.
  - rewrite orb_true_iff, prefix_spec, IH. split.
    + intros [(post & E) | (pre & post & E)].
      * by exists "", post.
      * exists (String c pre), post. by rewrite append_cons, E.
    + intros (pre & post & E). destruct pre as [|c' pre].
      * left. by exists post.
      * right. exists pre, post. rewrite append_cons in E. congruence.
Qed.

Lemma includes_empty (s : string) : includes s "" = true.
Proof. apply includes_spec. by exists "", s. Qed.

Lemma filter_sublist {A : Type} (p : A -> bool) (l : list A) :
  sublist (List.filter p l) l.
Proof.
  induction l as [|x l IH]; cbn; [constructor|].
  destruct (p x); by constructor.
Qed.

Lemma kept_spec `{Host} (searchQuery filterDifficulty filterStatus : string)
    (q : Question) :
  filterDifficulty <> "" -> filterStatus ∈ status_filters ->
  kept searchQuery filterDifficulty filterStatus q = true
  <-> search_matches searchQuery q
      /\ difficulty_matches filterDifficulty q
      /\ status_matches filterStatus q.
Proof.
  intros Hfd Hfs. unfold kept, search_matches, difficulty_matches, status_matches.
  cbn zeta. rewrite <- includes_spec.
  apply String.eqb_neq in Hfd. rewrite Hfd. cbn [negb andb].
  destruct (String.eqb_spec (trim (toLowerCase searchQuery)) "") as [->|_];
    cbn [negb andb].
  - rewrite includes_empty.
    destruct (String.eqb_spec filterDifficulty FILTER_ALL) as [->|Hd]; cbn [negb andb].
    + unfold status_filters in Hfs. rewrite !elem_of_cons, elem_of_nil in Hfs.
      destruct Hfs as [-> | [-> | [-> | []]]]; cbn; destruct (q_isSolved q); cbn;
        intuition (try discriminate; auto).
    + destruct (is_str (q_difficulty q) filterDifficulty) eqn:Ed; cbn [negb].
      * apply is_str_key in Ed.
        unfold status_filters in Hfs. rewrite !elem_of_cons, elem_of_nil in Hfs.
        destruct Hfs as [-> | [-> | [-> | []]]]; cbn; destruct (q_isSolved q); cbn;
          intuition (try discriminate; auto).
      * assert (q_difficulty q <> JStr filterDifficulty) as Hq.
        { intros Hq. apply is_str_key in Hq. congruence. }
        intuition (try discriminate; auto).
  - destruct (includes (toLowerCase (q_title q)) (trim (toLowerCase searchQuery)));
      cbn [negb]; [|intuition discriminate].
    destruct (String.eqb_spec filterDifficulty FILTER_ALL) as [->|Hd]; cbn [negb andb].
    + unfold status_filters in Hfs. rewrite !elem_of_cons, elem_of_nil in Hfs.
      destruct Hfs as [-> | [-> | [-> | []]]]; cbn; destruct (q_isSolved q); cbn;
        intuition (try discriminate; auto).
    + destruct (is_str (q_difficulty q) filterDifficulty) eqn:Ed; cbn [negb].
      * apply is_str_key in Ed.
        unfold status_filters in Hfs. rewrite !elem_of_cons, elem_of_nil in Hfs.
        destruct Hfs as [-> | [-> | [-> | []]]]; cbn; destruct (q_isSolved q); cbn;
          intuition (try discriminate; auto).
      * assert (q_difficulty q <> JStr filterDifficulty) as Hq.
        { intros Hq. apply is_str_key in Hq. congruence. }
        intuition (try discriminate; auto).
Qed.

(** C6. For a non-empty difficulty filter and a status filter among all,
    solved and unsolved, [filterQuestions] keeps, in their order, exactly the
    questions for which the trimmed lower-cased search string is a substring
    of the lower-cased title, the difficulty filter is "all" or is the
    question's difficulty, and the status filter is "all", or "solved" with
    the question solved, or "unsolved" with it unsolved.  A search string
    that trims to nothing excludes no question.  The result is a sublist of
    the input: the questions in it are those of the input, as they were. *)
Theorem filterQuestions_keeps_exactly_the_matches `{Host}
    (questions : list Question)
    (searchQuery filterDifficulty filterStatus : string) :
  filterDifficulty <> "" -> filterStatus ∈ status_filters ->
  (exists keep : Question -> bool,
      (forall q, keep q = true
                 <-> search_matches searchQuery q
                     /\ difficulty_matches filterDifficulty q
                     /\ status_matches filterStatus q)
      /\ filterQuestions questions searchQuery filterDifficulty filterStatus
         = List.filter keep questions)
  /\ (forall q,
         q ∈ filterQuestions questions searchQuery filterDifficulty filterStatus
         <-> q ∈ questions
             /\ search_matches searchQuery q
             /\ difficulty_matches filterDifficulty q
             /\ status_matches filterStatus q)
  /\ (trim (toLowerCase searchQuery) = "" ->
      forall q, search_matches searchQuery q)
  /\ sublist
       (filterQuestions questions searchQuery filterDifficulty filterStatus)
       questions.
Proof.
  intros Hfd Hfs. split; [|split; [|split]].
  - exists (kept searchQuery filterDifficulty filterStatus).
    split; [intros q; by apply kept_spec | done].
  - intros q. unfold filterQuestions.
    rewrite list_elem_of_In, filter_In, <- list_elem_of_In.
    by rewrite kept_spec.
  - intros E q. unfold search_matches. rewrite E. by exists "", (toLowerCase (q_title q)).
  - apply filter_sublist.
Qed.

Lemma filterQuestions_keeps_exactly_the_matches_witness :
  filterQuestions (H := AsciiHost.host) Demo.filter_fixture
    " Two SUM" "Easy" "unsolved"
  = [Demo.question "f1" "Two Sum" "Easy" false 0]
  /\ sublist
       (filterQuestions (H := AsciiHost.host) Demo.filter_fixture
          " Two SUM" "Easy" "unsolved")
       Demo.filter_fixture.
Proof.
  split; [reflexivity|].
  apply (filterQuestions_keeps_exactly_the_matches (H := AsciiHost.host)
           Demo.filter_fixture " Two SUM" "Easy" "unsolved").
  - discriminate.
  - apply list_elem_of_In. cbn. tauto.
Defined.


(** ** Ingest *)

Lemma elem_of_bfilter {A : Type} (p : A -> bool) (l : list A) (x : A) :
  x ∈ List.filter p l <-> x ∈ l /\ p x = true.
Proof. by rewrite !list_elem_of_In, filter_In. Qed.

Lemma bfilter_none {A : Type} (p : A -> bool) (l : list A) :
  (forall x, x ∈ l -> p x = false) -> List.filter p l = [].
Proof.
  induction l as [|x l IH]; intros Hp; [done|]. cbn.
  rewrite (Hp x) by apply list_elem_of_here.
  apply IH. intros y Hy. apply Hp. by apply list_elem_of_further.
Qed.

Lemma first_seen_elem (l : list string) (k : string) :
  k ∈ first_seen l <-> k ∈ l.
Proof.
  induction l as [|x l IH]; cbn [first_seen]; [done|].
  rewrite !elem_of_cons, elem_of_bfilter, IH, negb_true_iff, String.eqb_neq.
  destruct (decide (k = x)); tauto.
Qed.

Lemma first_seen_NoDup (l : list string) : NoDup (first_seen l).
Proof.
  induction l as [|x l IH]; cbn [first_seen]; [constructor|].
  apply NoDup_cons. split.
  - rewrite elem_of_bfilter, String.eqb_refl. by intros [_ ?].
  - apply NoDup_ListNoDup, List.NoDup_filter. by apply NoDup_ListNoDup.
Qed.

Lemma first_seen_snoc (l : list string) (x : string) :
  first_seen (l ++ [x])
  = if bool_decide (x ∈ l) then first_seen l else first_seen l ++ [x].
Proof.
  induction l as [|y l IH]; [done|].
  cbn [app first_seen]. rewrite IH.
  destruct (decide (x = y)) as [->|Hne].
  - rewrite (bool_decide_eq_true_2 (y ∈ y :: l)) by apply list_elem_of_here.
    case_bool_decide; [done|].
    by rewrite List.filter_app; cbn; rewrite String.eqb_refl; cbn; rewrite app_nil_r.
  - case_bool_decide as Hin.
    + by rewrite bool_decide_eq_true_2 by by apply list_elem_of_further.
    + rewrite bool_decide_eq_false_2 by (rewrite elem_of_cons; tauto).
      rewrite List.filter_app. cbn.
      by rewrite (proj2 (String.eqb_neq x y) Hne).
Qed.

Section AssocFacts.
Context {V : Type}.
Implicit Types (m : list (string * V)) (k : string) (v : V).

Lemma assoc_absent m k : k ∉ m.*1 -> assoc k m = None.
Proof.
  induction m as [|[k' v'] m IH]; [done|]. cbn. rewrite not_elem_of_cons.
  intros [Hne Hin]. by rewrite (proj2 (String.eqb_neq k k') Hne), IH.
Qed.

Lemma map_set_absent m k v : k ∉ m.*1 -> map_set k v m = m ++ [(k, v)].
Proof.
  induction m as [|[k' v'] m IH]; [done|]. cbn. rewrite not_elem_of_cons.
  intros [Hne Hin]. by rewrite (proj2 (String.eqb_neq k k') Hne), IH.
Qed.

Lemma assoc_present m1 m2 k v :
  k ∉ m1.*1 -> assoc k (m1 ++ (k, v) :: m2) = Some v.
Proof.
  induction m1 as [|[k' v'] m1 IH]; cbn.
  - by rewrite String.eqb_refl.
  - rewrite not_elem_of_cons. intros [Hne Hin].
    by rewrite (proj2 (String.eqb_neq k k') Hne), IH.
Qed.

Lemma map_set_present m1 m2 k v v' :
  k ∉ m1.*1 -> map_set k v' (m1 ++ (k, v) :: m2) = m1 ++ (k, v') :: m2.
Proof.
  induction m1 as [|[k0 v0] m1 IH]; cbn.
  - by rewrite String.eqb_refl.
  - rewrite not_elem_of_cons. intros [Hne Hin].
    by rewrite (proj2 (String.eqb_neq k k0) Hne), IH.
Qed.

End AssocFacts.

Section KeyedFacts.
Context {E V : Type}.
Variable key : E -> string.
Variable init : nat -> string -> V.
Variable act : E -> V -> V.

Lemma value_of_snoc_ne (es : list E) (e : E) (i : nat) (k : string) :
  key e <> k -> value_of key init act (es ++ [e]) i k = value_of key init act es i k.
Proof.
  intros Hne. unfold value_of. rewrite List.filter_app. cbn.
  by rewrite (proj2 (String.eqb_neq _ _) Hne), app_nil_r.
Qed.

Lemma value_of_snoc_eq (es : list E) (e : E) (i : nat) :
  value_of key init act (es ++ [e]) i (key e)
  = act e (value_of key init act es i (key e)).
Proof.
  unfold value_of. rewrite List.filter_app. cbn.
  by rewrite String.eqb_refl, foldl_app.
Qed.

Lemma value_of_absent (es : list E) (i : nat) (k : string) :
  k ∉ key <$> es -> value_of key init act es i k = init i k.
Proof.
  intros Hin. unfold value_of. rewrite bfilter_none; [done|].
  intros e He. apply String.eqb_neq. intros <-. apply Hin.
  by apply list_elem_of_fmap_2.
Qed.

Lemma keys_imap {W : Type} (F : nat -> string -> W) (fs : list string) :
  (imap (fun i k => (k, F i k)) fs).*1 = fs.
Proof.
  revert F. induction fs as [|k fs IH]; intros F; [done|].
  cbn. f_equal. apply (IH (fun i => F (S i))).
Qed.

Lemma imap_values_ext (es : list E) (e : E) (fs : list string) (g : nat -> nat) :
  key e ∉ fs ->
  imap (fun i k => (k, value_of key init act es (g i) k)) fs
  = imap (fun i k => (k, value_of key init act (es ++ [e]) (g i) k)) fs.
Proof.
  intros Hin. apply imap_ext. intros i k Hk. cbn. f_equal. symmetry.
  apply value_of_snoc_ne. intros <-. apply Hin. by eapply list_elem_of_lookup_2.
Qed.

(** Accumulating the events one by one gives every key, in first-seen
    order, the fresh value of its position with the events of that key
    applied in order. *)
Lemma foldl_upd_grouped (es : list E) :
  foldl (upd key init act) [] es = grouped_by key init act es.
Proof.
  induction es as [|e es IH] using rev_ind; [done|].
  rewrite foldl_snoc, IH. unfold grouped_by, upd.
  rewrite fmap_app. cbn [fmap list_fmap]. rewrite first_seen_snoc, length_imap.
  case_bool_decide as Hin.
  - apply first_seen_elem in Hin.
    pose proof (first_seen_NoDup (key <$> es)) as Hnd.
    destruct (list_elem_of_split_l _ _ Hin) as (fs1 & fs2 & Efs & Hn1).
    rewrite Efs in Hnd |- *. apply NoDup_app in Hnd as (_ & _ & Hnd).
    apply NoDup_cons in Hnd as [Hn2 _].
    rewrite !imap_app, !imap_cons.
    rewrite assoc_present, map_set_present by by rewrite keys_imap.
    rewrite value_of_snoc_eq. unfold default, from_option, id.
    f_equal; [by apply (imap_values_ext es e fs1 (fun i => i))|]. f_equal.
    by apply (imap_values_ext es e fs2 (fun i => length fs1 + S i)).
  - assert (key e ∉ first_seen (key <$> es)) as Hfs by by rewrite first_seen_elem.
    rewrite assoc_absent, map_set_absent by by rewrite keys_imap.
    unfold default, from_option, id. rewrite imap_app. cbn [imap].
    rewrite value_of_snoc_eq, (value_of_absent es) by done.
    rewrite Nat.add_0_r. f_equal.
    by apply (imap_values_ext es e _ (fun i => i)).
Qed.

End KeyedFacts.

Section IngestFacts.
Context `{Host}.
Variable uuid : nat -> string.

Lemma get_not_nullish (q : JsVal) (k : string) :
  nullish q = false -> get q k = ret (own q k).
Proof. intros Hq. unfold get. by rewrite Hq. Qed.

(** One turn of the loop is one keyed update. *)
Lemma ingest_one_upd (m : list (string * TopicB)) (drawn : nat) (q : JsVal) :
  nullish q = false ->
  ingest_one uuid (m, drawn) q
  = ret (if truthy (own q "_id")
         then (upd key_T init_T act_T m (q, own q "_id"), drawn)
         else (upd key_T init_T act_T m
                 (q, JStr (generateId "question" (uuid drawn))), S drawn)).
Proof.
  intros Hq. unfold ingest_one. rewrite get_not_nullish by done.
  cbn [bind ret]. by destruct (truthy (own q "_id")).
Qed.

Lemma ingest_one_nullish (acc : list (string * TopicB) * nat) (q : JsVal) :
  nullish q = true -> ingest_one uuid acc q = throw (TypeError "topic").
Proof. intros Hq. destruct acc. unfold ingest_one, get. by rewrite Hq. Qed.

Lemma forEach_ingest (records : list JsVal) (m : list (string * TopicB))
    (drawn : nat) :
  Forall (fun q => nullish q = false) records ->
  forEach (ingest_one uuid) records (m, drawn)
  = ret (foldl (upd key_T init_T act_T) m (assign_ids uuid drawn records),
         drawn + count_fresh records).
Proof.
  intros Hrs. revert m drawn.
  induction Hrs as [|q records Hq Hrs IH]; intros m drawn.
  - cbn. by rewrite Nat.add_0_r.
  - cbn [forEach]. rewrite ingest_one_upd by done. cbn [bind ret].
    unfold count_fresh. cbn [assign_ids List.filter].
    destruct (truthy (own q "_id")); cbn [negb foldl]; rewrite IH.
    + done.
    + unfold count_fresh. cbn [length]. do 2 f_equal. lia.
Qed.

Lemma forEach_ingest_fails (records : list JsVal)
    (acc : list (string * TopicB) * nat) :
  Exists (fun q => nullish q = true) records ->
  forEach (ingest_one uuid) records acc = throw (TypeError "topic").
Proof.
  intros Hrs. revert acc. induction records as [|q records IH]; intros acc.
  - by apply Exists_nil in Hrs.
  - cbn [forEach]. destruct (nullish q) eqn:Hq.
    + by rewrite ingest_one_nullish.
    + destruct acc as [m drawn]. rewrite ingest_one_upd by done. cbn [bind ret].
      apply Exists_cons in Hrs as [Hrs|Hrs]; [congruence|].
      by destruct (truthy (own q "_id")); apply IH.
Qed.

(** The questions pushed onto one subtopic. *)
Lemma foldl_act_S (es : list (JsVal * JsVal)) (s : Subtopic) :
  foldl (fun v e => act_S e v) s es
  = s_with_questions
      (s_questions s
         ++ imap (fun k e =>
                    new_question e.1 (key_T e) (key_S e) e.2
                      (length (s_questions s) + k)) es)
      s.
Proof.
  revert s. induction es as [|e es IH]; intros s.
  - cbn. rewrite app_nil_r. by destruct s.
  - cbn [foldl]. rewrite IH. unfold act_S at 2. cbn [s_questions s_with_questions].
    unfold s_with_questions. cbn. rewrite <- app_assoc. cbn.
    rewrite Nat.add_0_r. do 3 f_equal.
    apply imap_ext. intros k e' _. cbn. rewrite length_app. cbn. f_equal. lia.
Qed.

(** The subtopics accumulated in one topic. *)
Lemma foldl_act_T (es : list (JsVal * JsVal)) (topic : TopicB) :
  foldl (fun v e => act_T e v) topic es
  = mkTopicB (tb_id topic) (tb_name topic) (tb_order topic)
      (foldl (upd key_S (init_S (tb_id topic)) act_S) (tb_subtopics topic) es).
Proof.
  revert topic. induction es as [|e es IH]; intros topic.
  - by destruct topic.
  - cbn [foldl]. by rewrite IH.
Qed.

Lemma values_imap {W : Type} (F : nat -> string -> W) (fs : list string) :
  (imap (fun i k => (k, F i k)) fs).*2 = imap F fs.
Proof.
  revert F. induction fs as [|k fs IH]; intros F; [done|].
  cbn. f_equal. apply (IH (fun i => F (S i))).
Qed.

Lemma lookup_bfilter {A : Type} (p : A -> bool) (l : list A) (i : nat) (x : A) :
  List.filter p l !! i = Some x -> p x = true.
Proof.
  intros Hx. apply list_elem_of_lookup_2 in Hx.
  by apply elem_of_bfilter in Hx as [_ ?].
Qed.

(** The loop builds the grouped tree. *)
Lemma ingest_grouped (records : list JsVal) :
  finish_topic
    <$> map_values
          (foldl (upd key_T init_T act_T) [] (assign_ids uuid 0 records))
  = grouped uuid records.
Proof.
  rewrite foldl_upd_grouped. unfold grouped, grouped_by, map_values. cbn zeta.
  rewrite values_imap, fmap_imap.
  apply imap_ext. intros i T _. cbn.
  unfold value_of at 1. rewrite foldl_act_T. unfold finish_topic. cbn.
  f_equal. rewrite foldl_upd_grouped. unfold grouped_by, map_values.
  rewrite values_imap.
  change (fun e : JsVal * JsVal => String.eqb (key_T e) T) with (in_topic T).
  apply imap_ext. intros j S _. cbn.
  unfold value_of. rewrite foldl_act_S. unfold init_S, s_with_questions. cbn.
  f_equal.
  change (fun e : JsVal * JsVal => String.eqb (key_S e) S) with (in_subtopic S).
  apply imap_ext. intros k e He. cbn.
  apply lookup_bfilter in He as HS.
  apply list_elem_of_lookup_2, elem_of_bfilter in He as [He _].
  apply elem_of_bfilter in He as [_ HT].
  unfold in_topic in HT. unfold in_subtopic in HS.
  apply String.eqb_eq in HT, HS. unfold key_T, key_S. by rewrite HT, HS.
Qed.

(** What [transformSheetData] returns on a document it accepts. *)
Lemma transformSheetData_accepts (rawData : JsVal) (records : list JsVal) :
  truthy (data_sheet rawData) = true ->
  data_questions rawData = JArr records ->
  Forall (fun q => nullish q = false) records ->
  transformSheetData uuid rawData
  = ret (new_sheet uuid (data_sheet rawData) (count_fresh records),
         grouped uuid records).
Proof.
  intros Hs Hq Hrs. unfold transformSheetData. rewrite Hs, Hq.
  cbn [truthy negb orb bind ret]. rewrite forEach_ingest by done.
  cbn [bind ret]. by rewrite ingest_grouped.
Qed.

End IngestFacts.

Section TransformFacts.
Context `{Host}.
Variable uuid : nat -> string.

Lemma transformSheetData_rejects (rawData : JsVal) :
  truthy (data_sheet rawData) = false \/ truthy (data_questions rawData) = false ->
  transformSheetData uuid rawData = throw (mkExn "Invalid sheet data format").
Proof.
  intros [Hf | Hf]; unfold transformSheetData; rewrite Hf; [done|].
  by rewrite orb_true_r.
Qed.

Lemma transformSheetData_not_array (rawData : JsVal) :
  truthy (data_sheet rawData) = true ->
  truthy (data_questions rawData) = true ->
  (forall records, data_questions rawData <> JArr records) ->
  transformSheetData uuid rawData = throw (TypeError "forEach").
Proof.
  intros Hs Hq Hn. unfold transformSheetData. rewrite Hs, Hq.
  cbn [negb orb]. destruct (data_questions rawData); try done.
  by destruct (Hn items).
Qed.

Lemma transformSheetData_null_record (rawData : JsVal) (records : list JsVal) :
  truthy (data_sheet rawData) = true ->
  data_questions rawData = JArr records ->
  Exists (fun q => nullish q = true) records ->
  transformSheetData uuid rawData = throw (TypeError "topic").
Proof.
  intros Hs Hq Hex. unfold transformSheetData. rewrite Hs, Hq.
  cbn [truthy negb orb bind ret]. by rewrite forEach_ingest_fails.
Qed.

(** The documents on which [transformSheetData] throws. *)
Lemma transformSheetData_throws_iff (rawData : JsVal) :
  (exists e, transformSheetData uuid rawData = throw e)
  <-> truthy (data_sheet rawData) = false
      \/ truthy (data_questions rawData) = false
      \/ (forall records, data_questions rawData <> JArr records)
      \/ (exists records, data_questions rawData = JArr records
                          /\ Exists (fun q => nullish q = true) records).
Proof.
  split.
  - intros (e & He).
    destruct (truthy (data_sheet rawData)) eqn:Hs; [|by left].
    destruct (truthy (data_questions rawData)) eqn:Hq; [|by right; left].
    right. right.
    destruct (data_questions rawData) as [| |b|n|s|records|fields] eqn:Eq;
      try by left.
    right. exists records. split; [done|].
    destruct (decide (Exists (fun q => nullish q = true) records)) as [|Hall];
      [done|].
    apply not_Exists_Forall in Hall; [|intros q; apply _].
    rewrite (transformSheetData_accepts uuid _ records) in He; try done.
    eapply Forall_impl; [exact Hall|]. intros q Hq'. cbn in Hq'.
    by destruct (nullish q).
  - intros Hc.
    destruct (truthy (data_sheet rawData)) eqn:Hs; cycle 1.
    { eexists. apply transformSheetData_rejects. by left. }
    destruct (truthy (data_questions rawData)) eqn:Hq; cycle 1.
    { eexists. apply transformSheetData_rejects. by right. }
    destruct Hc as [? | [? | [Hn | (records & Eq & Hex)]]]; try done.
    + eexists. by apply transformSheetData_not_array.
    + eexists. by eapply transformSheetData_null_record.
Qed.

Lemma is_record_truthy (v : JsVal) : is_record v -> truthy v = true.
Proof. by intros (fields & ->). Qed.

Lemma is_record_not_nullish (v : JsVal) : is_record v -> nullish v = false.
Proof. by intros (fields & ->). Qed.

Lemma fetchSheetData_runs (sheetData : JsVal) (st : State) :
  topics st = [] \/ loading st = true ->
  fetchSheetData uuid sheetData st
  = match transformSheetData uuid sheetData with
    | inr (sheet, topics) =>
        set_loading false
          (set_topics topics
             (set_sheet (Some sheet) (set_error None (set_loading true st))))
    | inl error =>
        set_loading false
          (set_error (Some (exn_message error))
             (set_error None (set_loading true st)))
    end.
Proof.
  intros Hrun. unfold fetchSheetData.
  destruct Hrun as [-> | ->]; [done|]. by rewrite andb_false_r.
Qed.

(** C2. When [data.sheet] or [data.questions] is missing from the document,
    [transformSheetData] throws "Invalid sheet data format" and returns no
    tree, and a [fetchSheetData] that runs it records that message as the
    error and leaves the topic list and the sheet as they were (empty and
    unset when they were); when the sheet is a record and the questions are
    an array of records, it returns a sheet and a tree, which
    [fetchSheetData] stores without an error. *)
Theorem transformSheetData_fails_exactly_without_sheet_or_questions
    (rawData : JsVal) :
  (data_sheet rawData = JUndefined \/ data_questions rawData = JUndefined ->
   transformSheetData uuid rawData = throw (mkExn "Invalid sheet data format")
   /\ forall st : State,
        topics st = [] \/ loading st = true ->
        error (fetchSheetData uuid rawData st) = Some "Invalid sheet data format"
        /\ topics (fetchSheetData uuid rawData st) = topics st
        /\ sheet (fetchSheetData uuid rawData st) = sheet st
        /\ loading (fetchSheetData uuid rawData st) = false)
  /\ (is_record (data_sheet rawData) ->
      (exists records, data_questions rawData = JArr records
                       /\ Forall is_record records) ->
      exists sh ts,
        transformSheetData uuid rawData = ret (sh, ts)
        /\ forall st : State,
             topics st = [] \/ loading st = true ->
             error (fetchSheetData uuid rawData st) = None
             /\ topics (fetchSheetData uuid rawData st) = ts
             /\ sheet (fetchSheetData uuid rawData st) = Some sh
             /\ loading (fetchSheetData uuid rawData st) = false).
Proof.
  split.
  - intros Hmiss.
    assert (transformSheetData uuid rawData
            = throw (mkExn "Invalid sheet data format")) as Hthrow.
    { apply transformSheetData_rejects. by destruct Hmiss as [-> | ->]; [left|right]. }
    split; [done|]. intros st Hrun.
    rewrite fetchSheetData_runs, Hthrow by done. done.
  - intros Hs (records & Hq & Hrs).
    assert (transformSheetData uuid rawData
            = ret (new_sheet uuid (data_sheet rawData) (count_fresh records),
                   grouped uuid records)) as Hret.
    { apply transformSheetData_accepts; [by apply is_record_truthy | done |].
      eapply Forall_impl; [exact Hrs|]. apply is_record_not_nullish. }
    eexists _, _. split; [exact Hret|]. intros st Hrun.
    rewrite fetchSheetData_runs, Hret by done. done.
Qed.

End TransformFacts.

Lemma transformSheetData_fails_exactly_without_sheet_or_questions_witness :
  (transformSheetData (H := AsciiHost.host) (fun _ => "0000") Demo.no_questions
   = throw (mkExn "Invalid sheet data format")
   /\ forall st : State,
        topics st = [] \/ loading st = true ->
        error (fetchSheetData (H := AsciiHost.host) (fun _ => "0000")
                 Demo.no_questions st)
        = Some "Invalid sheet data format"
        /\ topics (fetchSheetData (H := AsciiHost.host) (fun _ => "0000")
                     Demo.no_questions st) = topics st
        /\ sheet (fetchSheetData (H := AsciiHost.host) (fun _ => "0000")
                    Demo.no_questions st) = sheet st
        /\ loading (fetchSheetData (H := AsciiHost.host) (fun _ => "0000")
                      Demo.no_questions st) = false)
  /\ (exists sh ts,
         transformSheetData (H := AsciiHost.host) (fun _ => "0000") Demo.two_records
         = ret (sh, ts)
         /\ forall st : State,
              topics st = [] \/ loading st = true ->
              error (fetchSheetData (H := AsciiHost.host) (fun _ => "0000")
                       Demo.two_records st) = None
              /\ topics (fetchSheetData (H := AsciiHost.host) (fun _ => "0000")
                           Demo.two_records st) = ts
              /\ sheet (fetchSheetData (H := AsciiHost.host) (fun _ => "0000")
                          Demo.two_records st) = Some sh
              /\ loading (fetchSheetData (H := AsciiHost.host) (fun _ => "0000")
                            Demo.two_records st) = false).
Proof.
  split.
  - apply (proj1 (transformSheetData_fails_exactly_without_sheet_or_questions
                    (H := AsciiHost.host) (fun _ => "0000") Demo.no_questions)).
    right. reflexivity.
  - apply (proj2 (transformSheetData_fails_exactly_without_sheet_or_questions
                    (H := AsciiHost.host) (fun _ => "0000") Demo.two_records)).
    + eexists. reflexivity.
    + eexists. split; [reflexivity|].
      repeat constructor; eexists; reflexivity.
Defined.

Section GroupedFacts.
Context `{Host}.
Variable uuid : nat -> string.

Lemma assign_ids_records (drawn : nat) (records : list JsVal) :
  (assign_ids uuid drawn records).*1 = records.
Proof.
  revert drawn. induction records as [|q records IH]; intros drawn; [done|].
  cbn. destruct (truthy (own q "_id")); cbn; by rewrite IH.
Qed.

Lemma imap_index {A : Type} (l : list A) : imap (fun i _ => i) l = seq 0 (length l).
Proof. by rewrite (imap_seq_0 l (fun i => i)), list_fmap_id. Qed.

Lemma imap_second {A B : Type} (f : A -> B) (l : list A) :
  imap (fun _ x => f x) l = f <$> l.
Proof. apply (imap_const f). Qed.

Lemma grouped_topic_names (records : list JsVal) :
  t_name <$> grouped uuid records = first_seen (topicName_of <$> records).
Proof.
  unfold grouped. cbn zeta. rewrite fmap_imap.
  rewrite (imap_ext _ (fun _ T => T)) by done.
  rewrite (imap_second (fun T => T)), list_fmap_id.
  by rewrite <- (assign_ids_records 0 records) at 2; rewrite <- list_fmap_compose.
Qed.

Lemma grouped_names_distinct (records : list JsVal) :
  names_distinct (grouped uuid records).
Proof.
  split.
  - rewrite grouped_topic_names. apply first_seen_NoDup.
  - apply Forall_forall. intros t Ht. unfold grouped in Ht. cbn zeta in Ht.
    apply elem_of_lookup_imap in Ht as (i & T & -> & _). cbn.
    rewrite fmap_imap. rewrite (imap_ext _ (fun _ S => S)) by done.
    rewrite (imap_second (fun S => S)), list_fmap_id. apply first_seen_NoDup.
Qed.

Lemma grouped_densely_ordered (records : list JsVal) :
  densely_ordered (grouped uuid records).
Proof.
  split.
  - unfold grouped. cbn zeta. rewrite fmap_imap, length_imap.
    rewrite (imap_ext _ (fun i _ => i)) by done. apply imap_index.
  - apply Forall_forall. intros t Ht. unfold grouped in Ht. cbn zeta in Ht.
    apply elem_of_lookup_imap in Ht as (i & T & -> & _). cbn. split.
    + rewrite fmap_imap, length_imap.
      rewrite (imap_ext _ (fun j _ => j)) by done. apply imap_index.
    + apply Forall_forall. intros s Hs.
      apply elem_of_lookup_imap in Hs as (j & S & -> & _). cbn.
      rewrite fmap_imap, length_imap.
      rewrite (imap_ext _ (fun k _ => k)) by done. apply imap_index.
Qed.

(** Two records of one topic and one subtopic. *)
Lemma grouped_pair (q1 q2 : JsVal) :
  topicName_of q1 = topicName_of q2 ->
  subtopicName_of q1 = subtopicName_of q2 ->
  exists a b,
    grouped uuid [q1; q2]
    = [mkTopic "topic-0" (topicName_of q1) 0
         [mkSubtopic "subtopic-topic-0-0" (subtopicName_of q1) 0 [a; b]]]
    /\ q_order a = 0 /\ q_order b = 1
    /\ a = new_question q1 (topicName_of q1) (subtopicName_of q1) (q_id a) 0
    /\ b = new_question q2 (topicName_of q1) (subtopicName_of q1) (q_id b) 1.
Proof.
  intros HT HS. unfold grouped. cbn zeta.
  set (es := assign_ids uuid 0 [q1; q2]).
  assert (exists i1 i2, es = [(q1, i1); (q2, i2)]) as (i1 & i2 & ->).
  { subst es. cbn. destruct (truthy (own q1 "_id")), (truthy (own q2 "_id")); eauto. }
  assert (forall i, in_topic (topicName_of q1) (q1, i) = true) as T1
    by (intros i; apply String.eqb_refl).
  assert (forall i, in_topic (topicName_of q1) (q2, i) = true) as T2
    by (intros i; unfold in_topic; cbn; rewrite HT; apply String.eqb_refl).
  assert (forall i, in_subtopic (subtopicName_of q1) (q1, i) = true) as S1
    by (intros i; apply String.eqb_refl).
  assert (forall i, in_subtopic (subtopicName_of q1) (q2, i) = true) as S2
    by (intros i; unfold in_subtopic; cbn; rewrite HS; apply String.eqb_refl).
  cbn [fmap list_fmap fst first_seen List.filter]. rewrite <- HT.
  rewrite String.eqb_refl. cbn [negb imap List.filter].
  rewrite T1, T2. cbn [fmap list_fmap fst first_seen List.filter]. rewrite <- HS.
  rewrite String.eqb_refl. cbn [negb imap List.filter].
  rewrite S1, S2. cbn [imap fst snd].
  eexists _, _. split; [reflexivity|]. done.
Qed.

(** C3. On a document it accepts, [transformSheetData] returns the records
    grouped by sanitized topic name and, within a topic, by sanitized
    subtopic name: one Topic per distinct topic name and one Subtopic per
    distinct subtopic name of its records, both in first-seen order with
    [order] their first-seen index, and in each Subtopic the questions of its
    records in record order, each with [order] the number of questions before
    it.  Two records of the same topic and subtopic give one Topic with one
    Subtopic holding two Questions of [order] 0 and 1. *)
Theorem transformSheetData_groups_by_names
    (rawData : JsVal) (records : list JsVal) :
  truthy (data_sheet rawData) = true ->
  data_questions rawData = JArr records ->
  Forall (fun q => nullish q = false) records ->
  exists sh ts,
    transformSheetData uuid rawData = ret (sh, ts)
    /\ ts = grouped uuid records
    /\ t_name <$> ts = first_seen (topicName_of <$> records)
    /\ names_distinct ts
    /\ densely_ordered ts
    /\ (forall q1 q2,
           records = [q1; q2] ->
           topicName_of q1 = topicName_of q2 ->
           subtopicName_of q1 = subtopicName_of q2 ->
           exists a b,
             ts = [mkTopic "topic-0" (topicName_of q1) 0
                     [mkSubtopic "subtopic-topic-0-0" (subtopicName_of q1) 0
                        [a; b]]]
             /\ q_order a = 0 /\ q_order b = 1).
Proof.
  intros Hs Hq Hrs. eexists _, _.
  split; [by apply transformSheetData_accepts|]. split; [done|].
  split; [apply grouped_topic_names|].
  split; [apply grouped_names_distinct|].
  split; [apply grouped_densely_ordered|].
  intros q1 q2 -> HT HS.
  destruct (grouped_pair q1 q2 HT HS) as (a & b & E & Ha & Hb & _). eauto.
Qed.

End GroupedFacts.

Lemma transformSheetData_groups_by_names_witness :
  exists sh,
    transformSheetData (H := AsciiHost.host) (fun _ => "0000") Demo.two_records
    = ret (sh,
           [mkTopic "topic-0" "Arrays" 0
              [mkSubtopic "subtopic-topic-0-0" "Basics" 0
                 [ {| q_id := JStr "r1"; q_title := "Two Sum";
                      q_topic := Some "Arrays"; q_subtopic := Some "Basics";
                      q_difficulty := JStr "Easy"; q_url := "";
                      q_resource := Some ""; q_tags := Some [];
                      q_isSolved := false; q_order := 0; q_notes := "" |};
                   {| q_id := JStr "r2"; q_title := "3Sum";
                      q_topic := Some "Arrays"; q_subtopic := Some "Basics";
                      q_difficulty := JStr "Easy"; q_url := "";
                      q_resource := Some ""; q_tags := Some [];
                      q_isSolved := false; q_order := 1; q_notes := "" |} ]]]).
Proof.
  destruct (transformSheetData_groups_by_names (H := AsciiHost.host)
              (fun _ => "0000") Demo.two_records
              [Demo.record "r1" "Two Sum"; Demo.record "r2" "3Sum"])
    as (sh & ts & Hret & -> & _).
  - reflexivity.
  - reflexivity.
  - repeat constructor.
  - exists sh. exact Hret.
Defined.


(** ** The ids of a reachable tree are truthy *)

Lemma Forall_bfilter {A : Type} (P : A -> Prop) (p : A -> bool) (l : list A) :
  Forall P l -> Forall P (List.filter p l).
Proof.
  rewrite !Forall_forall. intros Hl x Hx. apply Hl.
  by apply elem_of_bfilter in Hx as [? _].
Qed.

Lemma Forall_map_pres {A : Type} (P : A -> Prop) (f : A -> A) (l : list A) :
  (forall x, P x -> P (f x)) -> Forall P l -> Forall P (f <$> l).
Proof.
  intros Hf Hl. apply Forall_fmap. eapply Forall_impl; [exact Hl|]. exact Hf.
Qed.

Lemma Forall_renumber {A : Type} `{Ordered A} (P : A -> Prop) (l : list A) :
  (forall k x, P x -> P (with_order k x)) -> Forall P l -> Forall P (renumber l).
Proof.
  intros Hw Hl. apply Forall_lookup_2. intros i y Hy. unfold renumber in Hy.
  rewrite list_lookup_imap in Hy. destruct (l !! i) as [x|] eqn:Hx; [|done].
  injection Hy as <-. apply Hw. by eapply Forall_lookup_1.
Qed.

Lemma Forall_reordered {A : Type} `{OrderedLaws A} (P : A -> Prop)
    (p p' : A -> bool) (l : list A) :
  (forall k x, P x -> P (with_order k x)) -> Forall P l ->
  Forall P (default l (reorderArray l (findIndex p l) (findIndex p' l))).
Proof.
  intros Hw Hl.
  destruct (reorderArray_findIndex p p' l) as (i & j & [-> | ->]); [done|].
  cbn. apply Forall_renumber; [done|].
  by rewrite (move_item_Permutation l i j).
Qed.

Lemma generateId_nonempty (prefix uuid : string) :
  prefix <> "" -> generateId prefix uuid <> "".
Proof. by destruct prefix. Qed.

Lemma subtopic_ids_ok_map (f : Question -> Question) (s : Subtopic) :
  (forall q, q_id (f q) = q_id q) ->
  subtopic_ids_ok s ->
  subtopic_ids_ok (s_with_questions (f <$> s_questions s) s).
Proof.
  intros Hf [Hid Hqs]. split; [done|]. cbn.
  apply Forall_map_pres; [|done]. intros q Hq. unfold question_id_ok.
  by rewrite Hf.
Qed.

Lemma topic_ids_ok_map (f : Subtopic -> Subtopic) (t : Topic) :
  (forall s, subtopic_ids_ok s -> subtopic_ids_ok (f s)) ->
  topic_ids_ok t -> topic_ids_ok (t_with_subtopics (f <$> t_subtopics t) t).
Proof.
  intros Hf [Hid Hss]. split; [done|]. cbn. by apply Forall_map_pres.
Qed.

Lemma merge_question_id `{Host} (questionData : JsVal) (q : Question) :
  q_id (merge_question questionData q) = q_id q.
Proof.
  destruct (merge_question_fields questionData q) as (_ & _ & _ & E).
  unfold other_fields in E. congruence.
Qed.

Lemma grouped_ids_truthy `{Host} (uuid : nat -> string) (records : list JsVal) :
  ids_truthy (grouped uuid records).
Proof.
  assert (forall drawn, Forall (fun e : JsVal * JsVal => truthy e.2 = true)
                          (assign_ids uuid drawn records)) as Hes.
  { induction records as [|q records IH]; intros drawn; cbn; [constructor|].
    destruct (truthy (own q "_id")) eqn:Hq; constructor; try done; apply IH. }
  apply Forall_lookup_2. intros i t Ht. unfold grouped in Ht. cbn zeta in Ht.
  rewrite list_lookup_imap in Ht.
  destruct (first_seen _ !! i) as [T|]; [|done]. injection Ht as <-.
  split; [done|]. cbn. apply Forall_lookup_2. intros j s Hs.
  rewrite list_lookup_imap in Hs.
  destruct (first_seen _ !! j) as [S|]; [|done]. injection Hs as <-.
  split; [done|]. cbn. apply Forall_lookup_2. intros k q Hq.
  rewrite list_lookup_imap in Hq.
  destruct (List.filter _ _ !! k) as [e|] eqn:He; [|done]. injection Hq as <-.
  unfold question_id_ok. cbn.
  apply list_elem_of_lookup_2, elem_of_bfilter in He as [He _].
  apply elem_of_bfilter in He as [He _].
  specialize (Hes 0). rewrite Forall_forall in Hes. by apply Hes.
Qed.

Lemma transformSheetData_returns_grouped `{Host} (uuid : nat -> string)
    (rawData : JsVal) (sh : Sheet) (ts : list Topic) :
  transformSheetData uuid rawData = ret (sh, ts) ->
  exists records, data_questions rawData = JArr records
                  /\ ts = grouped uuid records.
Proof.
  intros Hret.
  destruct (truthy (data_sheet rawData)) eqn:Hs; cycle 1.
  { rewrite transformSheetData_rejects in Hret by by left. done. }
  destruct (truthy (data_questions rawData)) eqn:Hq; cycle 1.
  { rewrite transformSheetData_rejects in Hret by by right. done. }
  destruct (data_questions rawData) as [| |b|n|s|records|fields] eqn:Eq;
    try (rewrite transformSheetData_not_array in Hret by (by rewrite ?Eq); done).
  exists records. split; [done|].
  destruct (decide (Exists (fun q => nullish q = true) records)) as [Hex|Hall].
  { rewrite (transformSheetData_null_record uuid _ records) in Hret by done. done. }
  apply not_Exists_Forall in Hall; [|intros q; apply _].
  rewrite (transformSheetData_accepts uuid _ records) in Hret; try done.
  - by injection Hret as _ <-.
  - eapply Forall_impl; [exact Hall|]. intros q Hq'. cbn in Hq'.
    by destruct (nullish q).
Qed.

Ltac guards :=
  repeat match goal with
         | |- ids_truthy (topics (if ?c then _ else _)) => destruct c
         end;
  cbn [topics set_topics set_sheet set_expandedTopics set_expandedSubtopics
       set_loading set_error set_searchQuery set_filterDifficulty
       set_filterStatus set_theme set_showStats];
  try assumption.

Ltac in_topics Hst t Ht :=
  apply Forall_map_pres; [|exact Hst]; intros t Ht.
Ltac in_subtopics Ht s Hs :=
  apply topic_ids_ok_map; [|exact Ht]; intros s Hs.
Ltac in_questions Hs :=
  apply subtopic_ids_ok_map; [|exact Hs]; intros q.

Lemma step_ids_truthy `{Host} (a : Action) (st : State) :
  ids_truthy (topics st) -> ids_truthy (topics (step a st)).
Proof.
  intros Hst. destruct a; cbn [step].
  - (* fetchSheetData *)
    unfold fetchSheetData. guards.
    destruct (transformSheetData uuid sheetData) as [e|[sh ts]] eqn:Hret; guards.
    apply transformSheetData_returns_grouped in Hret as (records & _ & ->).
    apply grouped_ids_truthy.
  - (* resetProgress *) constructor.
  - unfold toggleTopicExpansion. guards.
  - unfold toggleSubtopicExpansion. guards.
  - done.
  - done.
  - done.
  - done.
  - done.
  - done.
  - done.
  - (* toggleQuestionSolved *)
    unfold toggleQuestionSolved. guards. in_topics Hst t Ht.
    in_subtopics Ht s Hs. in_questions Hs. by destruct (is_str _ _).
  - (* toggleAllInSubtopic *)
    unfold toggleAllInSubtopic, updateTopicsNested. guards. in_topics Hst t Ht.
    destruct (_ && _); [done|]. in_subtopics Ht s Hs.
    destruct (_ && _); [done|]. by in_questions Hs.
  - (* updateQuestionNotes *)
    unfold updateQuestionNotes. guards. in_topics Hst t Ht.
    in_subtopics Ht s Hs. in_questions Hs. by destruct (is_str _ _).
  - (* addTopic *)
    unfold addTopic. cbn zeta. guards. apply Forall_app. split; [done|].
    constructor; [|constructor]. split; [|constructor].
    by apply generateId_nonempty.
  - (* updateTopic *)
    unfold updateTopic. cbn zeta. guards. in_topics Hst t Ht.
    by destruct (String.eqb _ _).
  - (* deleteTopic *)
    unfold deleteTopic. guards. by apply Forall_bfilter.
  - (* addSubtopic *)
    unfold addSubtopic. cbn zeta. guards. in_topics Hst t Ht.
    destruct (negb _); [done|]. destruct Ht as [Hid Hss]. split; [done|].
    cbn. apply Forall_app. split; [done|]. constructor; [|constructor].
    split; [|constructor]. by apply generateId_nonempty.
  - (* updateSubtopic *)
    unfold updateSubtopic. cbn zeta. guards. in_topics Hst t Ht.
    destruct (negb _); [done|]. in_subtopics Ht s Hs.
    by destruct (String.eqb _ _).
  - (* deleteSubtopic *)
    unfold deleteSubtopic. guards. in_topics Hst t Ht.
    destruct (negb _); [done|]. destruct Ht as [Hid Hss]. split; [done|].
    cbn. by apply Forall_bfilter.
  - (* addQuestion *)
    unfold addQuestion. guards. cbn zeta. guards. in_topics Hst t Ht.
    destruct (negb _); [done|]. in_subtopics Ht s Hs.
    destruct (negb _); [done|]. destruct Hs as [Hid Hqs]. split; [done|].
    cbn. apply Forall_app. split; [done|]. constructor; [|constructor].
    unfold question_id_ok. cbn. apply negb_true_iff, String.eqb_neq.
    by apply generateId_nonempty.
  - (* updateQuestion *)
    unfold updateQuestion. guards. in_topics Hst t Ht.
    destruct (negb _); [done|]. in_subtopics Ht s Hs.
    destruct (negb _); [done|]. in_questions Hs.
    destruct (negb _); [done|]. apply merge_question_id.
  - (* deleteQuestion *)
    unfold deleteQuestion. guards. in_topics Hst t Ht.
    destruct (negb _); [done|]. in_subtopics Ht s Hs.
    destruct (negb _); [done|]. destruct Hs as [Hid Hqs]. split; [done|].
    cbn. by apply Forall_bfilter.
  - (* reorderTopics *)
    unfold reorderTopics. guards. cbn zeta. guards.
    pose proof (Forall_reordered topic_ids_ok
                  (fun t => String.eqb (t_id t) activeId)
                  (fun t => String.eqb (t_id t) overId) (topics st)) as Hr.
    destruct (reorderArray _ _ _); guards. by apply Hr.
  - (* reorderSubtopics *)
    unfold reorderSubtopics. guards. in_topics Hst t Ht.
    destruct (negb _); [done|]. cbn zeta. destruct (_ || _); [done|].
    pose proof (Forall_reordered subtopic_ids_ok
                  (fun s => String.eqb (s_id s) activeId)
                  (fun s => String.eqb (s_id s) overId) (t_subtopics t)) as Hr.
    destruct (reorderArray _ _ _); [|done]. destruct Ht as [Hid Hss].
    split; [done|]. by apply Hr.
  - (* reorderQuestions *)
    unfold reorderQuestions. guards. in_topics Hst t Ht.
    destruct (negb _); [done|]. in_subtopics Ht s Hs.
    destruct (negb _); [done|]. cbn zeta. destruct (_ || _); [done|].
    pose proof (Forall_reordered question_id_ok
                  (fun q => is_str (q_id q) activeId)
                  (fun q => is_str (q_id q) overId) (s_questions s)) as Hr.
    destruct (reorderArray _ _ _); [|done]. destruct Hs as [Hid Hqs].
    split; [done|]. by apply Hr.
Qed.

Lemma reachable_ids_truthy `{Host} (st : State) :
  reachable st -> ids_truthy (topics st).
Proof.
  induction 1 as [|a st _ IH]; [constructor|]. by apply step_ids_truthy.
Qed.

(** The filters of a reachable state are never empty: the setters put "all"
    in the place of a falsy value. *)
Lemma reachable_filters_nonempty `{Host} (st : State) :
  reachable st -> filterDifficulty st <> "" /\ filterStatus st <> "".
Proof.
  induction 1 as [|a st _ [IHd IHs]]; [done|].
  destruct a; cbn [step];
    unfold fetchSheetData, resetProgress, toggleTopicExpansion,
      toggleSubtopicExpansion, expandAllTopics,
      collapseAllTopics, setSearchQuery, setFilterDifficulty, setFilterStatus,
      toggleTheme, toggleStats, toggleQuestionSolved, toggleAllInSubtopic,
      updateQuestionNotes, addTopic, updateTopic, deleteTopic, addSubtopic,
      updateSubtopic, deleteSubtopic, addQuestion, updateQuestion,
      deleteQuestion, reorderTopics, reorderSubtopics, reorderQuestions;
    cbn zeta;
    repeat match goal with
           | |- context [if ?c then _ else _] => destruct c eqn:?
           | |- context [match ?c with Some _ => _ | None => _ end] => destruct c
           | |- context [match ?c with inl _ => _ | inr _ => _ end] =>
               destruct c as [?|[? ?]]
           end;
    cbn; try done.
  - split; [|done]. by apply String.eqb_neq.
  - split; [done|]. by apply String.eqb_neq.
Qed.


(** * Further properties of the store *)

(** ** Question toggles and notes *)

Lemma state_eta (st : State) : set_topics (topics st) st = st.
Proof. by destruct st. Qed.

Lemma topic_eta (t : Topic) : t_with_subtopics (t_subtopics t) t = t.
Proof. by destruct t. Qed.

Lemma subtopic_eta (s : Subtopic) : s_with_questions (s_questions s) s = s.
Proof. by destruct s. Qed.

Lemma set_topics_twice (x y : list Topic) (st : State) :
  set_topics x (set_topics y st) = set_topics x st.
Proof. done. Qed.

(** X1. [toggleQuestionSolved] is its own inverse: toggling the same id
    twice gives back the state, whatever the id and the tree. *)
Theorem toggleQuestionSolved_twice (questionId : string) (st : State) :
  toggleQuestionSolved questionId (toggleQuestionSolved questionId st) = st.
Proof.
  unfold toggleQuestionSolved. destruct (missing questionId); [done|].
  cbn [topics set_topics]. rewrite set_topics_twice.
  etrans; [|apply state_eta]. f_equal.
  rewrite <- list_fmap_compose. apply fmap_fixed. intros n t _. cbn.
  etrans; [|apply topic_eta]. unfold t_with_subtopics at 1. cbn.
  unfold t_with_subtopics. f_equal.
  rewrite <- list_fmap_compose. apply fmap_fixed. intros m s _. cbn.
  etrans; [|apply subtopic_eta]. unfold s_with_questions. f_equal.
  rewrite <- list_fmap_compose. apply fmap_fixed. intros k q _. cbn.
  destruct (is_str (q_id q) questionId) eqn:E; cbn; rewrite ?E; [|done].
  destruct q as [? ? ? ? ? ? ? ? []]; done.
Qed.

Lemma toggleAllInSubtopic_at (topicId subtopicId : string) (solved : JsVal)
    (st : State) (n m : nat) (t : Topic) (s : Subtopic) :
  topicId <> "" -> subtopicId <> "" ->
  topics st !! n = Some t -> t_subtopics t !! m = Some s ->
  subtopic_at (topics (toggleAllInSubtopic topicId subtopicId solved st)) n m
  = Some (if String.eqb (t_id t) topicId && String.eqb (s_id s) subtopicId
          then s_with_questions
                 (q_with_isSolved (truthy solved) <$> s_questions s) s
          else s).
Proof.
  intros Ht Hs Hn Hm. unfold toggleAllInSubtopic, updateTopicsNested, subtopic_at.
  rewrite !missing_false by done. cbn [orb topics set_topics].
  rewrite list_lookup_fmap, Hn. cbn.
  rewrite (proj2 (String.eqb_neq topicId "")) by done. cbn [negb andb].
  destruct (String.eqb (t_id t) topicId); cbn; [|done].
  rewrite list_lookup_fmap, Hm. cbn.
  rewrite (proj2 (String.eqb_neq subtopicId "")) by done. cbn [negb andb].
  by destruct (String.eqb (s_id s) subtopicId).
Qed.

Lemma filter_solved_all (b : bool) (qs : list Question) :
  List.filter q_isSolved (q_with_isSolved b <$> qs)
  = if b then q_with_isSolved b <$> qs else [].
Proof.
  induction qs as [|q qs IH]; [by destruct b|].
  cbn. rewrite IH. by destruct b.
Qed.

(** X2. [toggleAllInSubtopic] with non-empty ids sets [isSolved] of every
    question of the addressed subtopic to the boolean value of [solved] and
    changes nothing else in them, so that the progress of that subtopic
    becomes all or nothing; every other subtopic is left as it was.  With an
    empty id it does nothing. *)
Theorem toggleAllInSubtopic_all_or_nothing (topicId subtopicId : string)
    (solved : JsVal) (st : State) :
  (topicId = "" \/ subtopicId = "" ->
   toggleAllInSubtopic topicId subtopicId solved st = st)
  /\ (topicId <> "" -> subtopicId <> "" ->
      forall (n m : nat) (t : Topic) (s : Subtopic),
        topics st !! n = Some t -> t_subtopics t !! m = Some s ->
        exists s',
          subtopic_at (topics (toggleAllInSubtopic topicId subtopicId solved st)) n m
          = Some s'
          /\ (t_id t = topicId /\ s_id s = subtopicId ->
              s_questions s' = q_with_isSolved (truthy solved) <$> s_questions s
              /\ calculateSubtopicProgress s'
                 = mkProgress (length (s_questions s))
                     (if truthy solved then length (s_questions s) else 0))
          /\ (~ (t_id t = topicId /\ s_id s = subtopicId) -> s' = s)).
Proof.
  split.
  - intros [-> | ->]; unfold toggleAllInSubtopic; [done|].
    by rewrite orb_true_r.
  - intros Ht Hs n m t s Hn Hm. eexists.
    split; [by apply toggleAllInSubtopic_at|]. split.
    + intros [-> ->]. rewrite !String.eqb_refl. cbn [andb s_questions s_with_questions].
      split; [done|]. unfold calculateSubtopicProgress. cbn.
      rewrite filter_solved_all, length_fmap.
      destruct (truthy solved); [by rewrite length_fmap|done].
    + intros Hnot.
      destruct (String.eqb_spec (t_id t) topicId); [|done].
      destruct (String.eqb_spec (s_id s) subtopicId); [|done].
      by destruct Hnot.
Qed.

Lemma toggleAllInSubtopic_all_or_nothing_witness :
  exists s',
    subtopic_at (topics (toggleAllInSubtopic "A" "s1" (JBool true) Demo.state)) 0 0
    = Some s'
    /\ (t_id (mkTopic "A" "Arrays" 0 Demo.subtopics) = "A"
        /\ s_id (mkSubtopic "s1" "Basics" 0 Demo.questions) = "s1" ->
        s_questions s'
        = q_with_isSolved (truthy (JBool true)) <$> Demo.questions
        /\ calculateSubtopicProgress s' = mkProgress 3 3)
    /\ (~ (t_id (mkTopic "A" "Arrays" 0 Demo.subtopics) = "A"
           /\ s_id (mkSubtopic "s1" "Basics" 0 Demo.questions) = "s1") ->
        s' = mkSubtopic "s1" "Basics" 0 Demo.questions).
Proof.
  apply (proj2 (toggleAllInSubtopic_all_or_nothing "A" "s1" (JBool true) Demo.state)
           ltac:(discriminate) ltac:(discriminate) 0 0
           (mkTopic "A" "Arrays" 0 Demo.subtopics)
           (mkSubtopic "s1" "Basics" 0 Demo.questions)).
  - reflexivity.
  - reflexivity.
Defined.

Lemma updateQuestionNotes_at `{Host} (questionId : string) (notes : JsVal)
    (st : State) (n m k : nat) (t : Topic) (s : Subtopic) (q : Question) :
  questionId <> "" ->
  topics st !! n = Some t -> t_subtopics t !! m = Some s ->
  s_questions s !! k = Some q ->
  question_at (topics (updateQuestionNotes questionId notes st)) n m k
  = Some (if is_str (q_id q) questionId
          then q_with_notes (sanitizeString notes "") q else q).
Proof.
  intros Hq Hn Hm Hk. unfold updateQuestionNotes, question_at, questions_at.
  rewrite missing_false by done. cbn [topics set_topics].
  rewrite list_lookup_fmap, Hn. cbn. rewrite list_lookup_fmap, Hm. cbn.
  by rewrite list_lookup_fmap, Hk.
Qed.

(** X3. [updateQuestionNotes] with a non-empty id replaces the notes of
    every question of that id, wherever it is in the tree, by the sanitized
    text, and leaves all other questions as they were; of two updates of the
    same id the later one wins. *)
Theorem updateQuestionNotes_everywhere_last_wins `{Host}
    (questionId : string) (notes earlier : JsVal) (st : State) :
  (questionId <> "" ->
   forall (n m k : nat) (t : Topic) (s : Subtopic) (q : Question),
     topics st !! n = Some t -> t_subtopics t !! m = Some s ->
     s_questions s !! k = Some q ->
     question_at (topics (updateQuestionNotes questionId notes st)) n m k
     = Some (if is_str (q_id q) questionId
             then q_with_notes (sanitizeString notes "") q else q))
  /\ updateQuestionNotes questionId notes
       (updateQuestionNotes questionId earlier st)
     = updateQuestionNotes questionId notes st.
Proof.
  split; [intros Hq n m k t s q; by apply updateQuestionNotes_at|].
  unfold updateQuestionNotes. destruct (missing questionId); [done|].
  cbn [topics set_topics]. rewrite set_topics_twice. f_equal.
  rewrite <- list_fmap_compose. apply list_fmap_ext. intros _ t _. cbn.
  unfold t_with_subtopics. cbn. f_equal.
  rewrite <- list_fmap_compose. apply list_fmap_ext. intros _ s _. cbn.
  unfold s_with_questions. cbn. f_equal.
  rewrite <- list_fmap_compose. apply list_fmap_ext. intros _ q _. cbn.
  destruct (is_str (q_id q) questionId) eqn:E; cbn; by rewrite ?E.
Qed.

Lemma updateQuestionNotes_everywhere_last_wins_witness :
  question_at
    (topics (updateQuestionNotes (H := AsciiHost.host) "q2" (JStr " revisit ")
               Demo.state)) 0 0 1
  = Some (q_with_notes "revisit" (Demo.question "q2" "Three Sum" "Medium" true 1)).
Proof.
  apply (proj1 (updateQuestionNotes_everywhere_last_wins (H := AsciiHost.host)
                  "q2" (JStr " revisit ") JNull Demo.state)
           ltac:(discriminate) 0 0 1
           (mkTopic "A" "Arrays" 0 Demo.subtopics)
           (mkSubtopic "s1" "Basics" 0 Demo.questions)
           (Demo.question "q2" "Three Sum" "Medium" true 1)); reflexivity.
Defined.


(** ** Adding, then deleting *)

Lemma bfilter_keep_all {A : Type} (p : A -> bool) (l : list A) :
  (forall x, x ∈ l -> p x = true) -> List.filter p l = l.
Proof.
  induction l as [|x l IH]; intros Hp; [done|]. cbn.
  rewrite (Hp x) by apply list_elem_of_here. f_equal.
  apply IH. intros y Hy. apply Hp. by apply list_elem_of_further.
Qed.

Lemma bfilter_absent_id {A : Type} (key : A -> string) (id : string) (l : list A) :
  id ∉ key <$> l ->
  List.filter (fun x => negb (String.eqb (key x) id)) l = l.
Proof.
  intros Hid. apply bfilter_keep_all. intros x Hx.
  apply negb_true_iff, String.eqb_neq. intros E. apply Hid.
  rewrite <- E. by apply list_elem_of_fmap_2.
Qed.

Lemma state_eta_expandedTopics (st : State) :
  set_expandedTopics (expandedTopics st) st = st.
Proof. by destruct st. Qed.

Lemma state_eta_expandedSubtopics (st : State) :
  set_expandedSubtopics (expandedSubtopics st) st = st.
Proof. by destruct st. Qed.

(** X4. A topic added by [addTopic] and then deleted by [deleteTopic] under
    its generated id leaves the state as it was, provided that id was not in
    use, either by a topic or as a key of [expandedTopics]. *)
Theorem addTopic_then_deleteTopic `{Host} (uuid : string) (name : JsVal)
    (st : State) :
  generateId "topic" uuid ∉ t_id <$> topics st ->
  expandedTopics st !! generateId "topic" uuid = None ->
  deleteTopic (generateId "topic" uuid) (addTopic uuid name st) = st.
Proof.
  intros Hfresh Hkey. unfold addTopic, deleteTopic. cbn zeta.
  rewrite (missing_false (generateId "topic" uuid))
    by by apply generateId_nonempty.
  destruct (String.eqb (sanitizeString name "") "");
    cbn [topics expandedTopics set_topics set_expandedTopics].
  - rewrite delete_id, bfilter_absent_id by done. by destruct st.
  - rewrite delete_id by done. rewrite List.filter_app, bfilter_absent_id by done.
    cbn. rewrite String.eqb_refl. cbn. rewrite app_nil_r. by destruct st.
Qed.

Lemma addTopic_then_deleteTopic_witness :
  deleteTopic (generateId "topic" "0000")
    (addTopic (H := AsciiHost.host) "0000" (JStr "Heaps") Demo.state)
  = Demo.state.
Proof.
  apply (addTopic_then_deleteTopic (H := AsciiHost.host)).
  - apply (bool_decide_unpack _). vm_compute. exact I.
  - vm_compute. reflexivity.
Defined.

(** X5. A subtopic added by [addSubtopic] and then deleted by
    [deleteSubtopic] under its generated id leaves the state as it was,
    provided that id was not in use in the addressed topics or as a key of
    [expandedSubtopics]. *)
Theorem addSubtopic_then_deleteSubtopic `{Host} (uuid topicId : string)
    (name : JsVal) (st : State) :
  (forall t, t ∈ topics st -> t_id t = topicId ->
             generateId "subtopic" uuid ∉ s_id <$> t_subtopics t) ->
  expandedSubtopics st !! generateId "subtopic" uuid = None ->
  deleteSubtopic topicId (generateId "subtopic" uuid)
    (addSubtopic uuid topicId name st)
  = st.
Proof.
  intros Hfresh Hkey. unfold addSubtopic, deleteSubtopic. cbn zeta.
  rewrite (missing_false (generateId "subtopic" uuid))
    by by apply generateId_nonempty.
  destruct (missing topicId); [done|]. cbn [orb].
  assert (forall ts : list Topic,
             ts = topics st ->
             set_expandedSubtopics (delete (generateId "subtopic" uuid)
                                      (expandedSubtopics st))
               (set_topics ts st) = st) as Hback.
  { intros ts ->. rewrite delete_id by done. by destruct st. }
  destruct (String.eqb (sanitizeString name "") "");
    cbn [topics expandedSubtopics set_topics set_expandedSubtopics];
    rewrite ?set_topics_twice; apply Hback.
  - apply fmap_fixed. intros n t Hn.
    destruct (String.eqb_spec (t_id t) topicId) as [Et|]; [|done]. cbn [negb].
    rewrite bfilter_absent_id; [apply topic_eta|].
    apply Hfresh; [by eapply list_elem_of_lookup_2|done].
  - rewrite <- list_fmap_compose. apply fmap_fixed. intros n t Hn. cbn.
    destruct (String.eqb_spec (t_id t) topicId) as [Et|Et]; cbn [negb].
    + cbn. rewrite Et, String.eqb_refl. cbn [negb].
      rewrite List.filter_app, bfilter_absent_id.
      * cbn. rewrite String.eqb_refl. cbn. rewrite app_nil_r. by destruct t.
      * apply Hfresh; [by eapply list_elem_of_lookup_2|done].
    + by rewrite (proj2 (String.eqb_neq _ _) Et).
Qed.

Lemma addSubtopic_then_deleteSubtopic_witness :
  deleteSubtopic "A" (generateId "subtopic" "0000")
    (addSubtopic (H := AsciiHost.host) "0000" "A" (JStr "Prefix Sums") Demo.state)
  = Demo.state.
Proof.
  apply (addSubtopic_then_deleteSubtopic (H := AsciiHost.host)).
  - intros t Ht _. unfold Demo.state in Ht. cbn in Ht.
    unfold Demo.four_topics in Ht. rewrite !elem_of_cons, elem_of_nil in Ht.
    destruct Ht as [-> | [-> | [-> | [-> | []]]]];
      apply (bool_decide_unpack _); vm_compute; exact I.
  - vm_compute. reflexivity.
Defined.

Lemma deleteQuestion_absent (topicId subtopicId questionId : string) (st : State) :
  (forall t s, t ∈ topics st -> s ∈ t_subtopics t ->
               t_id t = topicId -> s_id s = subtopicId ->
               JStr questionId ∉ q_id <$> s_questions s) ->
  deleteQuestion topicId subtopicId questionId st = st.
Proof.
  intros Hfresh. unfold deleteQuestion. destruct (_ || _ || _); [done|].
  etrans; [|apply state_eta]. f_equal.
  apply fmap_fixed. intros n t Hn.
  destruct (String.eqb_spec (t_id t) topicId) as [Et|]; [|done]. cbn [negb].
  etrans; [|apply topic_eta]. f_equal.
  apply fmap_fixed. intros m s Hm.
  destruct (String.eqb_spec (s_id s) subtopicId) as [Es|]; [|done]. cbn [negb].
  etrans; [|apply subtopic_eta]. f_equal.
  apply bfilter_keep_all. intros q Hq.
  apply negb_true_iff. destruct (is_str _ _) eqn:E; [|done].
  apply is_str_key in E. exfalso.
  apply (Hfresh t s); try done; try by eapply list_elem_of_lookup_2.
  rewrite <- E. by apply list_elem_of_fmap_2.
Qed.

(** X6. A question added by [addQuestion] and then deleted by
    [deleteQuestion] under its generated id leaves the state as it was,
    provided no question of the addressed subtopics had that id. *)
Theorem addQuestion_then_deleteQuestion `{Host} (uuid topicId subtopicId : string)
    (questionData : JsVal) (st : State) :
  (forall t s, t ∈ topics st -> s ∈ t_subtopics t ->
               t_id t = topicId -> s_id s = subtopicId ->
               JStr (generateId "question" uuid) ∉ q_id <$> s_questions s) ->
  deleteQuestion topicId subtopicId (generateId "question" uuid)
    (addQuestion uuid topicId subtopicId questionData st)
  = st.
Proof.
  intros Hfresh. unfold addQuestion.
  destruct (missing topicId || missing subtopicId || negb (truthy questionData))
    eqn:Hguard; [by apply deleteQuestion_absent|].
  cbn zeta.
  destruct (String.eqb (sanitizeString (own questionData "title") "") "");
    [by apply deleteQuestion_absent|].
  apply orb_false_elim in Hguard as [Hguard _].
  apply orb_false_elim in Hguard as [Ht Hs].
  unfold deleteQuestion. rewrite Ht, Hs.
  rewrite (missing_false (generateId "question" uuid))
    by by apply generateId_nonempty.
  cbn [orb topics set_topics]. rewrite set_topics_twice.
  etrans; [|apply state_eta]. f_equal.
  rewrite <- list_fmap_compose. apply fmap_fixed. intros n t Hn. cbn.
  destruct (String.eqb_spec (t_id t) topicId) as [Et|Et]; cbn [negb];
    [|by rewrite (proj2 (String.eqb_neq _ _) Et)].
  cbn. rewrite Et, String.eqb_refl. cbn [negb].
  etrans; [|apply topic_eta]. unfold t_with_subtopics. f_equal.
  rewrite <- list_fmap_compose. apply fmap_fixed. intros m s Hm. cbn.
  destruct (String.eqb_spec (s_id s) subtopicId) as [Es|Es]; cbn [negb];
    [|by rewrite (proj2 (String.eqb_neq _ _) Es)].
  cbn. rewrite Es, String.eqb_refl. cbn [negb].
  etrans; [|apply subtopic_eta]. unfold s_with_questions. f_equal.
  rewrite List.filter_app. cbn. rewrite String.eqb_refl. cbn.
  rewrite app_nil_r. apply bfilter_keep_all. intros q Hq.
  apply negb_true_iff. destruct (is_str _ _) eqn:E; [|done].
  apply is_str_key in E. exfalso.
  apply (Hfresh t s); try done; try by eapply list_elem_of_lookup_2.
  rewrite <- E. by apply list_elem_of_fmap_2.
Qed.

Lemma addQuestion_then_deleteQuestion_witness :
  deleteQuestion "A" "s1" (generateId "question" "0000")
    (addQuestion (H := AsciiHost.host) "0000" "A" "s1"
       (JObj [("title", JStr "Container With Most Water")]) Demo.state)
  = Demo.state.
Proof.
  apply (addQuestion_then_deleteQuestion (H := AsciiHost.host)).
  intros t s Ht Hs _ _. unfold Demo.state in Ht. cbn in Ht.
  unfold Demo.four_topics in Ht. rewrite !elem_of_cons, elem_of_nil in Ht.
  destruct Ht as [-> | [-> | [-> | [-> | []]]]]; cbn in Hs;
    try by apply elem_of_nil in Hs.
  unfold Demo.subtopics in Hs. rewrite !elem_of_cons, elem_of_nil in Hs.
  destruct Hs as [-> | [-> | [-> | []]]]; cbn;
    try apply not_elem_of_nil.
  rewrite !not_elem_of_cons. repeat split; try discriminate.
  apply not_elem_of_nil.
Defined.


(** ** Which actions keep the orders dense *)

Lemma orders_snoc {A : Type} (order : A -> nat) (l : list A) (x : A) :
  order <$> l = seq 0 (length l) -> order x = length l ->
  order <$> (l ++ [x]) = seq 0 (length (l ++ [x])).
Proof.
  intros Hl Hx. rewrite fmap_app, length_app, Hl. cbn [length].
  rewrite Nat.add_1_r, seq_S. cbn. by rewrite Hx.
Qed.

Lemma orders_map {A : Type} (order : A -> nat) (f : A -> A) (l : list A) :
  (forall x, order (f x) = order x) ->
  order <$> l = seq 0 (length l) ->
  order <$> (f <$> l) = seq 0 (length (f <$> l)).
Proof.
  intros Hf Hl. rewrite length_fmap, <- Hl, <- list_fmap_compose.
  apply list_fmap_ext. intros _ x _. apply Hf.
Qed.

Lemma questions_dense_map (h : Question -> Question) (s : Subtopic) :
  (forall q, q_order (h q) = q_order q) ->
  questions_dense s ->
  questions_dense (s_with_questions (h <$> s_questions s) s).
Proof. intros Hh Hs. by apply orders_map. Qed.

Lemma subtopics_dense_map (g : Subtopic -> Subtopic) (t : Topic) :
  (forall s, s_order (g s) = s_order s) ->
  (forall s, questions_dense s -> questions_dense (g s)) ->
  subtopics_dense t ->
  subtopics_dense (t_with_subtopics (g <$> t_subtopics t) t).
Proof.
  intros Ho Hg [Ht Hss]. split; cbn; [by apply orders_map|].
  by apply Forall_map_pres.
Qed.

Lemma dense_map (f : Topic -> Topic) (ts : list Topic) :
  (forall t, t_order (f t) = t_order t) ->
  (forall t, subtopics_dense t -> subtopics_dense (f t)) ->
  densely_ordered ts -> densely_ordered (f <$> ts).
Proof.
  intros Ho Hf [Hts Hall]. split; [by apply orders_map|].
  by apply Forall_map_pres.
Qed.

Lemma reordered_dense {A : Type} `{OrderedLaws A} (P : A -> Prop)
    (p p' : A -> bool) (l : list A) :
  (forall k x, P x -> P (with_order k x)) ->
  order_of <$> l = seq 0 (length l) -> Forall P l ->
  forall r, reorderArray l (findIndex p l) (findIndex p' l) = Some r ->
            order_of <$> r = seq 0 (length r) /\ Forall P r.
Proof.
  intros Hw Hl HP r Hr.
  pose proof (Forall_reordered P p p' l Hw HP) as HF. rewrite Hr in HF.
  split; [|done].
  destruct (reorderArray_findIndex p p' l) as (i & j & [E | E]);
    rewrite E in Hr; injection Hr as <-; [done|].
  by rewrite order_of_renumber, length_renumber.
Qed.

Ltac dense_guards :=
  repeat match goal with
         | |- densely_ordered (topics (if ?c then _ else _)) => destruct c
         end;
  cbn [topics set_topics set_sheet set_expandedTopics set_expandedSubtopics
       set_loading set_error set_searchQuery set_filterDifficulty
       set_filterStatus set_theme set_showStats];
  try assumption.

(** X7. Every action other than [deleteTopic], [deleteSubtopic] and
    [deleteQuestion] keeps the tree densely ordered: if the [order] values
    of every sibling sequence are 0, 1, 2, ... before the action, they are
    afterwards. *)
Theorem dense_orders_kept_by_all_but_deletes `{Host} (a : Action) (st : State) :
  is_delete a = false ->
  densely_ordered (topics st) -> densely_ordered (topics (step a st)).
Proof.
  intros Ha Hst. destruct a; cbn [step]; try discriminate Ha.
  - (* fetchSheetData *)
    unfold fetchSheetData. dense_guards.
    destruct (transformSheetData uuid sheetData) as [e|[sh ts]] eqn:Hret;
      dense_guards.
    apply transformSheetData_returns_grouped in Hret as (records & _ & ->).
    apply grouped_densely_ordered.
  - (* resetProgress *) by split.
  - unfold toggleTopicExpansion. dense_guards.
  - unfold toggleSubtopicExpansion. dense_guards.
  - done.
  - done.
  - done.
  - done.
  - done.
  - done.
  - done.
  - (* toggleQuestionSolved *)
    unfold toggleQuestionSolved. dense_guards.
    apply dense_map; [done| |done]. intros t Ht.
    apply subtopics_dense_map; [done| |done]. intros s Hs.
    apply questions_dense_map; [|done]. intros q. by destruct (is_str _ _).
  - (* toggleAllInSubtopic *)
    unfold toggleAllInSubtopic, updateTopicsNested. dense_guards.
    apply dense_map; [| |done].
    { intros t. by destruct (_ && _). }
    intros t Ht. destruct (_ && _); [done|].
    apply subtopics_dense_map; [| |done].
    { intros s. by destruct (_ && _). }
    intros s Hs. destruct (_ && _); [done|].
    by apply questions_dense_map.
  - (* updateQuestionNotes *)
    unfold updateQuestionNotes. dense_guards.
    apply dense_map; [done| |done]. intros t Ht.
    apply subtopics_dense_map; [done| |done]. intros s Hs.
    apply questions_dense_map; [|done]. intros q. by destruct (is_str _ _).
  - (* addTopic *)
    unfold addTopic. cbn zeta. dense_guards. destruct Hst as [Hts Hall].
    split; [by apply orders_snoc|]. apply Forall_app. split; [done|].
    constructor; [|constructor]. split; [done|constructor].
  - (* updateTopic *)
    unfold updateTopic. cbn zeta. dense_guards.
    apply dense_map; [| |done]; intros t; by destruct (String.eqb _ _).
  - (* addSubtopic *)
    unfold addSubtopic. cbn zeta. dense_guards.
    apply dense_map; [| |done].
    { intros t. by destruct (negb _). }
    intros t [Ht Hss]. destruct (negb _); [done|]. split; cbn.
    + by apply orders_snoc.
    + apply Forall_app. split; [done|]. constructor; [|constructor]. done.
  - (* updateSubtopic *)
    unfold updateSubtopic. cbn zeta. dense_guards.
    apply dense_map; [| |done].
    { intros t. by destruct (negb _). }
    intros t Ht. destruct (negb _); [done|].
    apply subtopics_dense_map; [| |done]; intros s; by destruct (String.eqb _ _).
  - (* addQuestion *)
    unfold addQuestion. dense_guards. cbn zeta. dense_guards.
    apply dense_map; [| |done].
    { intros t. by destruct (negb _). }
    intros t Ht. destruct (negb _); [done|].
    apply subtopics_dense_map; [| |done].
    { intros s. by destruct (negb _). }
    intros s Hs. destruct (negb _); [done|].
    unfold questions_dense. cbn. by apply orders_snoc.
  - (* updateQuestion *)
    unfold updateQuestion. dense_guards.
    apply dense_map; [| |done].
    { intros t. by destruct (negb _). }
    intros t Ht. destruct (negb _); [done|].
    apply subtopics_dense_map; [| |done].
    { intros s. by destruct (negb _). }
    intros s Hs. destruct (negb _); [done|].
    apply questions_dense_map; [|done]. intros q. destruct (negb _); [done|].
    destruct (merge_question_fields questionData q) as (_ & _ & _ & E).
    unfold other_fields in E. congruence.
  - (* reorderTopics *)
    unfold reorderTopics. dense_guards. cbn zeta. dense_guards.
    destruct Hst as [Hts Hall].
    destruct (reorderArray _ _ _) as [r|] eqn:Hr; dense_guards; [|by split].
    exact (reordered_dense subtopics_dense _ _ _ ltac:(intros k x Hx; exact Hx) Hts Hall r Hr).
  - (* reorderSubtopics *)
    unfold reorderSubtopics. dense_guards.
    apply dense_map; [| |done].
    { intros t. destruct (negb _); [done|]. cbn zeta.
      destruct (_ || _); [done|]. by destruct (reorderArray _ _ _). }
    intros t [Ht Hss]. destruct (negb _); [done|]. cbn zeta.
    destruct (_ || _); [done|].
    destruct (reorderArray _ _ _) as [r|] eqn:Hr; [|done].
    exact (reordered_dense questions_dense _ _ _ ltac:(intros k x Hx; exact Hx) Ht Hss r Hr).
  - (* reorderQuestions *)
    unfold reorderQuestions. dense_guards.
    apply dense_map; [| |done].
    { intros t. by destruct (negb _). }
    intros t Ht. destruct (negb _); [done|].
    apply subtopics_dense_map; [| |done].
    { intros s. destruct (negb _); [done|]. cbn zeta.
      destruct (_ || _); [done|]. by destruct (reorderArray _ _ _). }
    intros s Hs. destruct (negb _); [done|]. cbn zeta.
    destruct (_ || _); [done|].
    destruct (reorderArray _ _ _) as [r|] eqn:Hr; [|done].
    unfold questions_dense in Hs.
    refine (proj1 (reordered_dense (A := Question) (fun _ => True)
                     (fun q => is_str (q_id q) activeId)
                     (fun q => is_str (q_id q) overId) (s_questions s)
                     ltac:(intros k x Hx; exact Hx) Hs _ r Hr)).
    by apply Forall_true.
Qed.

Lemma dense_orders_kept_by_all_but_deletes_witness :
  densely_ordered
    (topics (step (H := AsciiHost.host)
               (AddQuestion "0000" "A" "s1" (JObj [("title", JStr "3Sum Closest")]))
               Demo.state)).
Proof.
  apply (dense_orders_kept_by_all_but_deletes (H := AsciiHost.host)).
  - reflexivity.
  - split; [reflexivity|]. repeat constructor.
Defined.


Lemma gap_after_removal (o1 o2 : list nat) (o : nat) :
  o1 ++ o :: o2 = seq 0 (length (o1 ++ o :: o2)) -> o2 <> [] ->
  o1 ++ o2 <> seq 0 (length (o1 ++ o2)).
Proof.
  intros Hseq Hne Hbad. destruct o2 as [|x o2]; [done|].
  rewrite length_app in Hseq, Hbad. cbn [length] in Hseq, Hbad.
  rewrite seq_app in Hseq, Hbad. cbn [seq] in Hseq, Hbad.
  apply app_inj_1 in Hseq as [_ Hseq]; [|by rewrite length_seq].
  apply app_inj_1 in Hbad as [_ Hbad]; [|by rewrite length_seq].
  injection Hseq as _ Hseq. injection Hbad as Hbad _.
  cbn in Hseq. lia.
Qed.

(** X8. [deleteTopic] takes the topic of the given id out and keeps the
    other topics as they are, [order] included: when the orders were dense
    and the deleted topic was not the last one, they are no longer dense
    afterwards. *)
Theorem deleteTopic_keeps_orders_and_leaves_a_gap (topicId : string) (st : State)
    (before after : list Topic) (t : Topic) :
  topicId <> "" ->
  topics st = before ++ t :: after ->
  t_id t = topicId ->
  topicId ∉ t_id <$> before -> topicId ∉ t_id <$> after ->
  topics (deleteTopic topicId st) = before ++ after
  /\ (t_order <$> topics st = seq 0 (length (topics st)) -> after <> [] ->
      t_order <$> topics (deleteTopic topicId st)
      <> seq 0 (length (topics (deleteTopic topicId st)))).
Proof.
  intros Hid Hts Ht Hb Ha.
  assert (topics (deleteTopic topicId st) = before ++ after) as Hdel.
  { unfold deleteTopic. rewrite missing_false by done.
    cbn [topics set_topics set_expandedTopics]. rewrite Hts, List.filter_app.
    cbn. rewrite Ht, String.eqb_refl. cbn.
    by rewrite !bfilter_absent_id. }
  split; [done|]. rewrite Hdel, Hts. intros Hdense Hne.
  rewrite fmap_app in *. cbn [fmap list_fmap] in Hdense.
  rewrite <- (length_fmap t_order (before ++ after)), fmap_app.
  apply (gap_after_removal _ _ (t_order t)).
  - rewrite Hdense. by rewrite length_seq.
  - by destruct after.
Qed.

Lemma deleteTopic_keeps_orders_and_leaves_a_gap_witness :
  topics (deleteTopic "B" Demo.state)
  = [mkTopic "A" "Arrays" 0 Demo.subtopics]
      ++ [mkTopic "C" "Graphs" 2 []; mkTopic "D" "Trees" 3 []]
  /\ (t_order <$> topics Demo.state = seq 0 (length (topics Demo.state)) ->
      [mkTopic "C" "Graphs" 2 []; mkTopic "D" "Trees" 3 []] <> [] ->
      t_order <$> topics (deleteTopic "B" Demo.state)
      <> seq 0 (length (topics (deleteTopic "B" Demo.state)))).
Proof.
  apply (deleteTopic_keeps_orders_and_leaves_a_gap "B" Demo.state
           [mkTopic "A" "Arrays" 0 Demo.subtopics]
           [mkTopic "C" "Graphs" 2 []; mkTopic "D" "Trees" 3 []]
           (mkTopic "B" "Strings" 1 [])).
  - discriminate.
  - reflexivity.
  - reflexivity.
  - apply (bool_decide_unpack _). vm_compute. exact I.
  - apply (bool_decide_unpack _). vm_compute. exact I.
Defined.


(** ** What the statistics count *)

Lemma bucket_of_bump_total (m : gmap string Bucket) (d' d : string) :
  buckets_ok m -> d' ∈ DIFFICULTY_LEVELS.values ->
  bucket_of (bump_total d' m) d
  = if String.eqb d' d
    then mkBucket (S (b_total (bucket_of m d))) (b_solved (bucket_of m d))
    else bucket_of m d.
Proof.
  intros Hm Hd. destruct (buckets_ok_lookup m d' Hm Hd) as [b Hb].
  unfold bump_total, bucket_of. rewrite Hb.
  destruct (String.eqb_spec d' d) as [<-|Hne].
  - by rewrite lookup_insert_eq, Hb.
  - by rewrite lookup_insert_ne.
Qed.

Lemma bucket_of_bump_solved (m : gmap string Bucket) (d' d : string) :
  buckets_ok m -> d' ∈ DIFFICULTY_LEVELS.values ->
  bucket_of (bump_solved d' m) d
  = if String.eqb d' d
    then mkBucket (b_total (bucket_of m d)) (S (b_solved (bucket_of m d)))
    else bucket_of m d.
Proof.
  intros Hm Hd. destruct (buckets_ok_lookup m d' Hm Hd) as [b Hb].
  unfold bump_solved, bucket_of. rewrite Hb.
  destruct (String.eqb_spec d' d) as [<-|Hne].
  - by rewrite lookup_insert_eq, Hb.
  - by rewrite lookup_insert_ne.
Qed.

Lemma count_question_counted (acc : Stats * TopicStats) (q : Question) :
  buckets_ok (byDifficulty acc.1) -> counted acc (count_question acc q) [q].
Proof.
  destruct acc as [stats ts]. cbn [fst]. intros Hm.
  pose proof (validateDifficulty_canonical (q_difficulty q)) as Hd.
  destruct (bump_total_sums _ _ Hm Hd) as (Hm1 & _ & _).
  destruct (bump_solved_sums _ _ Hm1 Hd) as (Hm2 & _ & _).
  unfold count_question, counted, solved_count, in_bucket.
  destruct (q_isSolved q) eqn:Hq; cbn [fst snd byDifficulty stats_total
    stats_solved byTopic ts_name ts_total ts_solved length List.filter];
    rewrite Hq; cbn [length];
    (split; [done|]); repeat split; try (f_equal; lia); intros d;
    rewrite ?bucket_of_bump_solved, bucket_of_bump_total by done;
    destruct (String.eqb _ d); cbn [List.filter length b_total b_solved];
    rewrite ?Hq; cbn [length b_total b_solved];
    destruct (bucket_of (byDifficulty stats) d); cbn [b_total b_solved];
    f_equal; lia.
Qed.

Lemma counted_refl (acc : Stats * TopicStats) :
  buckets_ok (byDifficulty acc.1) -> counted acc acc [].
Proof.
  intros Hm. unfold counted, solved_count. cbn [length List.filter].
  repeat split; try done; try lia.
  - destruct acc as [? []]; cbn. f_equal; lia.
  - intros d. destruct (bucket_of _ d); cbn. f_equal; lia.
Qed.

Lemma counted_trans (a b c : Stats * TopicStats) (qs rs : list Question) :
  counted a b qs -> counted b c rs -> counted a c (qs ++ rs).
Proof.
  unfold counted, solved_count.
  intros (_ & Ht1 & Hs1 & Hb1 & Hts1 & Hd1) (Hm & Ht2 & Hs2 & Hb2 & Hts2 & Hd2).
  rewrite List.filter_app, !length_app.
  split; [done|]. split; [lia|]. split; [lia|]. split; [congruence|].
  split.
  - rewrite Hts2, Hts1. cbn. f_equal; lia.
  - intros d. rewrite Hd2, Hd1. cbn [b_total b_solved].
    rewrite !List.filter_app, !length_app. f_equal; lia.
Qed.

Lemma foldl_count_question (qs : list Question) (acc : Stats * TopicStats) :
  buckets_ok (byDifficulty acc.1) ->
  counted acc (foldl count_question acc qs) qs.
Proof.
  revert acc. induction qs as [|q qs IH]; intros acc Hm.
  - by apply counted_refl.
  - cbn [foldl]. pose proof (count_question_counted acc q Hm) as H1.
    apply (counted_trans _ _ _ [q] qs H1). apply IH. apply H1.
Qed.

Lemma foldl_concat {A B} (f : A -> B -> A) (a : A) (ls : list (list B)) :
  foldl f a (concat ls) = foldl (fun acc l => foldl f acc l) a ls.
Proof.
  revert a. induction ls as [|l ls IH]; intros a; [done|].
  cbn [concat foldl]. by rewrite foldl_app, IH.
Qed.

Lemma foldl_count_subtopic (subs : list Subtopic) (acc : Stats * TopicStats) :
  foldl count_subtopic acc subs
  = foldl count_question acc (concat (s_questions <$> subs)).
Proof.
  revert acc. induction subs as [|s subs IH]; intros acc; [done|].
  cbn [fmap list_fmap concat foldl]. rewrite foldl_app. apply IH.
Qed.

Lemma count_topic_tallied (stats : Stats) (t : Topic) :
  buckets_ok (byDifficulty stats) -> tallied stats (count_topic stats t) [t].
Proof.
  intros Hm. unfold count_topic. rewrite foldl_count_subtopic.
  pose proof (foldl_count_question (topic_questions t)
                (stats, mkTopicStats (t_name t) 0 0) Hm) as Hc.
  fold (topic_questions t).
  destruct (foldl count_question _ (topic_questions t)) as [stats' ts'].
  destruct Hc as (Hm' & Ht & Hs & Hb & Hts & Hd). cbn [fst snd] in *.
  unfold tallied, all_questions.
  cbn [fmap list_fmap concat byDifficulty stats_total stats_solved byTopic].
  rewrite app_nil_r.
  repeat split; try done. by rewrite Hb, Hts.
Qed.

Lemma foldl_count_topic (ts : list Topic) (stats : Stats) :
  buckets_ok (byDifficulty stats) ->
  tallied stats (foldl count_topic stats ts) ts.
Proof.
  revert stats. induction ts as [|t ts IH]; intros stats Hm.
  - unfold tallied, all_questions, solved_count.
    cbn [foldl fmap list_fmap concat List.filter length].
    rewrite app_nil_r. repeat split; try done; try lia.
    intros d. destruct (bucket_of _ d); cbn. f_equal; lia.
  - cbn [foldl].
    destruct (count_topic_tallied stats t Hm) as (Hm1 & Ht1 & Hs1 & Hb1 & Hd1).
    destruct (IH _ Hm1) as (Hm2 & Ht2 & Hs2 & Hb2 & Hd2).
    unfold tallied, all_questions, solved_count in *.
    cbn [fmap list_fmap concat] in *. rewrite app_nil_r in *.
    rewrite !List.filter_app, !length_app.
    split; [done|]. split; [lia|]. split; [lia|]. split.
    + by rewrite Hb2, Hb1, <- app_assoc.
    + intros d. rewrite Hd2, Hd1. cbn [b_total b_solved].
      rewrite !List.filter_app, !length_app. f_equal; lia.
Qed.

Lemma empty_stats_buckets_ok : buckets_ok (byDifficulty empty_stats).
Proof. apply (bool_decide_unpack _). by vm_compute. Qed.

Lemma calculateDetailedStats_tallied (topics : list Topic) :
  tallied empty_stats (calculateDetailedStats topics) topics.
Proof. apply foldl_count_topic, empty_stats_buckets_ok. Qed.

(** X9.  [calculateDetailedStats] counts exactly what is in the tree: the
    overall numbers are the number of questions and of solved questions,
    the bucket of each canonical difficulty holds the questions whose
    normalised difficulty it is (and the solved ones among them), and
    [byTopic] has one row per topic, in tree order, with the counts of that
    topic's own questions. *)
Theorem calculateDetailedStats_counts_the_tree (topics : list Topic) :
  let stats := calculateDetailedStats topics in
  let qs := all_questions topics in
  stats_total stats = length qs
  /\ stats_solved stats = solved_count qs
  /\ (forall d, d ∈ DIFFICULTY_LEVELS.values ->
        byDifficulty stats !! d
        = Some (mkBucket (length (List.filter (in_bucket d) qs))
                  (solved_count (List.filter (in_bucket d) qs))))
  /\ byTopic stats = topic_row <$> topics.
Proof.
  cbn zeta.
  destruct (calculateDetailedStats_tallied topics) as (Hm & Ht & Hs & Hb & Hd).
  split; [by rewrite Ht|]. split; [by rewrite Hs|]. split; [|by rewrite Hb].
  intros d Hin. specialize (Hd d).
  assert (bucket_of (byDifficulty empty_stats) d = mkBucket 0 0) as H0.
  { unfold bucket_of.
    destruct (byDifficulty empty_stats !! d) as [b0|] eqn:Hl0; [|done].
    revert Hl0. unfold DIFFICULTY_LEVELS.values in Hin.
    rewrite !elem_of_cons, elem_of_nil in Hin.
    by destruct Hin as [-> | [-> | [-> | [-> | []]]]]; vm_compute;
      intros [= <-]. }
  rewrite H0 in Hd. cbn [b_total b_solved plus] in Hd.
  destruct (buckets_ok_lookup _ d Hm Hin) as [b Hl].
  unfold bucket_of in Hd. rewrite Hl in Hd. cbn in Hd. by rewrite Hl, Hd.
Qed.

(** ** The progress selectors *)

Lemma solved_count_le (qs : list Question) : solved_count qs <= length qs.
Proof. apply List.filter_length_le. Qed.

Lemma solved_count_app (qs rs : list Question) :
  solved_count (qs ++ rs) = solved_count qs + solved_count rs.
Proof. unfold solved_count. by rewrite List.filter_app, length_app. Qed.

Lemma topic_progress_loop (subs : list Subtopic) (acc : Progress) :
  foldl
    (fun acc subtopic =>
       mkProgress
         (p_total acc + length (s_questions subtopic))
         (p_solved acc + length (List.filter q_isSolved (s_questions subtopic))))
    acc subs
  = mkProgress
      (p_total acc + length (concat (s_questions <$> subs)))
      (p_solved acc + solved_count (concat (s_questions <$> subs))).
Proof.
  revert acc. induction subs as [|s subs IH]; intros acc.
  - destruct acc. cbn. f_equal; lia.
  - cbn [foldl fmap list_fmap concat]. rewrite IH. cbn [p_total p_solved].
    rewrite solved_count_app, length_app. unfold solved_count. f_equal; lia.
Qed.

Lemma calculateTopicProgress_counts (t : Topic) :
  calculateTopicProgress t
  = mkProgress (length (topic_questions t)) (solved_count (topic_questions t)).
Proof. unfold calculateTopicProgress. by rewrite topic_progress_loop. Qed.

Lemma total_progress_inner (subs : list Subtopic) (acc : nat * nat) :
  foldl
    (fun acc subtopic =>
       (acc.1 + length (s_questions subtopic),
        acc.2 + length (List.filter q_isSolved (s_questions subtopic))))
    acc subs
  = (acc.1 + length (concat (s_questions <$> subs)),
     acc.2 + solved_count (concat (s_questions <$> subs))).
Proof.
  revert acc. induction subs as [|s subs IH]; intros acc.
  - destruct acc. cbn. f_equal; lia.
  - cbn [foldl fmap list_fmap concat]. rewrite IH. cbn [fst snd].
    rewrite solved_count_app, length_app. unfold solved_count. f_equal; lia.
Qed.

Lemma total_progress_outer (topics : list Topic) (acc : nat * nat) :
  foldl
    (fun acc topic =>
       foldl
         (fun acc subtopic =>
            (acc.1 + length (s_questions subtopic),
             acc.2 + length (List.filter q_isSolved (s_questions subtopic))))
         acc (t_subtopics topic))
    acc topics
  = (acc.1 + length (all_questions topics),
     acc.2 + solved_count (all_questions topics)).
Proof.
  revert acc. induction topics as [|t ts IH]; intros acc.
  - destruct acc. cbn. f_equal; lia.
  - cbn [foldl]. rewrite total_progress_inner, IH. cbn [fst snd].
    unfold all_questions. cbn [fmap list_fmap concat].
    rewrite solved_count_app, length_app. unfold topic_questions.
    f_equal; lia.
Qed.

Lemma calculateTotalProgress_counts `{Rounding} (topics : list Topic) :
  tp_total (calculateTotalProgress topics) = length (all_questions topics)
  /\ tp_solved (calculateTotalProgress topics)
     = solved_count (all_questions topics).
Proof.
  unfold calculateTotalProgress. rewrite total_progress_outer. by cbn.
Qed.

Lemma length_all_questions (topics : list Topic) :
  length (all_questions topics)
  = sum_list ((fun t => length (topic_questions t)) <$> topics).
Proof.
  unfold all_questions. induction topics as [|t ts IH]; [done|].
  cbn [fmap list_fmap concat sum_list sum_list_with]. rewrite length_app.
  cbn in IH. by rewrite IH.
Qed.

Lemma solved_all_questions (topics : list Topic) :
  solved_count (all_questions topics)
  = sum_list ((fun t => solved_count (topic_questions t)) <$> topics).
Proof.
  unfold all_questions. induction topics as [|t ts IH]; [done|].
  cbn [fmap list_fmap concat sum_list sum_list_with].
  rewrite solved_count_app. cbn in IH. by rewrite IH.
Qed.

(** X10.  The three ways the store counts agree: the overall progress has
    the totals of the detailed statistics, both are the sums of the
    per-topic progress, each [byTopic] row is that topic's progress, and
    solved never exceeds total.  Without questions the percentage is 0,
    whatever the host's rounding. *)
Theorem progress_agrees_with_stats `{Rounding} (topics : list Topic) :
  let progress := calculateTotalProgress topics in
  let stats := calculateDetailedStats topics in
  tp_total progress = stats_total stats
  /\ tp_solved progress = stats_solved stats
  /\ tp_total progress
     = sum_list ((fun t => p_total (calculateTopicProgress t)) <$> topics)
  /\ tp_solved progress
     = sum_list ((fun t => p_solved (calculateTopicProgress t)) <$> topics)
  /\ byTopic stats
     = (fun t => mkTopicStats (t_name t)
                   (p_total (calculateTopicProgress t))
                   (p_solved (calculateTopicProgress t))) <$> topics
  /\ tp_solved progress <= tp_total progress
  /\ (all_questions topics = [] -> tp_percentage progress = 0).
Proof.
  cbn zeta.
  destruct (calculateTotalProgress_counts topics) as [Ht Hs].
  destruct (calculateDetailedStats_tallied topics) as (_ & Ht' & Hs' & Hb & _).
  cbn in Ht', Hs', Hb. rewrite Ht, Hs, Ht', Hs', Hb.
  repeat split.
  - rewrite length_all_questions. f_equal. apply list_fmap_ext.
    intros _ t _. by rewrite calculateTopicProgress_counts.
  - rewrite solved_all_questions. f_equal. apply list_fmap_ext.
    intros _ t _. by rewrite calculateTopicProgress_counts.
  - apply list_fmap_ext. intros _ t _.
    by rewrite calculateTopicProgress_counts.
  - apply solved_count_le.
  - intros Hq. unfold calculateTotalProgress.
    rewrite total_progress_outer, Hq. by cbn.
Qed.

(** X11.  A topic's progress is the sum of the progress of its subtopics,
    and in both solved never exceeds total. *)
Theorem calculateTopicProgress_sums_subtopics (topic : Topic) :
  let progress := calculateTopicProgress topic in
  p_total progress
  = sum_list ((fun s => p_total (calculateSubtopicProgress s))
                <$> t_subtopics topic)
  /\ p_solved progress
     = sum_list ((fun s => p_solved (calculateSubtopicProgress s))
                   <$> t_subtopics topic)
  /\ p_solved progress <= p_total progress
  /\ Forall (fun s => p_solved (calculateSubtopicProgress s)
                      <= p_total (calculateSubtopicProgress s))
       (t_subtopics topic).
Proof.
  cbn zeta. rewrite calculateTopicProgress_counts. cbn [p_total p_solved].
  unfold topic_questions. repeat split.
  - induction (t_subtopics topic) as [|s subs IH]; [done|].
    cbn [fmap list_fmap concat sum_list sum_list_with]. rewrite length_app.
    cbn in IH. by rewrite IH.
  - induction (t_subtopics topic) as [|s subs IH]; [done|].
    cbn [fmap list_fmap concat sum_list sum_list_with].
    rewrite solved_count_app. cbn in IH. by rewrite IH.
  - apply solved_count_le.
  - apply Forall_forall. intros s _. apply (solved_count_le (s_questions s)).
Qed.

(** ** More on filtering *)

Section FilterFacts.
Context `{Host}.

Lemma filter_filter_andb {A} (f g : A -> bool) (l : list A) :
  List.filter f (List.filter g l) = List.filter (fun x => g x && f x) l.
Proof.
  induction l as [|x l IH]; [done|]. cbn [List.filter].
  destruct (g x); cbn [List.filter andb]; [|done].
  destruct (f x); by rewrite IH.
Qed.

Lemma kept_splits (searchQuery filterDifficulty filterStatus : string)
    (q : Question) :
  trim (toLowerCase "") = "" ->
  kept searchQuery filterDifficulty filterStatus q
  = kept searchQuery FILTER_ALL FILTER_ALL q
    && kept "" filterDifficulty FILTER_ALL q
    && kept "" "" filterStatus q.
Proof.
  intros Hn. unfold kept. rewrite Hn. cbn [String.eqb Ascii.eqb negb andb].
  change (String.eqb FILTER_ALL FILTER_ALL) with true.
  change (String.eqb FILTER_ALL FILTER_SOLVED) with false.
  change (String.eqb FILTER_ALL FILTER_UNSOLVED) with false.
  cbn [negb andb].
  destruct (negb (String.eqb (trim (toLowerCase searchQuery)) "")
            && negb (includes (toLowerCase (q_title q))
                       (trim (toLowerCase searchQuery)))); [done|].
  cbn [andb].
  destruct (negb (String.eqb filterDifficulty "")
            && negb (String.eqb filterDifficulty FILTER_ALL)
            && negb (is_str (q_difficulty q) filterDifficulty)); [done|].
  by cbn [andb].
Qed.

End FilterFacts.

(** X12.  The three criteria of [filterQuestions] are independent: filtering
    by all three at once gives the same array as filtering by the search
    text alone, then by the difficulty alone, then by the status alone,
    provided the host normalises the empty search text to the empty string. *)
Theorem filterQuestions_composes_criteria `{Host}
    (questions : list Question)
    (searchQuery filterDifficulty filterStatus : string) :
  trim (toLowerCase "") = "" ->
  filterQuestions questions searchQuery filterDifficulty filterStatus
  = filterQuestions
      (filterQuestions
         (filterQuestions questions searchQuery FILTER_ALL FILTER_ALL)
         "" filterDifficulty FILTER_ALL)
      "" "" filterStatus.
Proof.
  intros Hn. unfold filterQuestions. rewrite !filter_filter_andb.
  apply List.filter_ext. intros q.
  rewrite (kept_splits searchQuery filterDifficulty filterStatus q Hn).
  by rewrite andb_assoc.
Qed.

Lemma filterQuestions_composes_criteria_witness :
  filterQuestions (H := AsciiHost.host) Demo.filter_fixture
    "two sum" "Easy" "unsolved"
  = filterQuestions (H := AsciiHost.host)
      (filterQuestions (H := AsciiHost.host)
         (filterQuestions (H := AsciiHost.host) Demo.filter_fixture "two sum"
            FILTER_ALL FILTER_ALL)
         "" "Easy" FILTER_ALL)
      "" "" "unsolved".
Proof.
  apply (filterQuestions_composes_criteria (H := AsciiHost.host)).
  reflexivity.
Defined.

Lemma kept_lenient `{Host} (searchQuery filterDifficulty filterStatus : string)
    (q : Question) :
  kept searchQuery "" filterStatus q
  = kept searchQuery FILTER_ALL filterStatus q
  /\ (filterStatus <> FILTER_SOLVED -> filterStatus <> FILTER_UNSOLVED ->
      kept searchQuery filterDifficulty filterStatus q
      = kept searchQuery filterDifficulty FILTER_ALL q).
Proof.
  unfold kept. split.
  - done.
  - intros H1 H2. apply String.eqb_neq in H1, H2. rewrite H1, H2.
    change (String.eqb FILTER_ALL FILTER_SOLVED) with false.
    by change (String.eqb FILTER_ALL FILTER_UNSOLVED) with false.
Qed.

(** X13.  [filterQuestions] is lenient about its filter arguments: an empty
    difficulty filter behaves like "all", and so does every status filter
    other than "solved" and "unsolved". *)
Theorem filterQuestions_reads_unknown_filters_as_all `{Host}
    (questions : list Question)
    (searchQuery filterDifficulty filterStatus : string) :
  filterQuestions questions searchQuery "" filterStatus
  = filterQuestions questions searchQuery FILTER_ALL filterStatus
  /\ (filterStatus <> FILTER_SOLVED -> filterStatus <> FILTER_UNSOLVED ->
      filterQuestions questions searchQuery filterDifficulty filterStatus
      = filterQuestions questions searchQuery filterDifficulty FILTER_ALL).
Proof.
  unfold filterQuestions. split.
  - apply List.filter_ext. intros q.
    apply (kept_lenient searchQuery filterDifficulty filterStatus q).
  - intros H1 H2. apply List.filter_ext. intros q.
    by apply (kept_lenient searchQuery filterDifficulty filterStatus q).
Qed.

Lemma kept_by_status `{Host} (searchQuery filterDifficulty : string)
    (q : Question) :
  kept searchQuery filterDifficulty FILTER_SOLVED q
  = kept searchQuery filterDifficulty FILTER_ALL q && q_isSolved q
  /\ kept searchQuery filterDifficulty FILTER_UNSOLVED q
     = kept searchQuery filterDifficulty FILTER_ALL q && negb (q_isSolved q).
Proof.
  unfold kept.
  change (String.eqb FILTER_ALL FILTER_SOLVED) with false.
  change (String.eqb FILTER_ALL FILTER_UNSOLVED) with false.
  change (String.eqb FILTER_SOLVED FILTER_SOLVED) with true.
  change (String.eqb FILTER_SOLVED FILTER_UNSOLVED) with false.
  change (String.eqb FILTER_UNSOLVED FILTER_SOLVED) with false.
  change (String.eqb FILTER_UNSOLVED FILTER_UNSOLVED) with true.
  destruct (negb (String.eqb (trim (toLowerCase searchQuery)) "")
            && negb (includes (toLowerCase (q_title q))
                       (trim (toLowerCase searchQuery)))); [done|].
  destruct (negb (String.eqb filterDifficulty "")
            && negb (String.eqb filterDifficulty FILTER_ALL)
            && negb (is_str (q_difficulty q) filterDifficulty)); [done|].
  by destruct (q_isSolved q).
Qed.

Lemma filter_partition {A} (f g : A -> bool) (l : list A) :
  List.filter (fun x => f x && g x) l
    ++ List.filter (fun x => f x && negb (g x)) l
  ≡ₚ List.filter f l.
Proof.
  induction l as [|x l IH]; [done|]. cbn [List.filter].
  destruct (f x), (g x); cbn [andb negb app]; try done.
  - by rewrite IH.
  - by rewrite <- Permutation_middle, IH.
Qed.

(** X14.  The status filter splits the questions that pass the other two
    criteria: those kept under "solved" and those kept under "unsolved" are
    disjoint by their flag, and together they are, up to order, the
    questions kept under "all". *)
Theorem filterQuestions_status_partitions `{Host}
    (questions : list Question) (searchQuery filterDifficulty : string) :
  let solved :=
    filterQuestions questions searchQuery filterDifficulty FILTER_SOLVED in
  let unsolved :=
    filterQuestions questions searchQuery filterDifficulty FILTER_UNSOLVED in
  Forall (fun q => q_isSolved q = true) solved
  /\ Forall (fun q => q_isSolved q = false) unsolved
  /\ solved ++ unsolved
     ≡ₚ filterQuestions questions searchQuery filterDifficulty FILTER_ALL.
Proof.
  cbn zeta. unfold filterQuestions.
  rewrite (List.filter_ext _
             (fun q => kept searchQuery filterDifficulty FILTER_ALL q
                       && q_isSolved q))
    by (intros q; apply (kept_by_status searchQuery filterDifficulty q)).
  rewrite (List.filter_ext
             (kept searchQuery filterDifficulty FILTER_UNSOLVED)
             (fun q => kept searchQuery filterDifficulty FILTER_ALL q
                       && negb (q_isSolved q)))
    by (intros q; apply (kept_by_status searchQuery filterDifficulty q)).
  split; [|split].
  - apply Forall_forall. intros q Hq. apply list_elem_of_In in Hq.
    apply List.filter_In in Hq as [_ Hq]. by apply andb_true_iff in Hq as [_ ?].
  - apply Forall_forall. intros q Hq. apply list_elem_of_In in Hq.
    apply List.filter_In in Hq as [_ Hq]. apply andb_true_iff in Hq as [_ Hq].
    by apply negb_true_iff in Hq.
  - apply filter_partition.
Qed.

(** ** The validators *)

Lemma str_in_values (d : string) :
  str_in d DIFFICULTY_LEVELS.values = true <-> d ∈ DIFFICULTY_LEVELS.values.
Proof.
  unfold str_in. rewrite existsb_exists. split.
  - intros (x & Hx & E). apply String.eqb_eq in E as ->.
    by apply list_elem_of_In.
  - intros Hd. exists d. split; [by apply list_elem_of_In|].
    apply String.eqb_refl.
Qed.

(** X15.  [validateDifficulty] projects onto the four difficulty levels: its
    result is always one of them, it returns a string unchanged exactly when
    that string is one of them, and so validating twice changes nothing. *)
Theorem validateDifficulty_projects_onto_levels (difficulty : JsVal) :
  validateDifficulty difficulty ∈ DIFFICULTY_LEVELS.values
  /\ (forall d, validateDifficulty (JStr d) = d
                <-> d ∈ DIFFICULTY_LEVELS.values)
  /\ validateDifficulty (JStr (validateDifficulty difficulty))
     = validateDifficulty difficulty.
Proof.
  assert (forall d, d ∈ DIFFICULTY_LEVELS.values -> validateDifficulty (JStr d) = d)
    as Hfix.
  { intros d Hd. apply str_in_values in Hd. unfold validateDifficulty.
    by rewrite Hd. }
  split; [apply validateDifficulty_canonical|]. split.
  - intros d. split; [|apply Hfix].
    intros <-. apply validateDifficulty_canonical.
  - apply Hfix, validateDifficulty_canonical.
Qed.

(** X16.  What [validateUrl] returns is empty or the trimmed input, and then
    either parses as a URL or starts with "http".  On a host whose [trim]
    leaves the trimmed input as it is, validating the result again returns
    it unchanged. *)
Theorem validateUrl_returns_trimmed_and_is_stable `{Host} (url : JsVal) :
  (forall s, url = JStr s -> trim (trim s) = trim s) ->
  (validateUrl url = ""
   \/ exists s, url = JStr s /\ validateUrl url = trim s
                /\ (url_parses (trim s) = true
                    \/ String.prefix "http" (trim s) = true))
  /\ validateUrl (JStr (validateUrl url)) = validateUrl url.
Proof.
  intros Htrim.
  assert (validateUrl (JStr "") = "") as Hempty by done.
  destruct url as [| | | |s| |]; try (split; [by left|done]).
  specialize (Htrim s eq_refl). cbn [validateUrl].
  destruct (String.eqb s ""); [by split; [left|] |].
  destruct (String.eqb_spec (trim s) "") as [E|Hne]; [by split; [left|] |].
  destruct (url_parses (trim s)) eqn:Hp.
  - split; [right; exists s; by repeat split; try left|].
    cbn [validateUrl]. rewrite Htrim, Hp.
    destruct (String.eqb_spec (trim s) ""); [done|].
    by destruct (String.eqb_spec (trim s) "").
  - destruct (String.prefix "http" (trim s)) eqn:Hh; [|by split; [left|]].
    split; [right; exists s; by repeat split; try right|].
    cbn [validateUrl]. rewrite Htrim, Hp, Hh.
    destruct (String.eqb_spec (trim s) ""); [done|].
    by destruct (String.eqb_spec (trim s) "").
Qed.

Lemma validateUrl_returns_trimmed_and_is_stable_witness :
  (validateUrl (H := AsciiHost.host) (JStr "  http//x ") = ""
   \/ exists s, JStr "  http//x " = JStr s
                /\ validateUrl (H := AsciiHost.host) (JStr "  http//x ")
                   = trim (Host := AsciiHost.host) s
                /\ (url_parses (Host := AsciiHost.host)
                      (trim (Host := AsciiHost.host) s) = true
                    \/ String.prefix "http" (trim (Host := AsciiHost.host) s)
                       = true))
  /\ validateUrl (H := AsciiHost.host)
       (JStr (validateUrl (H := AsciiHost.host) (JStr "  http//x ")))
     = validateUrl (H := AsciiHost.host) (JStr "  http//x ").
Proof.
  apply (validateUrl_returns_trimmed_and_is_stable (H := AsciiHost.host)).
  intros s Hs. injection Hs as <-. reflexivity.
Defined.

(** ** More on ingest *)

Section GroupCover.
Context {E : Type}.
Variable key : E -> string.

Lemma filter_split_key (k : string) (ks : list string) (es : list E) :
  k ∉ ks ->
  List.filter (fun e => bool_decide (key e ∈ k :: ks)) es
  ≡ₚ List.filter (fun e => String.eqb (key e) k) es
       ++ List.filter (fun e => bool_decide (key e ∈ ks)) es.
Proof.
  intros Hk. induction es as [|e es IH]; [done|]. cbn [List.filter].
  destruct (String.eqb_spec (key e) k) as [Heq|Hne].
  - rewrite bool_decide_eq_true_2 by (rewrite Heq; apply list_elem_of_here).
    rewrite (bool_decide_eq_false_2 (key e ∈ ks)) by by rewrite Heq.
    cbn [app]. by rewrite IH.
  - destruct (decide (key e ∈ ks)) as [Hin|Hnin].
    + rewrite !bool_decide_eq_true_2
        by (try apply list_elem_of_further; done).
      by rewrite <- Permutation_middle, IH.
    + rewrite !bool_decide_eq_false_2
        by (rewrite ?elem_of_cons; tauto).
      done.
Qed.

Lemma groups_perm (ks : list string) (es : list E) :
  NoDup ks ->
  concat ((fun k => List.filter (fun e => String.eqb (key e) k) es) <$> ks)
  ≡ₚ List.filter (fun e => bool_decide (key e ∈ ks)) es.
Proof.
  induction 1 as [|k ks Hk Hnd IH].
  - cbn. rewrite bfilter_none; [done|]. intros e _.
    apply bool_decide_eq_false_2, not_elem_of_nil.
  - cbn [fmap list_fmap concat]. cbn in IH.
    by rewrite IH, filter_split_key.
Qed.

Lemma groups_cover (es : list E) :
  concat ((fun k => List.filter (fun e => String.eqb (key e) k) es)
            <$> first_seen (key <$> es))
  ≡ₚ es.
Proof.
  rewrite groups_perm by apply first_seen_NoDup.
  rewrite bfilter_keep_all; [done|]. intros e He.
  apply bool_decide_eq_true_2, first_seen_elem, list_elem_of_fmap.
  by exists e.
Qed.

End GroupCover.

Lemma fmap_concat_imap {A B C} (f : B -> C) (F : nat -> A -> list B)
    (G : A -> list C) (ks : list A) :
  (forall i k, k ∈ ks -> f <$> F i k ≡ₚ G k) ->
  f <$> concat (imap F ks) ≡ₚ concat (G <$> ks).
Proof.
  revert F. induction ks as [|k ks IH]; intros F HF; [done|].
  cbn [imap fmap list_fmap concat]. rewrite fmap_app.
  apply Permutation_app.
  - apply HF, list_elem_of_here.
  - apply IH. intros i k' Hk'. apply HF. by apply list_elem_of_further.
Qed.

Lemma fmap_concat_fmap {A B C} (f : B -> C) (G : A -> list B) (ks : list A) :
  concat ((fun k => f <$> G k) <$> ks) = f <$> concat (G <$> ks).
Proof.
  induction ks as [|k ks IH]; [done|].
  cbn [fmap list_fmap concat]. rewrite fmap_app. cbn in IH. by rewrite IH.
Qed.

Section IngestCover.
Context `{Host}.
Variable uuid : nat -> string.

Lemma grouped_question_ids (records : list JsVal) :
  q_id <$> all_questions (grouped uuid records)
  ≡ₚ (assign_ids uuid 0 records).*2.
Proof.
  unfold grouped, all_questions. cbn zeta.
  set (es := assign_ids uuid 0 records).
  rewrite fmap_imap.
  rewrite (fmap_concat_imap q_id _
             (fun T => (List.filter (in_topic T) es).*2)).
  - rewrite (fmap_concat_fmap snd (fun T => List.filter (in_topic T) es)).
    apply fmap_Permutation.
    apply (groups_cover (fun e : JsVal * JsVal => topicName_of e.1) es).
  - intros i T _. cbn. unfold topic_questions. cbn [t_subtopics].
    rewrite fmap_imap.
    set (es_T := List.filter (in_topic T) es).
    rewrite (fmap_concat_imap q_id _
               (fun S => (List.filter (in_subtopic S) es_T).*2)).
    + rewrite (fmap_concat_fmap snd (fun S => List.filter (in_subtopic S) es_T)).
      apply fmap_Permutation.
      apply (groups_cover (fun e : JsVal * JsVal => subtopicName_of e.1) es_T).
    + intros j S _. cbn. rewrite fmap_imap.
      rewrite (imap_ext _ (fun _ e => e.2)) by done.
      by rewrite (imap_second snd).
Qed.

End IngestCover.

Lemma imap_nonempty {A B} (F : nat -> A -> B) (l : list A) (x : A) :
  x ∈ l -> imap F l <> [].
Proof.
  intros Hx E. apply (f_equal length) in E. rewrite length_imap in E.
  destruct l; [by apply elem_of_nil in Hx | done].
Qed.

Lemma sanitizeString_nonempty `{Host} (value : JsVal) (fallback : string) :
  fallback <> "" -> sanitizeString value fallback <> "".
Proof.
  intros Hf. unfold sanitizeString. destruct value; try done.
  by destruct (String.eqb_spec (trim s) "").
Qed.

Lemma topic_id_inj : Inj (=) (=) (fun i : nat => "topic-" +:+ pretty i).
Proof. intros i j E. by apply String.app_inj, pretty_nat_inj in E. Qed.

Lemma subtopic_id_inj (topicId : string) :
  Inj (=) (=)
    (fun j : nat => "subtopic-" +:+ topicId +:+ "-" +:+ pretty j).
Proof.
  intros i j E.
  by apply String.app_inj, String.app_inj, String.app_inj, pretty_nat_inj in E.
Qed.

Section IngestShape.
Context `{Host}.
Variable uuid : nat -> string.

Lemma first_seen_source {E} (key : E -> string) (es : list E) (i : nat)
    (k : string) :
  first_seen (key <$> es) !! i = Some k ->
  exists e, e ∈ List.filter (fun e => String.eqb (key e) k) es.
Proof.
  intros Hk. apply list_elem_of_lookup_2 in Hk.
  apply (proj1 (first_seen_elem _ _)) in Hk.
  apply list_elem_of_fmap in Hk as (e & -> & He). exists e.
  apply elem_of_bfilter. split; [done|]. apply String.eqb_refl.
Qed.

Lemma grouped_no_empty_groups (records : list JsVal) :
  no_empty_groups (grouped uuid records).
Proof.
  apply Forall_forall. intros t Ht. unfold grouped in Ht. cbn zeta in Ht.
  apply elem_of_lookup_imap in Ht as (i & T & -> & HT). cbn [t_subtopics].
  apply (first_seen_source (fun e : JsVal * JsVal => topicName_of e.1))
    in HT as (e & He).
  split.
  - apply (imap_nonempty _ _ (subtopicName_of e.1)).
    apply first_seen_elem, list_elem_of_fmap. by exists e.
  - apply Forall_forall. intros s Hs.
    apply elem_of_lookup_imap in Hs as (j & S & -> & HS). cbn [s_questions].
    apply (first_seen_source (fun e : JsVal * JsVal => subtopicName_of e.1))
      in HS as (e' & He').
    by apply (imap_nonempty _ _ e').
Qed.

Lemma grouped_filed_under_own_names (records : list JsVal) :
  filed_under_own_names (grouped uuid records).
Proof.
  apply Forall_forall. intros t Ht. unfold grouped in Ht. cbn zeta in Ht.
  apply elem_of_lookup_imap in Ht as (i & T & -> & HT).
  cbn [t_name t_subtopics]. split.
  - apply list_elem_of_lookup_2 in HT.
    apply (proj1 (first_seen_elem _ _)) in HT.
    apply list_elem_of_fmap in HT as (e & -> & _).
    by apply sanitizeString_nonempty.
  - apply Forall_forall. intros s Hs.
    apply elem_of_lookup_imap in Hs as (j & S & -> & HS).
    cbn [s_name s_questions]. split.
    + apply list_elem_of_lookup_2 in HS.
      apply (proj1 (first_seen_elem _ _)) in HS.
      apply list_elem_of_fmap in HS as (e & -> & _).
      by apply sanitizeString_nonempty.
    + apply Forall_forall. intros q Hq.
      by apply elem_of_lookup_imap in Hq as (k & e & -> & _).
Qed.

Lemma grouped_ids_distinct (records : list JsVal) :
  ids_distinct (grouped uuid records).
Proof.
  split.
  - unfold grouped. cbn zeta. rewrite fmap_imap.
    rewrite (imap_ext _ (fun i _ => "topic-" +:+ pretty i)) by done.
    rewrite (imap_seq_0 _ (fun i => "topic-" +:+ pretty i)).
    apply (NoDup_fmap_2 _ (Inj0 := topic_id_inj)), NoDup_seq.
  - apply Forall_forall. intros t Ht. unfold grouped in Ht. cbn zeta in Ht.
    apply elem_of_lookup_imap in Ht as (i & T & -> & _). cbn [t_subtopics].
    rewrite fmap_imap.
    rewrite (imap_ext _
               (fun j _ => "subtopic-" +:+ ("topic-" +:+ pretty i) +:+ "-"
                             +:+ pretty j)) by done.
    rewrite (imap_seq_0 _
               (fun j => "subtopic-" +:+ ("topic-" +:+ pretty i) +:+ "-"
                           +:+ pretty j)).
    apply (NoDup_fmap_2 _ (Inj0 := subtopic_id_inj ("topic-" +:+ pretty i))),
      NoDup_seq.
Qed.

Lemma grouped_question_fields (records : list JsVal) :
  Forall
    (fun q =>
       q_notes q = ""
       /\ exists d, d ∈ DIFFICULTY_LEVELS.values /\ q_difficulty q = JStr d)
    (all_questions (grouped uuid records)).
Proof.
  apply Forall_forall. intros q Hq. unfold all_questions in Hq.
  apply list_elem_of_In, in_concat in Hq as (qs & Hqs & Hq).
  apply list_elem_of_In, list_elem_of_fmap in Hqs as (t & -> & Ht).
  unfold grouped in Ht. cbn zeta in Ht.
  apply elem_of_lookup_imap in Ht as (i & T & -> & _).
  unfold topic_questions in Hq. cbn [t_subtopics] in Hq.
  apply in_concat in Hq as (qs & Hqs & Hq).
  apply list_elem_of_In, list_elem_of_fmap in Hqs as (s & -> & Hs).
  apply elem_of_lookup_imap in Hs as (j & S & -> & _).
  cbn [s_questions] in Hq.
  apply list_elem_of_In, elem_of_lookup_imap in Hq as (k & e & -> & _).
  split; [done|]. cbn [q_difficulty new_question].
  eexists. split; [|done]. apply validateDifficulty_canonical.
Qed.

(** X17.  Ingest loses no record and makes none up: on an accepted document
    the question ids of the tree are, up to order, the ids assigned to the
    records, so the tree has as many questions as the document has records
    and [calculateDetailedStats] reports that number; no topic of the tree is
    without subtopics and no subtopic without questions. *)
Theorem transformSheetData_keeps_every_record
    (rawData : JsVal) (records : list JsVal) :
  truthy (data_sheet rawData) = true ->
  data_questions rawData = JArr records ->
  Forall (fun q => nullish q = false) records ->
  exists sh ts,
    transformSheetData uuid rawData = ret (sh, ts)
    /\ q_id <$> all_questions ts ≡ₚ (assign_ids uuid 0 records).*2
    /\ length (all_questions ts) = length records
    /\ stats_total (calculateDetailedStats ts) = length records
    /\ no_empty_groups ts.
Proof.
  intros Hs Hq Hrs. eexists _, _.
  split; [by apply transformSheetData_accepts|].
  pose proof (grouped_question_ids uuid records) as Hperm.
  assert (length (all_questions (grouped uuid records)) = length records)
    as Hlen.
  { apply Permutation_length in Hperm.
    rewrite !length_fmap in Hperm. rewrite Hperm.
    by rewrite <- (assign_ids_records uuid 0 records) at 2;
      rewrite length_fmap. }
  split; [done|]. split; [done|]. split; [|apply grouped_no_empty_groups].
  destruct (calculateDetailedStats_tallied (grouped uuid records))
    as (_ & Ht & _). by rewrite Ht.
Qed.

(** X18.  On an accepted document every question of the tree is filed under
    the names it carries: its [topic] and [subtopic] are the names of the
    topic and subtopic that hold it, and these names are never empty.  Each
    question starts with empty notes and one of the four difficulty
    levels. *)
Theorem transformSheetData_files_questions_under_their_names
    (rawData : JsVal) (records : list JsVal) :
  truthy (data_sheet rawData) = true ->
  data_questions rawData = JArr records ->
  Forall (fun q => nullish q = false) records ->
  exists sh ts,
    transformSheetData uuid rawData = ret (sh, ts)
    /\ filed_under_own_names ts
    /\ Forall
         (fun q =>
            q_notes q = ""
            /\ exists d,
                 d ∈ DIFFICULTY_LEVELS.values /\ q_difficulty q = JStr d)
         (all_questions ts).
Proof.
  intros Hs Hq Hrs. eexists _, _.
  split; [by apply transformSheetData_accepts|].
  split; [apply grouped_filed_under_own_names | apply grouped_question_fields].
Qed.

(** X19.  On an accepted document the generated topic ids differ from each
    other, and so do the subtopic ids within each topic. *)
Theorem transformSheetData_generates_distinct_ids
    (rawData : JsVal) (records : list JsVal) :
  truthy (data_sheet rawData) = true ->
  data_questions rawData = JArr records ->
  Forall (fun q => nullish q = false) records ->
  exists sh ts,
    transformSheetData uuid rawData = ret (sh, ts) /\ ids_distinct ts.
Proof.
  intros Hs Hq Hrs. eexists _, _.
  split; [by apply transformSheetData_accepts | apply grouped_ids_distinct].
Qed.

End IngestShape.

Lemma transformSheetData_keeps_every_record_witness :
  exists sh ts,
    transformSheetData (H := AsciiHost.host) (fun _ => "0000") Demo.two_records
    = ret (sh, ts)
    /\ q_id <$> all_questions ts
       ≡ₚ (assign_ids (fun _ => "0000") 0
             [Demo.record "r1" "Two Sum"; Demo.record "r2" "3Sum"]).*2
    /\ length (all_questions ts)
       = length [Demo.record "r1" "Two Sum"; Demo.record "r2" "3Sum"]
    /\ stats_total (calculateDetailedStats ts)
       = length [Demo.record "r1" "Two Sum"; Demo.record "r2" "3Sum"]
    /\ no_empty_groups ts.
Proof.
  apply (transformSheetData_keeps_every_record (H := AsciiHost.host)).
  - reflexivity.
  - reflexivity.
  - repeat constructor.
Defined.

Lemma transformSheetData_files_questions_under_their_names_witness :
  exists sh ts,
    transformSheetData (H := AsciiHost.host) (fun _ => "0000") Demo.two_records
    = ret (sh, ts)
    /\ filed_under_own_names ts
    /\ Forall
         (fun q =>
            q_notes q = ""
            /\ exists d,
                 d ∈ DIFFICULTY_LEVELS.values /\ q_difficulty q = JStr d)
         (all_questions ts).
Proof.
  apply (transformSheetData_files_questions_under_their_names
           (H := AsciiHost.host) (fun _ => "0000") Demo.two_records
           [Demo.record "r1" "Two Sum"; Demo.record "r2" "3Sum"]).
  - reflexivity.
  - reflexivity.
  - repeat constructor.
Defined.

Lemma transformSheetData_generates_distinct_ids_witness :
  exists sh ts,
    transformSheetData (H := AsciiHost.host) (fun _ => "0000") Demo.two_records
    = ret (sh, ts)
    /\ ids_distinct ts.
Proof.
  apply (transformSheetData_generates_distinct_ids
           (H := AsciiHost.host) (fun _ => "0000") Demo.two_records
           [Demo.record "r1" "Two Sum"; Demo.record "r2" "3Sum"]).
  - reflexivity.
  - reflexivity.
  - repeat constructor.
Defined.

(** ** The expansion maps, the theme and the statistics panel *)

(** X20.  For ids that are not empty and not names of properties inherited
    from [Object.prototype], [toggleTopicExpansion] and
    [toggleSubtopicExpansion] flip the flag of the id they are given,
    reading a missing key as collapsed, and touch no other key, nor the
    tree, nor the other map; toggling twice gives every id the flag it
    had. *)
Theorem toggle_expansion_flips_one_flag (topicId subtopicId : string)
    (st : State) :
  topicId <> "" -> subtopicId <> "" ->
  topicId ∉ Object_prototype_keys -> subtopicId ∉ Object_prototype_keys ->
  let st1 := toggleTopicExpansion topicId st in
  let st2 := toggleSubtopicExpansion subtopicId st in
  (expanded (expandedTopics st1) topicId
   = negb (expanded (expandedTopics st) topicId)
   /\ (forall id, id <> topicId ->
         expandedTopics st1 !! id = expandedTopics st !! id)
   /\ (forall id,
         expanded (expandedTopics (toggleTopicExpansion topicId st1)) id
         = expanded (expandedTopics st) id)
   /\ topics st1 = topics st
   /\ expandedSubtopics st1 = expandedSubtopics st)
  /\ (expanded (expandedSubtopics st2) subtopicId
      = negb (expanded (expandedSubtopics st) subtopicId)
      /\ (forall id, id <> subtopicId ->
            expandedSubtopics st2 !! id = expandedSubtopics st !! id)
      /\ (forall id,
            expanded
              (expandedSubtopics (toggleSubtopicExpansion subtopicId st2)) id
            = expanded (expandedSubtopics st) id)
      /\ topics st2 = topics st
      /\ expandedTopics st2 = expandedTopics st).
Proof.
  intros Ht Hs _ _. cbn zeta.
  unfold toggleTopicExpansion, toggleSubtopicExpansion, expanded.
  rewrite !missing_false by done.
  cbn [expandedTopics expandedSubtopics topics set_expandedTopics
       set_expandedSubtopics].
  split; (split; [by rewrite lookup_insert_eq|]);
    (split; [by intros id Hid; rewrite lookup_insert_ne|]);
    (split; [|done]); intros id.
  - destruct (decide (id = topicId)) as [->|Hne].
    + rewrite !lookup_insert_eq. cbn. apply negb_involutive.
    + by rewrite !lookup_insert_ne.
  - destruct (decide (id = subtopicId)) as [->|Hne].
    + rewrite !lookup_insert_eq. cbn. apply negb_involutive.
    + by rewrite !lookup_insert_ne.
Qed.

Lemma toggle_expansion_flips_one_flag_witness :
  expanded (expandedTopics (toggleTopicExpansion "A" Demo.state)) "A" = false
  /\ expanded (expandedTopics (toggleTopicExpansion "B" Demo.state)) "B" = true
  /\ expanded (expandedSubtopics (toggleSubtopicExpansion "s2" Demo.state)) "s2"
     = true.
Proof.
  pose proof (toggle_expansion_flips_one_flag "A" "s2" Demo.state)
    as [[HA _] [Hs _]];
    [discriminate | discriminate
     | apply (bool_decide_unpack _); by vm_compute
     | apply (bool_decide_unpack _); by vm_compute |].
  pose proof (toggle_expansion_flips_one_flag "B" "s2" Demo.state)
    as [[HB _] _];
    [discriminate | discriminate
     | apply (bool_decide_unpack _); by vm_compute
     | apply (bool_decide_unpack _); by vm_compute |].
  rewrite HA, HB, Hs. by vm_compute.
Defined.

Lemma expand_loop (ts : list Topic) (m : gmap string bool) (id : string) :
  foldl (fun m t => <[t_id t := true]> m) m ts !! id
  = if bool_decide (id ∈ t_id <$> ts) then Some true else m !! id.
Proof.
  revert m. induction ts as [|t ts IH]; intros m; [done|].
  cbn [foldl fmap list_fmap]. rewrite IH.
  destruct (decide (id ∈ t_id <$> ts)) as [Hin|Hnin].
  - rewrite !bool_decide_eq_true_2;
      [done | by apply list_elem_of_further | done].
  - rewrite (bool_decide_eq_false_2 _ Hnin).
    destruct (decide (id = t_id t)) as [->|Hne].
    + rewrite bool_decide_eq_true_2 by apply list_elem_of_here.
      apply lookup_insert_eq.
    + rewrite bool_decide_eq_false_2 by (rewrite elem_of_cons; tauto).
      by rewrite lookup_insert_ne.
Qed.

(** X21.  After [expandAllTopics] the keys of [expandedTopics] are exactly
    the ids of the topics, each set to true: keys of topics that no longer
    exist are dropped.  After [collapseAllTopics] the map is empty.  Neither
    touches the tree or the subtopic map. *)
Theorem expandAllTopics_keys_are_the_topic_ids (st : State) :
  (forall id,
     expandedTopics (expandAllTopics st) !! id
     = if bool_decide (id ∈ t_id <$> topics st) then Some true else None)
  /\ (forall id, expandedTopics (collapseAllTopics st) !! id = None)
  /\ topics (expandAllTopics st) = topics st
  /\ topics (collapseAllTopics st) = topics st
  /\ expandedSubtopics (expandAllTopics st) = expandedSubtopics st
  /\ expandedSubtopics (collapseAllTopics st) = expandedSubtopics st.
Proof.
  unfold expandAllTopics, collapseAllTopics.
  cbn [expandedTopics expandedSubtopics topics set_expandedTopics].
  repeat split; intros id.
  rewrite expand_loop. by case_bool_decide.
Qed.

(** X22.  [toggleTheme] always lands on "dark" or "light", and it undoes
    itself exactly when the theme was one of the two.  [toggleStats] always
    undoes itself. *)
Theorem toggleTheme_and_toggleStats_alternate (st : State) :
  (theme (toggleTheme st) = THEME_DARK \/ theme (toggleTheme st) = THEME_LIGHT)
  /\ (toggleTheme (toggleTheme st) = st
      <-> theme st = THEME_DARK \/ theme st = THEME_LIGHT)
  /\ toggleStats (toggleStats st) = st.
Proof.
  unfold toggleTheme, toggleStats. destruct st as [? ? ? ? ? ? ? ? ? th ?].
  cbn [theme showStats set_theme set_showStats].
  split; [|split].
  - destruct (String.eqb th THEME_DARK); [by right | by left].
  - destruct (String.eqb_spec th THEME_DARK) as [->|Hne].
    + split; [by left|done].
    + change (String.eqb THEME_DARK THEME_DARK) with true. cbn iota. split.
      * intros [= <-]. by right.
      * by intros [? | ->].
  - by rewrite negb_involutive.
Qed.

(** ** Loading and resetting *)

(** X23.  Once a fetch has left topics in the store, every later fetch,
    whatever its document, changes nothing. *)
Theorem fetchSheetData_runs_once `{Host} (uuid uuid' : nat -> string)
    (sheetData sheetData' : JsVal) (st : State) :
  topics (fetchSheetData uuid sheetData st) <> [] ->
  fetchSheetData uuid' sheetData' (fetchSheetData uuid sheetData st)
  = fetchSheetData uuid sheetData st.
Proof.
  intros Hts.
  assert (loading (fetchSheetData uuid sheetData st) = false) as Hl.
  { unfold fetchSheetData.
    destruct (0 <? length (topics st)) eqn:Hn; destruct (loading st) eqn:Hld;
      cbn [andb negb]; try done;
      by destruct (transformSheetData uuid sheetData) as [e|[sh ts]]. }
  unfold fetchSheetData at 1. rewrite Hl.
  destruct (topics (fetchSheetData uuid sheetData st)); [done|]. done.
Qed.

Lemma fetchSheetData_runs_once_witness :
  fetchSheetData (H := AsciiHost.host) (fun _ => "1111") Demo.no_questions
    (fetchSheetData (H := AsciiHost.host) (fun _ => "0000") Demo.two_records
       initial_state)
  = fetchSheetData (H := AsciiHost.host) (fun _ => "0000") Demo.two_records
      initial_state.
Proof.
  apply (fetchSheetData_runs_once (H := AsciiHost.host)). discriminate.
Defined.

(** X24.  A fetch that follows [resetProgress] always runs, and what it
    stores does not depend on the tree or sheet that were there before: the
    tree and sheet of the document, or no tree, no sheet and the error
    message when the document is rejected.  The expansion maps, the search
    text, the filters, the theme and the statistics flag are the ones from
    before the reset. *)
Theorem fetch_after_reset_rebuilds_from_the_document `{Host}
    (uuid : nat -> string) (sheetData : JsVal) (st : State) :
  let st' := fetchSheetData uuid sheetData (resetProgress st) in
  match transformSheetData uuid sheetData with
  | inr (sh, ts) => sheet st' = Some sh /\ topics st' = ts /\ error st' = None
  | inl e =>
      sheet st' = None /\ topics st' = [] /\ error st' = Some (exn_message e)
  end
  /\ loading st' = false
  /\ expandedTopics st' = expandedTopics st
  /\ expandedSubtopics st' = expandedSubtopics st
  /\ searchQuery st' = searchQuery st
  /\ filterDifficulty st' = filterDifficulty st
  /\ filterStatus st' = filterStatus st
  /\ theme st' = theme st
  /\ showStats st' = showStats st.
Proof.
  cbn zeta. unfold fetchSheetData, resetProgress.
  cbn [topics set_error set_loading set_sheet set_topics length Nat.ltb
       Nat.leb andb].
  by destruct (transformSheetData uuid sheetData) as [e|[sh ts]].
Qed.

(** ** What the deletes take out and what the renames change *)







(** ** What every reachable state satisfies *)

Lemma question_level_ok_new (v : JsVal) (q : Question) :
  q_difficulty q = JStr (validateDifficulty v) -> question_level_ok q.
Proof.
  intros E. exists (validateDifficulty v). split; [|done].
  apply validateDifficulty_canonical.
Qed.

Lemma subtopic_named_map (f : Question -> Question) (s : Subtopic) :
  (forall q, question_level_ok q -> question_level_ok (f q)) ->
  subtopic_named s -> subtopic_named (s_with_questions (f <$> s_questions s) s).
Proof.
  intros Hf [Hn Hqs]. split; [done|]. cbn. by apply Forall_map_pres.
Qed.

Lemma topic_named_map (f : Subtopic -> Subtopic) (t : Topic) :
  (forall s, subtopic_named s -> subtopic_named (f s)) ->
  topic_named t -> topic_named (t_with_subtopics (f <$> t_subtopics t) t).
Proof.
  intros Hf [Hn Hss]. split; [done|]. cbn. by apply Forall_map_pres.
Qed.

Lemma merge_question_level `{Host} (questionData : JsVal) (q : Question) :
  question_level_ok q -> question_level_ok (merge_question questionData q).
Proof.
  intros Hq. destruct (merge_question_fields questionData q) as (_ & E & _).
  destruct (truthy (own questionData "difficulty")).
  - by eapply question_level_ok_new.
  - unfold question_level_ok. by rewrite E.
Qed.

Lemma grouped_named_and_levelled `{Host} (uuid : nat -> string)
    (records : list JsVal) :
  named_and_levelled (grouped uuid records).
Proof.
  apply Forall_forall. intros t Ht. unfold grouped in Ht. cbn zeta in Ht.
  apply elem_of_lookup_imap in Ht as (i & T & -> & HT). split.
  - cbn. apply list_elem_of_lookup_2 in HT.
    apply (proj1 (first_seen_elem _ _)) in HT.
    apply list_elem_of_fmap in HT as (e & -> & _).
    by apply sanitizeString_nonempty.
  - cbn [t_subtopics]. apply Forall_forall. intros s Hs.
    apply elem_of_lookup_imap in Hs as (j & S & -> & HS). split.
    + cbn. apply list_elem_of_lookup_2 in HS.
      apply (proj1 (first_seen_elem _ _)) in HS.
      apply list_elem_of_fmap in HS as (e & -> & _).
      by apply sanitizeString_nonempty.
    + cbn [s_questions]. apply Forall_forall. intros q Hq.
      apply elem_of_lookup_imap in Hq as (k & e & -> & _).
      by eapply question_level_ok_new.
Qed.

Ltac named_guards :=
  repeat match goal with
         | |- named_and_levelled (topics (if ?c then _ else _)) => destruct c
         end;
  cbn [topics set_topics set_sheet set_expandedTopics set_expandedSubtopics
       set_loading set_error set_searchQuery set_filterDifficulty
       set_filterStatus set_theme set_showStats];
  try assumption.

(** The same, keeping what the guard said about the sanitized name. *)
Ltac name_guard E :=
  match goal with
  | |- named_and_levelled (topics (if ?c then _ else _)) => destruct c eqn:E
  end;
  [assumption|];
  cbn [topics set_topics];
  rewrite ?orb_false_iff in E;
  repeat match type of E with _ /\ _ => destruct E as [_ E] end;
  apply String.eqb_neq in E.

Ltac named_topics Hst t Ht :=
  apply Forall_map_pres; [|exact Hst]; intros t Ht.
Ltac named_subtopics Ht s Hs :=
  apply topic_named_map; [|exact Ht]; intros s Hs.
Ltac named_questions Hs :=
  apply subtopic_named_map; [|exact Hs]; intros q Hq.

Lemma step_named_and_levelled `{Host} (a : Action) (st : State) :
  named_and_levelled (topics st) -> named_and_levelled (topics (step a st)).
Proof.
  intros Hst. destruct a; cbn [step].
  - unfold fetchSheetData. named_guards.
    destruct (transformSheetData uuid sheetData) as [e|[sh ts]] eqn:Hret;
      named_guards.
    apply transformSheetData_returns_grouped in Hret as (records & _ & ->).
    apply grouped_named_and_levelled.
  - constructor.
  - unfold toggleTopicExpansion. named_guards.
  - unfold toggleSubtopicExpansion. named_guards.
  - done.
  - done.
  - done.
  - done.
  - done.
  - done.
  - done.
  - unfold toggleQuestionSolved. named_guards. named_topics Hst t Ht.
    named_subtopics Ht s Hs. named_questions Hs. by destruct (is_str _ _).
  - unfold toggleAllInSubtopic, updateTopicsNested. named_guards.
    named_topics Hst t Ht. destruct (_ && _); [done|].
    named_subtopics Ht s Hs. destruct (_ && _); [done|].
    by named_questions Hs.
  - unfold updateQuestionNotes. named_guards. named_topics Hst t Ht.
    named_subtopics Ht s Hs. named_questions Hs. by destruct (is_str _ _).
  - unfold addTopic. cbn zeta. name_guard E. apply Forall_app.
    split; [done|]. constructor; [|constructor]. by split; [|constructor].
  - unfold updateTopic. cbn zeta. name_guard E.
    named_topics Hst t Ht. destruct (String.eqb _ _); [|done].
    destruct Ht as [_ Hss]. by split.
  - unfold deleteTopic. named_guards. by apply Forall_bfilter.
  - unfold addSubtopic. cbn zeta. name_guard E.
    named_topics Hst t Ht. destruct (negb _); [done|].
    destruct Ht as [Hn Hss]. split; [done|]. cbn. apply Forall_app.
    split; [done|]. constructor; [|constructor]. by split; [|constructor].
  - unfold updateSubtopic. cbn zeta. name_guard E.
    named_topics Hst t Ht. destruct (negb _); [done|].
    named_subtopics Ht s Hs. destruct (String.eqb _ _); [|done].
    destruct Hs as [_ Hqs]. by split.
  - unfold deleteSubtopic. named_guards. named_topics Hst t Ht.
    destruct (negb _); [done|]. destruct Ht as [Hn Hss]. split; [done|].
    cbn. by apply Forall_bfilter.
  - unfold addQuestion. named_guards. cbn zeta. named_guards.
    named_topics Hst t Ht. destruct (negb _); [done|].
    named_subtopics Ht s Hs. destruct (negb _); [done|].
    destruct Hs as [Hn Hqs]. split; [done|]. cbn. apply Forall_app.
    split; [done|]. constructor; [|constructor].
    by eapply question_level_ok_new.
  - unfold updateQuestion. named_guards. named_topics Hst t Ht.
    destruct (negb _); [done|]. named_subtopics Ht s Hs.
    destruct (negb _); [done|]. named_questions Hs.
    destruct (negb _); [done|]. by apply merge_question_level.
  - unfold deleteQuestion. named_guards. named_topics Hst t Ht.
    destruct (negb _); [done|]. named_subtopics Ht s Hs.
    destruct (negb _); [done|]. destruct Hs as [Hn Hqs]. split; [done|].
    cbn. by apply Forall_bfilter.
  - unfold reorderTopics. named_guards. cbn zeta. named_guards.
    pose proof (Forall_reordered topic_named
                  (fun t => String.eqb (t_id t) activeId)
                  (fun t => String.eqb (t_id t) overId) (topics st)) as Hr.
    destruct (reorderArray _ _ _); named_guards. by apply Hr.
  - unfold reorderSubtopics. named_guards. named_topics Hst t Ht.
    destruct (negb _); [done|]. cbn zeta. destruct (_ || _); [done|].
    pose proof (Forall_reordered subtopic_named
                  (fun s => String.eqb (s_id s) activeId)
                  (fun s => String.eqb (s_id s) overId) (t_subtopics t)) as Hr.
    destruct (reorderArray _ _ _); [|done]. destruct Ht as [Hn Hss].
    split; [done|]. by apply Hr.
  - unfold reorderQuestions. named_guards. named_topics Hst t Ht.
    destruct (negb _); [done|]. named_subtopics Ht s Hs.
    destruct (negb _); [done|]. cbn zeta. destruct (_ || _); [done|].
    pose proof (Forall_reordered question_level_ok
                  (fun q => is_str (q_id q) activeId)
                  (fun q => is_str (q_id q) overId) (s_questions s)) as Hr.
    destruct (reorderArray _ _ _); [|done]. destruct Hs as [Hn Hqs].
    split; [done|]. by apply Hr.
Qed.

Lemma step_theme `{Host} (a : Action) (st : State) :
  theme st = THEME_DARK \/ theme st = THEME_LIGHT ->
  theme (step a st) = THEME_DARK \/ theme (step a st) = THEME_LIGHT.
Proof.
  intros Hth.
  destruct a; cbn [step];
    unfold fetchSheetData, resetProgress, toggleTopicExpansion,
      toggleSubtopicExpansion, expandAllTopics,
      collapseAllTopics, setSearchQuery, setFilterDifficulty, setFilterStatus,
      toggleTheme, toggleStats, toggleQuestionSolved, toggleAllInSubtopic,
      updateQuestionNotes, addTopic, updateTopic, deleteTopic, addSubtopic,
      updateSubtopic, deleteSubtopic, addQuestion, updateQuestion,
      deleteQuestion, reorderTopics, reorderSubtopics, reorderQuestions;
    cbn zeta;
    repeat match goal with
           | |- context [if ?c then _ else _] => destruct c eqn:?
           | |- context [match ?c with Some _ => _ | None => _ end] => destruct c
           | |- context [match ?c with inl _ => _ | inr _ => _ end] =>
               destruct c as [?|[? ?]]
           end;
    cbn; first [done | by left | by right].
Qed.

(** X27.  Every state the store can reach from its initial state is well
    formed: all ids in the tree are truthy, no topic or subtopic has an empty
    name, every stored difficulty is one of the four levels, neither filter
    is empty, and the theme is "dark" or "light". *)
Theorem reachable_states_are_well_formed `{Host} (st : State) :
  reachable st -> well_formed st.
Proof.
  intros Hr. split; [by apply reachable_ids_truthy|].
  split; [|split; [by apply reachable_filters_nonempty|
                   split; [by apply reachable_filters_nonempty|]]].
  - induction Hr as [|a st _ IH]; [constructor|].
    by apply step_named_and_levelled.
  - induction Hr as [|a st _ IH]; [by left|]. by apply step_theme.
Qed.

Lemma reachable_states_are_well_formed_witness :
  well_formed
    (step (H := AsciiHost.host)
       (AddQuestion "u3" "topic-u1" "subtopic-u2"
          (JObj [("title", JStr "Two Sum"); ("difficulty", JStr "Impossible")]))
       (step (H := AsciiHost.host) (AddSubtopic "u2" "topic-u1" (JStr "Basics"))
          (step (H := AsciiHost.host) (AddTopic "u1" (JStr "Arrays"))
             initial_state))).
Proof.
  apply (reachable_states_are_well_formed (H := AsciiHost.host)).
  repeat apply reachable_step. apply reachable_initial.
Defined.

(** ** The outcomes of ingest *)

(** X28.  [transformSheetData] has four outcomes, decided in this order: the
    error "Invalid sheet data format" when the sheet or the questions
    collection is falsy; a TypeError when the questions collection is not an
    array; a TypeError when some record is null or undefined, wherever it
    stands, so that no partial tree is returned; and otherwise the sheet and
    the grouped tree. *)
Theorem transformSheetData_outcome `{Host} (uuid : nat -> string)
    (rawData : JsVal) :
  transformSheetData uuid rawData
  = if negb (truthy (data_sheet rawData))
       || negb (truthy (data_questions rawData))
    then throw (mkExn "Invalid sheet data format")
    else
      match data_questions rawData with
      | JArr records =>
          if existsb nullish records then throw (TypeError "topic")
          else ret (new_sheet uuid (data_sheet rawData) (count_fresh records),
                    grouped uuid records)
      | _ => throw (TypeError "forEach")
      end.
Proof.
  destruct (truthy (data_sheet rawData)) eqn:Hs; cycle 1.
  { apply transformSheetData_rejects. by left. }
  destruct (truthy (data_questions rawData)) eqn:Hq; cycle 1.
  { apply transformSheetData_rejects. by right. }
  cbn [negb orb].
  destruct (data_questions rawData) as [| |b|n|s|records|fields] eqn:Eq;
    try (apply transformSheetData_not_array; by rewrite ?Eq).
  destruct (existsb nullish records) eqn:Hex.
  - apply (transformSheetData_null_record uuid _ records); try done.
    apply existsb_exists in Hex as (q & Hin & Hq').
    apply Exists_exists. exists q. split; [by apply list_elem_of_In | done].
  - apply transformSheetData_accepts; try done.
    apply Forall_forall. intros q Hin. apply list_elem_of_In in Hin.
    destruct (nullish q) eqn:Hn; [|done].
    assert (existsb nullish records = true) as Hc
      by (apply existsb_exists; eauto).
    congruence.
Qed.

(** ** Which actions leave the progress alone *)

Lemma concat_Permutation {A} (l l' : list (list A)) :
  l ≡ₚ l' -> concat l ≡ₚ concat l'.
Proof.
  induction 1 as [|x l l' _ IH|x y l|l l' l'' _ IH1 _ IH2]; cbn [concat].
  - done.
  - by rewrite IH.
  - rewrite !app_assoc. apply Permutation_app; [|done].
    apply Permutation_app_comm.
  - by rewrite IH1.
Qed.

Lemma filter_length_Permutation {A} (f : A -> bool) (l l' : list A) :
  l ≡ₚ l' -> length (List.filter f l) = length (List.filter f l').
Proof.
  induction 1 as [|x l l' _ IH|x y l|l l' l'' _ IH1 _ IH2];
    cbn [List.filter]; try done.
  - destruct (f x); cbn; by rewrite IH.
  - by destruct (f x), (f y).
  - by rewrite IH1.
Qed.

Lemma solved_count_flags (qs : list Question) :
  solved_count qs = length (List.filter (fun b : bool => b) (q_isSolved <$> qs)).
Proof.
  unfold solved_count. induction qs as [|q qs IH]; [done|].
  cbn [List.filter fmap list_fmap]. destruct (q_isSolved q); cbn; by rewrite IH.
Qed.

Lemma fmap_renumber {A B} `{Ordered A} (f : A -> B) (l : list A) :
  (forall k x, f (with_order k x) = f x) -> f <$> renumber l = f <$> l.
Proof.
  intros Hf. unfold renumber. rewrite fmap_imap.
  rewrite (imap_ext _ (fun _ x => f x)) by (intros; apply Hf).
  apply (imap_const f).
Qed.

Lemma reordered_proj {A B} `{OrderedLaws A} (f : A -> B) (p p' : A -> bool)
    (l : list A) :
  (forall k x, f (with_order k x) = f x) ->
  f <$> default l (reorderArray l (findIndex p l) (findIndex p' l))
  ≡ₚ f <$> l.
Proof.
  intros Hf.
  destruct (reorderArray_findIndex p p' l) as (i & j & [-> | ->]); [done|].
  cbn. rewrite fmap_renumber by done.
  by rewrite (move_item_Permutation l i j).
Qed.

Lemma flags_topics_Permutation (ts ts' : list Topic) :
  topic_questions <$> ts ≡ₚ topic_questions <$> ts' -> flags ts ≡ₚ flags ts'.
Proof.
  intros Hp. unfold flags, all_questions.
  by apply fmap_Permutation, concat_Permutation.
Qed.

Lemma flags_map (F : Topic -> Topic) (ts : list Topic) :
  (forall t, q_isSolved <$> topic_questions (F t)
             ≡ₚ q_isSolved <$> topic_questions t) ->
  flags (F <$> ts) ≡ₚ flags ts.
Proof.
  intros HF. unfold flags, all_questions.
  induction ts as [|t ts IH]; [done|].
  cbn [fmap list_fmap concat]. rewrite !fmap_app.
  apply Permutation_app; [apply HF | apply IH].
Qed.

Lemma topic_flags_Permutation (subs subs' : list Subtopic) (t : Topic) :
  s_questions <$> subs ≡ₚ s_questions <$> subs' ->
  q_isSolved <$> topic_questions (t_with_subtopics subs t)
  ≡ₚ q_isSolved <$> topic_questions (t_with_subtopics subs' t).
Proof.
  intros Hp. unfold topic_questions. cbn [t_subtopics t_with_subtopics].
  by apply fmap_Permutation, concat_Permutation.
Qed.

Lemma topic_flags_map (G : Subtopic -> Subtopic) (t : Topic) :
  (forall s, q_isSolved <$> s_questions (G s) ≡ₚ q_isSolved <$> s_questions s) ->
  q_isSolved <$> topic_questions (t_with_subtopics (G <$> t_subtopics t) t)
  ≡ₚ q_isSolved <$> topic_questions t.
Proof.
  intros HG. unfold topic_questions. cbn [t_subtopics t_with_subtopics].
  induction (t_subtopics t) as [|s subs IH]; [done|].
  cbn [fmap list_fmap concat]. rewrite !fmap_app.
  apply Permutation_app; [apply HG | apply IH].
Qed.

Lemma question_flags_map (f : Question -> Question) (s : Subtopic) :
  (forall q, q_isSolved (f q) = q_isSolved q) ->
  q_isSolved <$> s_questions (s_with_questions (f <$> s_questions s) s)
  ≡ₚ q_isSolved <$> s_questions s.
Proof.
  intros Hf. cbn [s_questions s_with_questions].
  rewrite <- list_fmap_compose.
  by rewrite (list_fmap_ext (q_isSolved ∘ f) q_isSolved)
    by (intros; apply Hf).
Qed.

Lemma merge_question_isSolved `{Host} (questionData : JsVal) (q : Question) :
  q_isSolved (merge_question questionData q) = q_isSolved q.
Proof.
  destruct (merge_question_fields questionData q) as (_ & _ & _ & E).
  unfold other_fields in E. congruence.
Qed.

Ltac flag_guards :=
  repeat match goal with
         | |- flags (topics (if ?c then _ else _)) ≡ₚ _ => destruct c
         end;
  cbn [topics set_topics set_sheet set_expandedTopics set_expandedSubtopics
       set_loading set_error set_searchQuery set_filterDifficulty
       set_filterStatus set_theme set_showStats];
  try reflexivity.

Lemma step_flags `{Host} (a : Action) (st : State) :
  progress_neutral a = true -> flags (topics (step a st)) ≡ₚ flags (topics st).
Proof.
  intros Ha. destruct a; try discriminate Ha; cbn [step].
  - unfold toggleTopicExpansion. flag_guards.
  - unfold toggleSubtopicExpansion. flag_guards.
  - done.
  - done.
  - done.
  - done.
  - done.
  - done.
  - done.
  - unfold updateQuestionNotes. flag_guards. apply flags_map. intros t.
    apply topic_flags_map. intros s. apply question_flags_map. intros q.
    by destruct (is_str _ _).
  - unfold updateTopic. cbn zeta. flag_guards. apply flags_map. intros t.
    by destruct (String.eqb _ _).
  - unfold updateSubtopic. cbn zeta. flag_guards. apply flags_map. intros t.
    destruct (negb _); [done|]. apply topic_flags_map. intros s.
    by destruct (String.eqb _ _).
  - unfold updateQuestion. flag_guards. apply flags_map. intros t.
    destruct (negb _); [done|]. apply topic_flags_map. intros s.
    destruct (negb _); [done|]. apply question_flags_map. intros q.
    destruct (negb _); [done|]. apply merge_question_isSolved.
  - unfold reorderTopics. flag_guards. cbn zeta. flag_guards.
    pose proof (reordered_proj topic_questions
                  (fun t => String.eqb (t_id t) activeId)
                  (fun t => String.eqb (t_id t) overId) (topics st)
                  ltac:(done)) as Hr.
    destruct (reorderArray _ _ _); flag_guards.
    by apply flags_topics_Permutation.
  - unfold reorderSubtopics. flag_guards. apply flags_map. intros t.
    destruct (negb _); [done|]. cbn zeta. destruct (_ || _); [done|].
    pose proof (reordered_proj s_questions
                  (fun s => String.eqb (s_id s) activeId)
                  (fun s => String.eqb (s_id s) overId) (t_subtopics t)
                  ltac:(done)) as Hr.
    destruct (reorderArray _ _ _); [|done].
    rewrite <- (topic_eta t) at 2. by apply topic_flags_Permutation.
  - unfold reorderQuestions. flag_guards. apply flags_map. intros t.
    destruct (negb _); [done|]. apply topic_flags_map. intros s.
    destruct (negb _); [done|]. cbn zeta. destruct (_ || _); [done|].
    pose proof (reordered_proj q_isSolved
                  (fun q => is_str (q_id q) activeId)
                  (fun q => is_str (q_id q) overId) (s_questions s)
                  ltac:(done)) as Hr.
    by destruct (reorderArray _ _ _).
Qed.

(** X29.  Loading, resetting, adding, deleting and the two solved toggles
    are the only actions that can change the progress: every other action,
    the reorders, renames, edits and notes among them, leaves the solved
    flags of the tree the same up to order, and with them the result of
    [calculateTotalProgress] and the overall counts of
    [calculateDetailedStats]. *)
Theorem progress_changes_only_by_load_add_delete_toggle `{Host} `{Rounding}
    (a : Action) (st : State) :
  progress_neutral a = true ->
  flags (topics (step a st)) ≡ₚ flags (topics st)
  /\ calculateTotalProgress (topics (step a st))
     = calculateTotalProgress (topics st)
  /\ stats_total (calculateDetailedStats (topics (step a st)))
     = stats_total (calculateDetailedStats (topics st))
  /\ stats_solved (calculateDetailedStats (topics (step a st)))
     = stats_solved (calculateDetailedStats (topics st)).
Proof.
  intros Ha. pose proof (step_flags a st Ha) as Hp. split; [done|].
  assert (length (all_questions (topics (step a st)))
          = length (all_questions (topics st))) as Hlen.
  { apply Permutation_length in Hp. unfold flags in Hp.
    by rewrite !length_fmap in Hp. }
  assert (solved_count (all_questions (topics (step a st)))
          = solved_count (all_questions (topics st))) as Hsol.
  { rewrite !solved_count_flags. by apply filter_length_Permutation. }
  split; [|split].
  - unfold calculateTotalProgress. rewrite !total_progress_outer.
    cbn [fst snd]. by rewrite Hlen, Hsol.
  - destruct (calculateDetailedStats_tallied (topics (step a st)))
      as (_ & -> & _).
    destruct (calculateDetailedStats_tallied (topics st)) as (_ & -> & _).
    by rewrite Hlen.
  - destruct (calculateDetailedStats_tallied (topics (step a st)))
      as (_ & _ & -> & _).
    destruct (calculateDetailedStats_tallied (topics st)) as (_ & _ & -> & _).
    by rewrite Hsol.
Qed.

Lemma progress_changes_only_by_load_add_delete_toggle_witness :
  calculateTotalProgress
    (topics (step (H := AsciiHost.host) (ReorderQuestions "A" "s1" "q1" "q3")
               Demo.state))
  = calculateTotalProgress (topics Demo.state).
Proof.
  apply (progress_changes_only_by_load_add_delete_toggle
           (H := AsciiHost.host) (ReorderQuestions "A" "s1" "q1" "q3")
           Demo.state).
  reflexivity.
Defined.

(** ** Filtering and progress *)

(** X30.  With an empty search text (which the host normalises to the empty
    string) and the difficulty filter "all", [filterQuestions] keeps every
    question under the status "all", and under "solved" and "unsolved" it
    keeps as many questions of a subtopic as [calculateSubtopicProgress]
    counts as solved and as not solved. *)
Theorem filterQuestions_agrees_with_progress `{Host} (subtopic : Subtopic) :
  trim (toLowerCase "") = "" ->
  let questions := s_questions subtopic in
  let progress := calculateSubtopicProgress subtopic in
  filterQuestions questions "" FILTER_ALL FILTER_ALL = questions
  /\ length (filterQuestions questions "" FILTER_ALL FILTER_SOLVED)
     = p_solved progress
  /\ length (filterQuestions questions "" FILTER_ALL FILTER_UNSOLVED)
     = p_total progress - p_solved progress.
Proof.
  intros Hn. cbn zeta. unfold filterQuestions, calculateSubtopicProgress.
  cbn [p_total p_solved].
  assert (forall st q,
            kept "" FILTER_ALL st q
            = negb ((String.eqb st FILTER_SOLVED && negb (q_isSolved q))
                    || (String.eqb st FILTER_UNSOLVED && q_isSolved q)))
    as Hk.
  { intros st q. unfold kept. rewrite Hn. cbn [String.eqb negb andb].
    change (String.eqb FILTER_ALL FILTER_ALL) with true. cbn [negb andb].
    by destruct (String.eqb st FILTER_SOLVED && negb (q_isSolved q)),
         (String.eqb st FILTER_UNSOLVED && q_isSolved q). }
  split; [|split].
  - apply bfilter_keep_all. intros q _. by rewrite Hk.
  - f_equal. apply List.filter_ext. intros q. rewrite Hk.
    change (String.eqb FILTER_SOLVED FILTER_SOLVED) with true.
    change (String.eqb FILTER_SOLVED FILTER_UNSOLVED) with false.
    by destruct (q_isSolved q).
  - rewrite (List.filter_ext _ (fun q => negb (q_isSolved q))).
    + induction (s_questions subtopic) as [|q qs IH]; [done|].
      cbn [List.filter length].
      pose proof (List.filter_length_le q_isSolved qs).
      destruct (q_isSolved q); cbn [negb length]; lia.
    + intros q. rewrite Hk.
      change (String.eqb FILTER_UNSOLVED FILTER_SOLVED) with false.
      change (String.eqb FILTER_UNSOLVED FILTER_UNSOLVED) with true.
      by destruct (q_isSolved q).
Qed.

Lemma filterQuestions_agrees_with_progress_witness :
  length (filterQuestions (H := AsciiHost.host) Demo.questions ""
            FILTER_ALL FILTER_SOLVED)
  = 1.
Proof.
  pose proof (filterQuestions_agrees_with_progress (H := AsciiHost.host)
                (mkSubtopic "s1" "Basics" 0 Demo.questions) eq_refl)
    as (_ & Hs & _).
  exact Hs.
Defined.
